(** * sentinel-ai: the policy boundary of the scanning CLI

    A shallow embedding of the Go packages [internal/policy],
    [internal/tools], [internal/logging], [internal/security],
    [internal/deadcode] and [internal/engine], followed by the properties
    of the allowlist matcher, the path guard, the audit logger and the
    orchestrator.

    Go strings are byte sequences and are modelled by [string] (one
    [ascii] per byte); [len] is [String.length].  Slices are lists, a Go
    [map] is a [gmap], a Go [error] is the text of the error
    ([option string], [None] for [nil]), [int] counters are [nat] or [Z],
    a [time.Duration] is a number of nanoseconds in [Z]. *)

From stdpp Require Import base option list strings gmap.
From Stdlib Require Import ZArith Lia Ascii String DecimalString.

Set Default Proof Using "Type".
Local Open Scope string_scope.
Local Open Scope list_scope.

(** ** The parts of Go's standard library the packages call *)

Module GoStrings.

(** [strings.HasPrefix(s, prefix)]: [prefix] is an initial segment of [s]. *)
Fixpoint HasPrefix (s prefix : string) : bool :=
  match prefix with
  | EmptyString => true
  | String c prefix' =>
      match s with
      | EmptyString => false
      | String d s' => Ascii.eqb d c && HasPrefix s' prefix'
      end
  end.

(** [strings.Contains(s, substr)]: [substr] occurs at some offset of [s]. *)
Fixpoint Contains (s substr : string) : bool :=
  HasPrefix s substr ||
  match s with
  | EmptyString => false
  | String _ s' => Contains s' substr
  end.

Definition isUpper (c : ascii) : bool :=
  (65 <=? nat_of_ascii c)%nat && (nat_of_ascii c <=? 90)%nat.

Definition lowerByte (c : ascii) : ascii :=
  if isUpper c then ascii_of_nat (nat_of_ascii c + 32) else c.

(** No byte of [s] is [utf8.RuneSelf] or above. *)
Fixpoint isASCII (s : string) : bool :=
  match s with
  | EmptyString => true
  | String c s' => (nat_of_ascii c <? 128)%nat && isASCII s'
  end.

(** The ASCII path of [strings.ToLower]: ['A'..'Z'] go to ['a'..'z'],
    every other byte is kept. *)
Fixpoint lowerASCII (s : string) : string :=
  match s with
  | EmptyString => EmptyString
  | String c s' => String (lowerByte c) (lowerASCII s')
  end.

(** [strings.ToLower(s)]: text that is all ASCII is folded byte by
    byte (and returned as it is when it has no upper-case letter,
    which is the same string); any other text is the result of
    [strings.Map(unicode.ToLower, s)], read from [mapLower], the
    lower-casing by the Unicode case tables of the Go release. *)
Definition ToLower (mapLower : string -> string) (s : string) : string :=
  if isASCII s then lowerASCII s else mapLower s.

(** [strings.HasSuffix(s, suffix)]: [suffix] is a final segment of [s]. *)
Definition HasSuffix (s suffix : string) : bool :=
  (String.length suffix <=? String.length s)%nat
  && String.eqb
       (substring (String.length s - String.length suffix)
                  (String.length suffix) s)
       suffix.

(** [strings.Join(elems, sep)]. *)
Fixpoint Join (elems : list string) (sep : string) : string :=
  match elems with
  | [] => EmptyString
  | [e] => e
  | e :: rest => e +:+ sep +:+ Join rest sep
  end.

End GoStrings.

Module GoFilepath.

Definition Separator : ascii := "/"%char.

Definition isSep (c : ascii) : bool := Ascii.eqb c Separator.

(** The elements of a path between separators, empty ones included. *)
Fixpoint splitSep (s : string) : list string :=
  match s with
  | EmptyString => [EmptyString]
  | String c s' =>
      if isSep c then EmptyString :: splitSep s'
      else match splitSep s' with
           | [] => [String c EmptyString]
           | e :: es => String c e :: es
           end
  end.

Definition IsAbs (path : string) : bool :=
  GoStrings.HasPrefix path "/".

(** One element of the input against the elements kept so far
    ([out], last kept element first). *)
Definition cleanStep (rooted : bool) (out : list string) (e : string)
  : list string :=
  if String.eqb e EmptyString then out
  else if String.eqb e "." then out
  else if String.eqb e ".." then
    match out with
    | top :: below =>
        if String.eqb top ".." then e :: out else below
    | [] => if rooted then out else [e]
    end
  else e :: out.

(** [filepath.Clean] for slash-separated paths: empty and [.] elements
    are dropped, [..] removes the element before it, a rooted path
    never climbs above the root, and the empty result is [.]. *)
Definition Clean (path : string) : string :=
  let rooted := IsAbs path in
  let out := rev (fold_left (cleanStep rooted) (splitSep path) []) in
  if rooted then "/" +:+ GoStrings.Join out "/"
  else match out with
       | [] => "."
       | _ => GoStrings.Join out "/"
       end.

(** [filepath.Join(a, b)]: the non-empty elements joined by a
    separator, then cleaned. *)
Definition Join2 (a b : string) : string :=
  if String.eqb a EmptyString then
    if String.eqb b EmptyString then EmptyString else Clean b
  else Clean (a +:+ "/" +:+ b).

(** [filepath.Abs(path)]; [getwd] is the result of [os.Getwd], [None]
    when it fails, and then [Abs] fails on a relative path. *)
Definition Abs (getwd : option string) (path : string) : option string :=
  if IsAbs path then Some (Clean path)
  else match getwd with
       | Some wd => Some (Join2 wd path)
       | None => None
       end.

(** [filepath.Base(path)]: the last element of the path, [.] for the
    empty path and [/] for a path of separators only. *)
Definition Base (path : string) : string :=
  if String.eqb path EmptyString then "."
  else match filter (fun e => negb (String.eqb e EmptyString))
                    (rev (splitSep path)) with
       | e :: _ => e
       | [] => "/"
       end.

(** *** [utf8.DecodeRuneInString]

    The first character of a string and its width in bytes.  A byte
    that starts no well-formed character is [RuneError] of width 1:
    a continuation or unused byte, a truncated character, an overlong
    form, a surrogate, a value above [U+10FFFF]. *)

Definition RuneError : N := 65533.

Definition inRange (lo hi b : N) : bool :=
  (lo <=? b)%N && (b <=? hi)%N.

(** The table [first] with [acceptRanges]: for a leading byte, the
    width of the character and the range of its second byte. *)
Definition leading (b0 : N) : option (nat * N * N) :=
  if inRange 194 223 b0 then Some (2, 128%N, 191%N)
  else if (b0 =? 224)%N then Some (3, 160%N, 191%N)
  else if inRange 225 236 b0 then Some (3, 128%N, 191%N)
  else if (b0 =? 237)%N then Some (3, 128%N, 159%N)
  else if inRange 238 239 b0 then Some (3, 128%N, 191%N)
  else if (b0 =? 240)%N then Some (4, 144%N, 191%N)
  else if inRange 241 243 b0 then Some (4, 128%N, 191%N)
  else if (b0 =? 244)%N then Some (4, 128%N, 143%N)
  else None.

(** The byte of [s] at offset [i], [0] past the end. *)
Definition byteAt (s : string) (i : nat) : N :=
  match String.get i s with
  | Some c => N_of_ascii c
  | None => 0%N
  end.

Definition decodeRune (s : string) : N * nat :=
  let n := String.length s in
  if (n <? 1)%nat then (RuneError, 0)
  else
    let s0 := byteAt s 0 in
    if (s0 <? 128)%N then (s0, 1)
    else
      match leading s0 with
      | None => (RuneError, 1)
      | Some (sz, lo, hi) =>
          if (n <? sz)%nat then (RuneError, 1)
          else
            let s1 := byteAt s 1 in
            if negb (inRange lo hi s1) then (RuneError, 1)
            else if (sz <=? 2)%nat
            then (((s0 mod 32) * 64 + s1 mod 64)%N, 2)
            else
              let s2 := byteAt s 2 in
              if negb (inRange 128 191 s2) then (RuneError, 1)
              else if (sz <=? 3)%nat
              then (((s0 mod 16) * 4096 + (s1 mod 64) * 64 + s2 mod 64)%N,
                    3)
              else
                let s3 := byteAt s 3 in
                if negb (inRange 128 191 s3) then (RuneError, 1)
                else (((s0 mod 8) * 262144 + (s1 mod 64) * 4096
                       + (s2 mod 64) * 64 + s3 mod 64)%N, 4)
      end.

(** [s[n:]] *)
Fixpoint skip (n : nat) (s : string) : string :=
  match n, s with
  | S n', String _ s' => skip n' s'
  | _, _ => s
  end.

(** *** [filepath.Match]

    The matcher of Go's [path/filepath]: the pattern is cut into
    chunks at the stars outside brackets, every chunk is matched at the
    leftmost place the star before it allows, and a star never crosses
    a separator.  A question mark and a character class consume one
    character of the name, the rest goes byte by byte.  Callers in this
    repository drop the error, so a malformed pattern simply does not
    match. *)

(** [s] without its first byte, when that byte is [c]. *)
Definition cut (c : ascii) (s : string) : option string :=
  match s with
  | EmptyString => None
  | String d s' => if Ascii.eqb d c then Some s' else None
  end.

Fixpoint stripStars (pattern : string) : bool * string :=
  match pattern with
  | EmptyString => (false, pattern)
  | String c pattern' =>
      if Ascii.eqb c "*" then (true, snd (stripStars pattern'))
      else (false, pattern)
  end.

Definition consFst (c : ascii) (p : string * string) : string * string :=
  (String c (fst p), snd p).

(** The chunk up to the next star outside a bracket, and the rest. *)
Fixpoint scanBody (pattern : string) (inrange : bool) : string * string :=
  match pattern with
  | EmptyString => (EmptyString, EmptyString)
  | String c pattern' =>
      if Ascii.eqb c "\" then
        match pattern' with
        | EmptyString => (String c EmptyString, EmptyString)
        | String d pattern'' =>
            consFst c (consFst d (scanBody pattern'' inrange))
        end
      else if Ascii.eqb c "[" then consFst c (scanBody pattern' true)
      else if Ascii.eqb c "]" then consFst c (scanBody pattern' false)
      else if Ascii.eqb c "*" then
        if inrange then consFst c (scanBody pattern' inrange)
        else (EmptyString, pattern)
      else consFst c (scanBody pattern' inrange)
  end.

Definition scanChunk (pattern : string) : bool * string * string :=
  let (star, p) := stripStars pattern in
  let (chunk, rest) := scanBody p false in
  (star, chunk, rest).

(** [getEsc]: one possibly escaped character of a character class;
    [None] is [ErrBadPattern]. *)
Definition getEsc (chunk : string) : option (N * string) :=
  match chunk with
  | EmptyString => None
  | String c chunk' =>
      if Ascii.eqb c "-" || Ascii.eqb c "]" then None
      else
        let unesc := if Ascii.eqb c "\" then chunk' else chunk in
        if String.eqb unesc EmptyString then None
        else
          let (r, n) := decodeRune unesc in
          let nchunk := skip n unesc in
          if (r =? RuneError)%N && (n =? 1)%nat then None
          else if String.eqb nchunk EmptyString then None
          else Some (r, nchunk)
  end.

(** The ranges of a character class up to its closing bracket:
    whether [r] is in one of them, and the chunk after the bracket. *)
Fixpoint classRanges (fuel : nat) (chunk : string) (r : N)
    (matched : bool) (nrange : nat) : option (bool * string) :=
  match fuel with
  | O => None
  | S fuel' =>
      match cut "]" chunk with
      | Some chunk' =>
          if (0 <? nrange)%nat then Some (matched, chunk')
          else None
      | None =>
          match getEsc chunk with
          | None => None
          | Some (lo, chunk1) =>
              let range :=
                match cut "-" chunk1 with
                | Some chunk2 => getEsc chunk2
                | None => Some (lo, chunk1)
                end in
              match range with
              | None => None
              | Some (hi, chunk3) =>
                  classRanges fuel' chunk3 r
                    (matched || ((lo <=? r)%N && (r <=? hi)%N)) (S nrange)
              end
          end
      end
  end.

Inductive chunkResult : Type :=
| BadPattern
| NoMatch
| Rest (s : string).

Definition tail (s : string) : string :=
  match s with
  | EmptyString => EmptyString
  | String _ s' => s'
  end.

Definition headIs (s : string) (p : ascii -> bool) : bool :=
  match s with
  | EmptyString => false
  | String c _ => p c
  end.

(** [matchChunk]: does [chunk] match a prefix of [s]?  After a failure
    the chunk is still read to its end, to reject a malformed one. *)
Fixpoint matchChunkLoop (fuel : nat) (chunk s : string) (failed : bool)
  : chunkResult :=
  match fuel with
  | O => BadPattern
  | S fuel' =>
      match chunk with
      | EmptyString => if failed then NoMatch else Rest s
      | String c chunk' =>
          let failed := failed || String.eqb s EmptyString in
          if Ascii.eqb c "[" then
            let r := if failed then 0%N else fst (decodeRune s) in
            let s := if failed then s else skip (snd (decodeRune s)) s in
            let (negated, chunk1) :=
              match cut "^" chunk' with
              | Some chunk1 => (true, chunk1)
              | None => (false, chunk')
              end in
            match classRanges fuel' chunk1 r false 0 with
            | None => BadPattern
            | Some (matched, chunk2) =>
                matchChunkLoop fuel' chunk2 s
                  (failed || Bool.eqb matched negated)
            end
          else if Ascii.eqb c "?" then
            matchChunkLoop fuel' chunk'
              (if failed then s else skip (snd (decodeRune s)) s)
              (failed || headIs s isSep)
          else if Ascii.eqb c "\" then
            match chunk' with
            | EmptyString => BadPattern
            | String d chunk'' =>
                matchChunkLoop fuel' chunk''
                  (if failed then s else tail s)
                  (failed || negb (headIs s (Ascii.eqb d)))
            end
          else
            matchChunkLoop fuel' chunk'
              (if failed then s else tail s)
              (failed || negb (headIs s (Ascii.eqb c)))
      end
  end.

Definition matchChunk (chunk s : string) : chunkResult :=
  matchChunkLoop (S (String.length chunk)) chunk s false.

(** The search after a star: the chunk is tried after skipping one
    more byte each time, never skipping a separator. *)
Fixpoint starSearch (chunk : string) (lastChunk : bool) (name : string)
  : option string :=
  match name with
  | EmptyString => None
  | String c name' =>
      if isSep c then None
      else match matchChunk chunk name' with
           | Rest t =>
               if lastChunk && (0 <? String.length t)%nat
               then starSearch chunk lastChunk name'
               else Some t
           | BadPattern => None
           | NoMatch => starSearch chunk lastChunk name'
           end
  end.

Fixpoint matchLoop (fuel : nat) (pattern name : string) : bool :=
  match fuel with
  | O => false
  | S fuel' =>
      if String.eqb pattern EmptyString then String.eqb name EmptyString
      else
        let '(star, chunk, rest) := scanChunk pattern in
        let lastChunk := String.eqb rest EmptyString in
        if star && String.eqb chunk EmptyString
        then negb (GoStrings.Contains name "/")
        else
          let search :=
            if star then
              match starSearch chunk lastChunk name with
              | Some t => matchLoop fuel' rest t
              | None => false
              end
            else false in
          match matchChunk chunk name with
          | Rest t =>
              if String.eqb t EmptyString || negb lastChunk
              then matchLoop fuel' rest t
              else search
          | BadPattern => false
          | NoMatch => search
          end
  end.

(** [matched, _ := filepath.Match(pattern, name)]. *)
Definition Match (pattern name : string) : bool :=
  matchLoop (S (String.length pattern)) pattern name.

End GoFilepath.

(** ** Package [policy] *)

Module policy.

Record Mode := {
  ReadOnly : bool;
  Network : bool;
  MaxRuntimeSec : Z;
  MaxTokens : Z;
}.

Record ModelConfig := {
  PrimaryAlias : string;
  SecondaryAlias : string;
}.

Record Limits := {
  MaxFiles : Z;
  MaxFileBytes : Z;
  MaxPatchBytes : Z;
  MaxIterations : Z;
}.

Record Allowlist := {
  Commands : list (list string);
}.

Record PatchConfig := {
  RequireTests : bool;
  CommitStyle : string;
  Signoff : bool;
}.

Record SecurityConfig := {
  DenyPaths : list string;
  DenyGlobs : list string;
}.

Record LoggingConfig := {
  PIIRedaction : bool;
}.

Record Policy := {
  Version : string;
  Modes : gmap string Mode;
  Models : ModelConfig;
  Limits_ : Limits;
  Allowlist_ : Allowlist;
  Patch : PatchConfig;
  Security : SecurityConfig;
  Logging : LoggingConfig;
}.

(** The zero value of [Mode], read from [Modes] at a missing key. *)
Definition zeroMode : Mode :=
  {| ReadOnly := false; Network := false; MaxRuntimeSec := 0; MaxTokens := 0 |}.

Definition DefaultPolicy : Policy :=
  {| Version := "1";
     Modes :=
       <["default" := {| ReadOnly := true; Network := false;
                         MaxRuntimeSec := 300; MaxTokens := 200000 |}]>
       (<["apply" := {| ReadOnly := false; Network := false;
                        MaxRuntimeSec := 300; MaxTokens := 200000 |}]> ∅);
     Models := {| PrimaryAlias := "gpt-4";
                  SecondaryAlias := "claude-3-sonnet" |};
     Limits_ := {| MaxFiles := 4000; MaxFileBytes := 800000;
                   MaxPatchBytes := 200000; MaxIterations := 4 |};
     Allowlist_ :=
       {| Commands :=
            [ ["go"; "build"];
              ["go"; "test"; "-cover"];
              ["cargo"; "build"];
              ["cargo"; "llvm-cov"];
              ["semgrep"; "--config"; "auto"];
              ["codeql"; "database"; "analyze"];
              ["gh"; "pr"; "create"] ] |};
     Patch := {| RequireTests := true; CommitStyle := "conventional";
                 Signoff := true |};
     Security :=
       {| DenyPaths := ["/.sentinel"; "/AGENT.md"; "/.git"; "/etc"; "/usr"];
          DenyGlobs := ["**/.sentinel/**"; "**/.git/**"] |};
     Logging := {| PIIRedaction := true |} |}.

(** [Validate]: [None] is [nil]. *)
Definition Validate (p : Policy) : option string :=
  if (List.length (Commands (Allowlist_ p)) =? 0)%nat then
    Some "no allowlisted commands"
  else if (MaxIterations (Limits_ p) <=? 0)%Z then
    Some "max_iterations must be positive"
  else if (MaxFiles (Limits_ p) <=? 0)%Z then
    Some "max_files must be positive"
  else None.

Fixpoint anyPrefix (path : string) (denyPaths : list string) : bool :=
  match denyPaths with
  | [] => false
  | denyPath :: rest =>
      if GoStrings.HasPrefix path denyPath then true
      else anyPrefix path rest
  end.

Fixpoint anyGlob (path : string) (denyGlobs : list string) : bool :=
  match denyGlobs with
  | [] => false
  | denyGlob :: rest =>
      if GoFilepath.Match denyGlob path then true
      else anyGlob path rest
  end.

Definition IsPathAllowed (p : Policy) (path : string) : bool :=
  if anyPrefix path (DenyPaths (Security p)) then false
  else if anyGlob path (DenyGlobs (Security p)) then false
  else true.

(** [allowed[i]] and [args[i-1]]; under the test on the lengths every
    index read by the matcher is in range. *)
Definition at_ (l : list string) (i : nat) : string :=
  default EmptyString (l !! i).

(** [for i := i; i < len(allowed); i++], with [n = len(allowed) - i]
    iterations left; the result is [matches]. *)
Fixpoint argsLoop (allowed args : list string) (i n : nat) : bool :=
  match n with
  | O => true
  | S n' =>
      if negb (String.eqb (at_ allowed i) (at_ args (i - 1))) then false
      else argsLoop allowed args (S i) n'
  end.

Fixpoint commandsLoop (commands : list (list string)) (cmd : string)
    (args : list string) : bool :=
  match commands with
  | [] => false
  | allowed :: rest =>
      if (List.length allowed =? List.length args + 1)%nat
         && String.eqb (at_ allowed 0) cmd
      then
        if argsLoop allowed args 1 (List.length allowed - 1) then true
        else commandsLoop rest cmd args
      else commandsLoop rest cmd args
  end.

Definition IsCommandAllowed (p : Policy) (cmd : string)
    (args : list string) : bool :=
  commandsLoop (Commands (Allowlist_ p)) cmd args.

End policy.

(** ** Package [logging]: records and redaction *)

Module logging.

(** The values stored under [map[string]interface{}]: those the
    logger stores itself and, for the details a caller passes, any
    other value, of which the logger only sees whether [json.Marshal]
    encodes it (it does not encode a channel, a function or a NaN). *)
Inductive MetaValue : Type :=
| MInt (n : Z)
| MBool (b : bool)
| MString (s : string)
| MStrings (l : list string)
| MOther (encodes : bool).

Record LogEntry := {
  Timestamp : Z;
  Step : string;
  Event : string;
  Tool : string;
  Args : list string;
  Duration : Z;
  Status : string;
  Error : string;
  Metadata : gmap string MetaValue;
}.

(** The [file] of the logger is the audit sink of the world below. *)
Record AuditLogger := {
  redact : bool;
}.

Definition sensitive : list string :=
  ["key"; "token"; "secret"; "password"; "auth"].

Fixpoint anyContains (lower : string) (patterns : list string) : bool :=
  match patterns with
  | [] => false
  | pattern :: rest =>
      if GoStrings.Contains lower pattern then true
      else anyContains lower rest
  end.

Definition containsSensitivePattern (mapLower : string -> string)
    (s : string) : bool :=
  anyContains (GoStrings.ToLower mapLower s) sensitive.

Definition between (lo hi r : ascii) : bool :=
  (nat_of_ascii lo <=? nat_of_ascii r)%nat
  && (nat_of_ascii r <=? nat_of_ascii hi)%nat.

(** [for _, r := range s]: a byte below 128 is a rune of its own and
    no byte of a longer rune is below 128, so the tests on letters and
    digits see the same characters byte by byte. *)
Fixpoint runesLoop (s : string) (hasAlpha hasNum : bool) : bool * bool :=
  match s with
  | EmptyString => (hasAlpha, hasNum)
  | String r s' =>
      let hasAlpha :=
        if between "a" "z" r || between "A" "Z" r then true else hasAlpha in
      let hasNum := if between "0" "9" r then true else hasNum in
      runesLoop s' hasAlpha hasNum
  end.

Definition looksLikeToken (s : string) : bool :=
  if (String.length s <? 20)%nat then false
  else let (hasAlpha, hasNum) := runesLoop s false false in
       hasAlpha && hasNum.

Definition redactArg (mapLower : string -> string) (arg : string)
  : string :=
  if (20 <? String.length arg)%nat
     && (containsSensitivePattern mapLower arg || looksLikeToken arg)
  then "[REDACTED]"
  else arg.

Definition maybeRedactArgs (mapLower : string -> string) (a : AuditLogger)
    (args : list string) : list string :=
  if negb (redact a) then args
  else map (redactArg mapLower) args.

Definition maybeRedactError (a : AuditLogger) (err : string) : string :=
  if negb (redact a) then err
  else if (100 <? String.length err)%nat then "[REDACTED ERROR]"
  else err.

End logging.

(** ** The world outside the process

    What the packages reach through [time], [os] and [os/exec] is read
    from a [Host]; what they can change is a [World]: the clock
    readings consumed, the commands handed to [os/exec], the files and
    the lines of the audit sink.  A command handed to [os/exec] starts
    at most one process: none when the program is not found or the
    deadline has already passed, which the outcome then reports as
    its error. *)

Module sys.

(** What [exec.Cmd.CombinedOutput] gives back: the captured output,
    the error, the exit code when there is a [ProcessState], and what
    the process, if one was started, did to the files. *)
Record ExecOutcome := {
  output : string;
  execErr : option string;
  processState : option Z;
  effect : gmap string string -> gmap string string;
}.

Record Host := {
  (** the successive readings of the monotonic clock, in ns *)
  clock : nat -> Z;
  (** [os.Getwd] *)
  getwd : option string;
  (** [exec.LookPath] finds the program *)
  lookPath : string -> bool;
  (** the outcome of the n-th command handed to [os/exec], by its
      command line and its deadline *)
  run : nat -> string -> list string -> Z -> ExecOutcome;
  (** [os.OpenFile] of the audit log: the error, if any *)
  openLog : string -> option string;
  (** [strings.Map(unicode.ToLower, s)] on text that is not ASCII, by
      the case tables the binary was built with *)
  mapLower : string -> string;
}.

Record World := {
  ticks : nat;
  procs : list (string * list string);
  files : gmap string string;
  audit : list logging.LogEntry;
}.

(** A Go result [(value, error)] with exactly one of the two set. *)
Inductive result (A : Type) : Type :=
| Ok (a : A)
| Err (e : string).
Arguments Ok {A} a.
Arguments Err {A} e.

Definition M (A : Type) : Type := World -> A * World.

Definition ret {A} (a : A) : M A := fun w => (a, w).

Definition bind {A B} (m : M A) (k : A -> M B) : M B :=
  fun w => let (a, w') := m w in k a w'.

(** [time.Now()] *)
Definition now (h : Host) : M Z :=
  fun w => (clock h (ticks w),
            {| ticks := S (ticks w); procs := procs w;
               files := files w; audit := audit w |}).

(** [time.Since(start)] *)
Definition since (h : Host) (start : Z) : M Z :=
  bind (now h) (fun t => ret (t - start)%Z).

(** [exec.CommandContext(ctx, cmd, args...).CombinedOutput()] under a
    deadline [timeout] from now. *)
Definition combinedOutput (h : Host) (cmd : string) (args : list string)
    (timeout : Z) : M ExecOutcome :=
  fun w =>
    let o := run h (List.length (procs w)) cmd args timeout in
    (o, {| ticks := ticks w; procs := procs w ++ [(cmd, args)];
           files := effect o (files w); audit := audit w |}).

(** One line appended to the audit sink. *)
Definition append (entry : logging.LogEntry) : M unit :=
  fun w => (tt, {| ticks := ticks w; procs := procs w;
                   files := files w; audit := audit w ++ [entry] |}).

End sys.

Notation "'do' x <- m ; k" := (sys.bind m (fun x => k))
  (at level 10, x name, m at level 100, k at level 200,
   format "'[v' 'do'  x  <-  m ; '/' k ']'").

(** ** Package [tools] *)

Module tools.

Record Runner := {
  Allow : list (list string);
  Timeout : Z;
}.

Record RunResult := {
  Stdout : string;
  Stderr : string;
  ExitCode : Z;
  Duration : Z;
  Error : option string;
}.

Definition NewRunner (allowlist : list (list string)) (timeout : Z)
  : Runner :=
  {| Allow := allowlist; Timeout := timeout |}.

(** [allowed[i]] and [args[i-1]]; every index read by [allowed] is in
    range, see [argsLoop_reads_in_range]. *)
Definition at_ (l : list string) (i : nat) : string :=
  default EmptyString (l !! i).

(** The inner loop of [allowed], [n = len(allowed) - i] iterations
    from index [i]; the result is [matches]. *)
Fixpoint matchesLoop (allowed args : list string) (i n : nat) : bool :=
  match n with
  | O => true
  | S n' =>
      if negb (String.eqb (at_ allowed i) (at_ args (i - 1))) then false
      else matchesLoop allowed args (S i) n'
  end.

Fixpoint allowLoop (allow : list (list string)) (cmd : string)
    (args : list string) : bool :=
  match allow with
  | [] => false
  | allowed :: rest =>
      if (List.length allowed =? List.length args + 1)%nat
         && String.eqb (at_ allowed 0) cmd
      then
        if matchesLoop allowed args 1 (List.length allowed - 1) then true
        else allowLoop rest cmd args
      else allowLoop rest cmd args
  end.

Definition allowed (r : Runner) (cmd : string) (args : list string)
  : bool :=
  allowLoop (Allow r) cmd args.

Definition Run (h : sys.Host) (r : Runner) (cmd : string)
    (args : list string) : sys.M RunResult :=
  do start <- sys.now h ;
  if negb (allowed r cmd args) then
    do d <- sys.since h start ;
    sys.ret {| Stdout := EmptyString; Stderr := EmptyString;
               ExitCode := 0; Duration := d;
               Error := Some "command not allowlisted" |}
  else
    do o <- sys.combinedOutput h cmd args (Timeout r) ;
    do d <- sys.since h start ;
    sys.ret {| Stdout := sys.output o; Stderr := EmptyString;
               ExitCode := default 0%Z (sys.processState o);
               Duration := d;
               Error := sys.execErr o |}.

Definition Build (h : sys.Host) (r : Runner) (target : string)
  : sys.M RunResult :=
  if String.eqb target EmptyString then
    if sys.lookPath h "go" then Run h r "go" ["build"; "./..."]
    else if sys.lookPath h "cargo" then Run h r "cargo" ["build"]
    else sys.ret {| Stdout := EmptyString; Stderr := EmptyString;
                    ExitCode := 0; Duration := 0;
                    Error := Some "no supported build system found" |}
  else Run h r "go" ["build"; target].

Definition Test (h : sys.Host) (r : Runner) (pattern : string)
  : sys.M RunResult :=
  let args := ["test"] in
  let args :=
    if negb (String.eqb pattern EmptyString)
    then args ++ ["-run"; pattern] else args in
  let args := args ++ ["-cover"; "./..."] in
  Run h r "go" args.

Definition Coverage (h : sys.Host) (r : Runner) : sys.M RunResult :=
  Run h r "go" ["test"; "-coverprofile=coverage.out"; "./..."].

(** *** The patcher *)

Record Patcher := {
  Workspace : string;
  DenyPaths : list string;
  DenyGlobs : list string;
}.

Definition NewPatcher (workspace : string)
    (denyPaths denyGlobs : list string) : Patcher :=
  {| Workspace := workspace; DenyPaths := denyPaths;
     DenyGlobs := denyGlobs |}.

Record ApplyResult := {
  Applied : bool;
  Files : list string;
  ApplyError : string;
}.

Record Hunk := {
  OldStart : Z;
  OldCount : Z;
  NewStart : Z;
  NewCount : Z;
  Lines : list string;
}.

Record FilePatch := {
  File : string;
  Hunks : list Hunk;
}.

Fixpoint denyPathsLoop (cleanPath : string) (denyPaths : list string)
  : bool :=
  match denyPaths with
  | [] => false
  | denyPath :: rest =>
      if GoStrings.HasPrefix cleanPath denyPath then true
      else denyPathsLoop cleanPath rest
  end.

Fixpoint denyGlobsLoop (cleanPath : string) (denyGlobs : list string)
  : bool :=
  match denyGlobs with
  | [] => false
  | denyGlob :: rest =>
      if GoFilepath.Match denyGlob cleanPath then true
      else denyGlobsLoop cleanPath rest
  end.

Definition isPathAllowed (h : sys.Host) (p : Patcher) (path : string)
  : bool :=
  let cleanPath := GoFilepath.Clean path in
  if denyPathsLoop cleanPath (DenyPaths p) then false
  else if denyGlobsLoop cleanPath (DenyGlobs p) then false
  else
    match GoFilepath.Abs (sys.getwd h) cleanPath with
    | None => false
    | Some absPath =>
        match GoFilepath.Abs (sys.getwd h) (Workspace p) with
        | None => false
        | Some absWorkspace => GoStrings.HasPrefix absPath absWorkspace
        end
    end.

(** The two placeholders of the package: both report that the work is
    not implemented and touch nothing. *)
Definition applySinglePatch (p : Patcher) (patch : FilePatch)
  : sys.M (option string) :=
  sys.ret (Some "patch application not implemented").

Definition parseUnifiedDiff (diff : string)
  : list FilePatch * option string :=
  ([], Some "diff parsing not implemented").

(** The loop of [ApplyPatch] over the parsed patches. *)
Fixpoint patchLoop (h : sys.Host) (p : Patcher) (patches : list FilePatch)
    (appliedFiles errors : list string)
  : sys.M (list string * list string) :=
  match patches with
  | [] => sys.ret (appliedFiles, errors)
  | patch :: rest =>
      if negb (isPathAllowed h p (File patch)) then
        patchLoop h p rest appliedFiles
          (errors ++ ["path not allowed: " +:+ File patch])
      else
        do err <- applySinglePatch p patch ;
        match err with
        | Some e =>
            patchLoop h p rest appliedFiles
              (errors ++ ["failed to apply patch to " +:+ File patch
                          +:+ ": " +:+ e])
        | None =>
            patchLoop h p rest (appliedFiles ++ [File patch]) errors
        end
  end.

Definition ApplyPatch (h : sys.Host) (p : Patcher) (diff : string)
  : sys.M ApplyResult :=
  let (patches, err) := parseUnifiedDiff diff in
  match err with
  | Some e =>
      sys.ret {| Applied := false; Files := [];
                 ApplyError := "failed to parse diff: " +:+ e |}
  | None =>
      do r <- patchLoop h p patches [] [] ;
      let (appliedFiles, errors) := r in
      let success := (List.length errors =? 0)%nat in
      let errorMsg :=
        if (0 <? List.length errors)%nat then GoStrings.Join errors "; "
        else EmptyString in
      sys.ret {| Applied := success; Files := appliedFiles;
                 ApplyError := errorMsg |}
  end.

End tools.

(** ** Package [logging]: the writing methods of [AuditLogger] *)

Module AuditLogger.
Import logging.

(** [time.Duration.Milliseconds] *)
Definition Milliseconds (d : Z) : Z := Z.quot d 1000000.

(** [NewAuditLogger]: the log file is opened once; an empty path
    selects the standard output. *)
Definition NewAuditLogger (h : sys.Host) (logPath : string)
    (redactPII : bool) : sys.result AuditLogger :=
  if negb (String.eqb logPath EmptyString) then
    match sys.openLog h logPath with
    | Some err => sys.Err err
    | None => sys.Ok {| redact := redactPII |}
    end
  else sys.Ok {| redact := redactPII |}.

(** [json.Marshal(entry)] succeeds: every value of the metadata is
    encoded.  The other fields are strings, integers and a time stamp
    read from the clock, which are always encoded. *)
Definition encodable (v : MetaValue) : bool :=
  match v with
  | MOther encodes => encodes
  | _ => true
  end.

Definition marshals (entry : LogEntry) : bool :=
  forallb encodable (map snd (map_to_list (Metadata entry))).

(** [writeEntry]: the entry is marshalled and printed as one line; if
    it cannot be marshalled, a message goes to the standard error and
    nothing is written to the log. *)
Definition writeEntry (a : AuditLogger) (entry : LogEntry) : sys.M unit :=
  if marshals entry then sys.append entry else sys.ret tt.

Definition withError (entry : LogEntry) (e : string) (status : string)
  : LogEntry :=
  {| Timestamp := Timestamp entry; Step := Step entry;
     Event := Event entry; Tool := Tool entry; Args := Args entry;
     Duration := Duration entry; Status := status; Error := e;
     Metadata := Metadata entry |}.

Definition LogToolCall (h : sys.Host) (a : AuditLogger) (step tool : string)
    (args : list string) (duration : Z) (status : string)
    (err : option string) : sys.M unit :=
  do ts <- sys.now h ;
  let entry :=
    {| Timestamp := ts; Step := step; Event := "tool.run"; Tool := tool;
       Args := maybeRedactArgs (sys.mapLower h) a args;
       Duration := Milliseconds duration; Status := status;
       Error := EmptyString; Metadata := ∅ |} in
  let entry :=
    match err with
    | Some e => withError entry (maybeRedactError a e) status
    | None => entry
    end in
  writeEntry a entry.

Definition LogLLMCall (h : sys.Host) (a : AuditLogger) (step model : string)
    (tokens : Z) (duration : Z) (status : string) (err : option string)
  : sys.M unit :=
  do ts <- sys.now h ;
  let entry :=
    {| Timestamp := ts; Step := step; Event := "llm.call"; Tool := model;
       Args := []; Duration := Milliseconds duration; Status := status;
       Error := EmptyString;
       Metadata := <["tokens" := MInt tokens]> ∅ |} in
  let entry :=
    match err with
    | Some e => withError entry (maybeRedactError a e) status
    | None => entry
    end in
  writeEntry a entry.

Definition LogScanResult (h : sys.Host) (a : AuditLogger) (step : string)
    (findings : nat) (duration : Z) : sys.M unit :=
  do ts <- sys.now h ;
  writeEntry a
    {| Timestamp := ts; Step := step; Event := "scan.result";
       Tool := EmptyString; Args := [];
       Duration := Milliseconds duration; Status := "ok";
       Error := EmptyString;
       Metadata := <["findings" := MInt (Z.of_nat findings)]> ∅ |}.

Definition LogPatchApplication (h : sys.Host) (a : AuditLogger)
    (step : string) (files : list string) (success : bool)
    (err : option string) : sys.M unit :=
  do ts <- sys.now h ;
  let entry :=
    {| Timestamp := ts; Step := step; Event := "patch.apply";
       Tool := EmptyString; Args := []; Duration := 0; Status := "ok";
       Error := EmptyString;
       Metadata :=
         <["files" := MStrings files]> (<["success" := MBool success]> ∅) |} in
  let entry :=
    match err with
    | Some e => withError entry (maybeRedactError a e) "error"
    | None => entry
    end in
  writeEntry a entry.

Definition LogPolicyViolation (h : sys.Host) (a : AuditLogger)
    (step violation : string) (details : gmap string MetaValue)
  : sys.M unit :=
  do ts <- sys.now h ;
  writeEntry a
    {| Timestamp := ts; Step := step; Event := "policy.violation";
       Tool := EmptyString; Args := []; Duration := 0; Status := "error";
       Error := violation; Metadata := details |}.

End AuditLogger.

(** ** Package [security] *)

Module security.

Record Finding := {
  RuleID : string;
  Message : string;
  Severity : string;
  File : string;
  Line : Z;
  Column : Z;
  Description : string;
  Confidence : string;
}.

Record ScanResult := {
  Tool : string;
  Findings : list Finding;
  Duration : Z;
  Error : string;
}.

Record Scanner := {
  runner : tools.Runner;
  workspace : string;
}.

Definition NewScanner (runner : tools.Runner) (workspace : string)
  : Scanner :=
  {| runner := runner; workspace := workspace |}.

(** What the scanner needs from [encoding/json] and [path/filepath]:
    the decoding of the analyzer's output into its result records,
    [filepath.Rel] with its error dropped, and the encoding of the
    SARIF document. *)
Record SarifResult := {
  ruleId : string;
  text : string;
  level : string;
  uri : string;
  startLine : Z;
  startColumn : Z;
}.

Record SarifRun := {
  driverName : string;
  driverVersion : string;
  results : list SarifResult;
}.

Record Codec := {
  unmarshalSemgrep : string -> sys.result (list Finding);
  rel : string -> string -> string;
  marshalSarif : list SarifRun -> sys.result string;
}.

(** One decoded record ([r], its fields named as in [Finding]) to a
    finding of ours. *)
Definition convert (mapLower : string -> string) (c : Codec) (s : Scanner)
    (r : Finding) : Finding :=
  let relPath := rel c (workspace s) (File r) in
  let relPath :=
    if String.eqb relPath "." then GoFilepath.Base (File r) else relPath in
  {| RuleID := RuleID r; Message := Message r;
     Severity := GoStrings.ToLower mapLower (Severity r); File := relPath;
     Line := Line r; Column := Column r; Description := Description r;
     Confidence := GoStrings.ToLower mapLower (Confidence r) |}.

Definition runSemgrep (h : sys.Host) (c : Codec) (s : Scanner)
  : sys.M ScanResult :=
  do start <- sys.now h ;
  if negb (sys.lookPath h "semgrep") then
    do d <- sys.since h start ;
    sys.ret {| Tool := "semgrep"; Findings := []; Duration := d;
               Error := "semgrep not found in PATH" |}
  else
    do result <- tools.Run h (runner s) "semgrep"
                   ["--config"; "auto"; "--json"; workspace s] ;
    match tools.Error result with
    | Some e =>
        do d <- sys.since h start ;
        sys.ret {| Tool := "semgrep"; Findings := []; Duration := d;
                   Error := e |}
    | None =>
        match unmarshalSemgrep c (tools.Stdout result) with
        | sys.Err e =>
            do d <- sys.since h start ;
            sys.ret {| Tool := "semgrep"; Findings := []; Duration := d;
                       Error := "failed to parse semgrep output: " +:+ e |}
        | sys.Ok records =>
            do d <- sys.since h start ;
            sys.ret {| Tool := "semgrep";
                       Findings :=
                         map (convert (sys.mapLower h) c s) records;
                       Duration := d; Error := EmptyString |}
        end
    end.

Definition runCodeQL (h : sys.Host) (s : Scanner) : sys.M ScanResult :=
  do start <- sys.now h ;
  if negb (sys.lookPath h "codeql") then
    do d <- sys.since h start ;
    sys.ret {| Tool := "codeql"; Findings := []; Duration := d;
               Error := "codeql not found in PATH" |}
  else
    do d <- sys.since h start ;
    sys.ret {| Tool := "codeql"; Findings := []; Duration := d;
               Error := "CodeQL integration not fully implemented" |}.

(** [Scan]: both runs always give a result, and the error is [nil]. *)
Definition Scan (h : sys.Host) (c : Codec) (s : Scanner)
  : sys.M (sys.result (list ScanResult)) :=
  do semgrepResult <- runSemgrep h c s ;
  do codeqlResult <- runCodeQL h s ;
  sys.ret (sys.Ok [semgrepResult; codeqlResult]).

Definition severityToLevel (mapLower : string -> string)
    (severity : string) : string :=
  let l := GoStrings.ToLower mapLower severity in
  if String.eqb l "error" || String.eqb l "critical" || String.eqb l "high"
  then "error"
  else if String.eqb l "warning" || String.eqb l "medium" then "warning"
  else if String.eqb l "info" || String.eqb l "low" then "note"
  else "note".

Definition sarifResult (mapLower : string -> string) (finding : Finding)
  : SarifResult :=
  {| ruleId := RuleID finding;
     text := if negb (String.eqb (Description finding) EmptyString)
             then Description finding else Message finding;
     level := severityToLevel mapLower (Severity finding);
     uri := File finding;
     startLine := Line finding;
     startColumn := Column finding |}.

Fixpoint sarifRuns (mapLower : string -> string)
    (results : list ScanResult) : list SarifRun :=
  match results with
  | [] => []
  | result :: rest =>
      if negb (String.eqb (Error result) EmptyString)
      then sarifRuns mapLower rest
      else {| driverName := Tool result; driverVersion := "1.0.0";
              results := map (sarifResult mapLower) (Findings result) |}
           :: sarifRuns mapLower rest
  end.

Definition GenerateSARIF (mapLower : string -> string) (c : Codec)
    (results : list ScanResult) : sys.result string :=
  marshalSarif c (sarifRuns mapLower results).

End security.

(** ** Package [deadcode] *)

Module deadcode.

Record Symbol := {
  Name : string;
  Kind : string;
  Package : string;
  File : string;
  Line : Z;
  Exported : bool;
  References : Z;
  LastTouch : string;
  Risk : string;
  Description : string;
}.

Record DeadCodeResult := {
  Symbols : list Symbol;
  Duration : Z;
  Error : string;
}.

Record Detector := {
  runner : tools.Runner;
  workspace : string;
}.

Definition NewDetector (runner : tools.Runner) (workspace : string)
  : Detector :=
  {| runner := runner; workspace := workspace |}.

(** What the detector needs from [path/filepath.Walk] and [go/parser]:
    the entries visited under a root (with whether each is a
    directory) and the error that stopped the walk, and the symbols
    [analyzeFile] reads off the syntax tree of a file. *)
Record Source := {
  walk : string -> list (string * bool) * option string;
  analyzeFile : string -> sys.result (list Symbol);
}.

Definition getCoverage (h : sys.Host) (d : Detector)
  : sys.M (sys.result (gmap string Z)) :=
  do result <- tools.Coverage h (runner d) ;
  match tools.Error result with
  | Some e => sys.ret (sys.Err e)
  | None => sys.ret (sys.Ok ∅)
  end.

Definition keepGoFile (entry : string * bool) : bool :=
  let (path, isDir) := entry in
  negb isDir && GoStrings.HasSuffix path ".go"
  && negb (GoStrings.Contains path "_test.go")
  && negb (GoStrings.Contains path "/vendor/")
  && negb (GoStrings.Contains path "/.git/").

Definition findGoFiles (src : Source) (d : Detector)
  : list string * option string :=
  let (entries, err) := walk src (workspace d) in
  (map fst (filter keepGoFile entries), err).

Fixpoint filterDeadSymbols (symbols : list Symbol) : list Symbol :=
  match symbols with
  | [] => []
  | symbol :: rest =>
      if negb (Exported symbol) && (References symbol =? 0)%Z
      then symbol :: filterDeadSymbols rest
      else filterDeadSymbols rest
  end.

Fixpoint analyzeAll (src : Source) (goFiles : list string) : list Symbol :=
  match goFiles with
  | [] => []
  | file :: rest =>
      match analyzeFile src file with
      | sys.Err _ => analyzeAll src rest
      | sys.Ok fileSymbols => fileSymbols ++ analyzeAll src rest
      end
  end.

(** [Detect]: the error is always [nil]. *)
Definition Detect (h : sys.Host) (src : Source) (d : Detector)
  : sys.M (sys.result DeadCodeResult) :=
  do start <- sys.now h ;
  do coverage <- getCoverage h d ;
  let (goFiles, err) := findGoFiles src d in
  match err with
  | Some e =>
      do t <- sys.since h start ;
      sys.ret (sys.Ok {| Symbols := []; Duration := t;
                         Error := "failed to find Go files: " +:+ e |})
  | None =>
      let deadSymbols := filterDeadSymbols (analyzeAll src goFiles) in
      do t <- sys.since h start ;
      sys.ret (sys.Ok {| Symbols := deadSymbols; Duration := t;
                         Error := EmptyString |})
  end.

(** [calculateRisk]; the kind is not read. *)
Definition commonPatterns : list string :=
  ["init"; "main"; "New"; "Create"; "Build"].

Fixpoint patternsLoop (name : string) (patterns : list string) : bool :=
  match patterns with
  | [] => false
  | pattern :: rest =>
      if GoStrings.Contains name pattern then true
      else patternsLoop name rest
  end.

Definition calculateRisk (name kind : string) (exported : bool) : string :=
  if exported then "high"
  else if patternsLoop name commonPatterns then "medium"
  else "low".

End deadcode.

(** ** Package [engine] *)

Module engine.

Record Options := {
  Repo : string;
  AgentPath : string;
  Policy : policy.Policy;
  LogPath : string;
}.

Record ScanOpts := {
  Security : bool;
  DeadCode : bool;
}.

Record Step := {
  Name : string;
  Why : string;
  BudgetTokens : Z;
  Tools : list string;
  StopAfter : string;
}.

Record Metadata := {
  CreatedAt : Z;
  SuccessCriteria : list string;
  TotalTokens : Z;
}.

Record Plan := {
  Steps : list Step;
  Metadata_ : Metadata;
}.

Record ScanResult := {
  SARIF : string;
  Plan_ : Plan;
  ExitCode : Z;
  Summary : string;
}.

Record ApplyResult := {
  Success : bool;
  Error : string;
  Files : list string;
}.

Record PROptions := {
  Title : string;
  Body : string;
  Draft : bool;
  PlanPath : string;
}.

Record PRResult := {
  URL : string;
}.

Record Engine := {
  options : Options;
  policy_ : policy.Policy;
  runner : tools.Runner;
  scanner : security.Scanner;
  detector : deadcode.Detector;
  auditLogger : logging.AuditLogger;
}.

(** 64-bit signed arithmetic of [time.Duration]. *)
Definition wrap64 (z : Z) : Z :=
  ((z + 2 ^ 63) mod 2 ^ 64 - 2 ^ 63)%Z.

Definition Second : Z := 1000000000.

Definition New (h : sys.Host) (opts : Options) : sys.result Engine :=
  let mode := default policy.zeroMode
                (policy.Modes (Policy opts) !! "default") in
  let runner :=
    tools.NewRunner (policy.Commands (policy.Allowlist_ (Policy opts)))
      (wrap64 (policy.MaxRuntimeSec mode * Second)) in
  match AuditLogger.NewAuditLogger h (LogPath opts)
          (policy.PIIRedaction (policy.Logging (Policy opts))) with
  | sys.Err err => sys.Err err
  | sys.Ok auditLogger =>
      sys.Ok {| options := opts; policy_ := Policy opts; runner := runner;
                scanner := security.NewScanner runner (Repo opts);
                detector := deadcode.NewDetector runner (Repo opts);
                auditLogger := auditLogger |}
  end.

(** [%d] of a length. *)
Definition itoa (n : nat) : string :=
  DecimalString.NilEmpty.string_of_uint (Nat.to_uint n).

Fixpoint countFindings (securityResults : list security.ScanResult)
    (totalFindings : nat) : nat :=
  match securityResults with
  | [] => totalFindings
  | result :: rest =>
      countFindings rest
        (totalFindings + List.length (security.Findings result))
  end.

Definition quote (s : string) : string :=
  String (ascii_of_nat 34) s +:+ String (ascii_of_nat 34) EmptyString.

(** The SARIF skeleton used when no scan produced one:
    an object with the version 2.1.0 and no runs. *)
Definition emptySARIF : string :=
  "{" +:+ quote "version" +:+ ":" +:+ quote "2.1.0" +:+ ","
      +:+ quote "runs" +:+ ":[]}".

(** The state of the locals [sarifData], [exitCode] and [summary]. *)
Record locals := {
  sarifData : option string;
  exitCode : Z;
  summary : string;
}.

(** The block of [Scan] under [if opts.Security]. *)
Definition scanSecurity (h : sys.Host) (c : security.Codec) (e : Engine)
    (start : Z) (l : locals) : sys.M (sys.result locals) :=
  do u <- AuditLogger.LogToolCall h (auditLogger e) "security" "scanner"
            ["security"; "scan"] 0 "started" None ;
  do r <- security.Scan h c (scanner e) ;
  match r with
  | sys.Err err =>
      do d <- sys.since h start ;
      do u <- AuditLogger.LogToolCall h (auditLogger e) "security"
                "scanner" ["security"; "scan"] d "error" (Some err) ;
      sys.ret (sys.Err err)
  | sys.Ok securityResults =>
      match security.GenerateSARIF (sys.mapLower h) c securityResults with
      | sys.Err err =>
          do d <- sys.since h start ;
          do u <- AuditLogger.LogToolCall h (auditLogger e) "security"
                    "scanner" ["sarif"; "generate"] d "error" (Some err) ;
          sys.ret (sys.Err err)
      | sys.Ok sarif =>
          let totalFindings := countFindings securityResults 0 in
          do d <- sys.since h start ;
          do u <- AuditLogger.LogScanResult h (auditLogger e) "security"
                    totalFindings d ;
          if (0 <? totalFindings)%nat then
            sys.ret (sys.Ok
              {| sarifData := Some sarif; exitCode := 10;
                 summary := "Found " +:+ itoa totalFindings
                            +:+ " security findings" |})
          else
            sys.ret (sys.Ok
              {| sarifData := Some sarif; exitCode := exitCode l;
                 summary := summary l |})
      end
  end.

(** The block of [Scan] under [if opts.DeadCode]. *)
Definition scanDeadCode (h : sys.Host) (src : deadcode.Source) (e : Engine)
    (start : Z) (l : locals) : sys.M (sys.result locals) :=
  do u <- AuditLogger.LogToolCall h (auditLogger e) "deadcode" "detector"
            ["deadcode"; "detect"] 0 "started" None ;
  do r <- deadcode.Detect h src (detector e) ;
  match r with
  | sys.Err err =>
      do d <- sys.since h start ;
      do u <- AuditLogger.LogToolCall h (auditLogger e) "deadcode"
                "detector" ["deadcode"; "detect"] d "error" (Some err) ;
      sys.ret (sys.Err err)
  | sys.Ok deadCodeResult =>
      let n := List.length (deadcode.Symbols deadCodeResult) in
      do d <- sys.since h start ;
      do u <- AuditLogger.LogScanResult h (auditLogger e) "deadcode" n d ;
      if (0 <? n)%nat then
        sys.ret (sys.Ok
          {| sarifData := sarifData l;
             exitCode := if (exitCode l =? 0)%Z then 11 else exitCode l;
             summary := summary l +:+ "; Found " +:+ itoa n
                        +:+ " dead code symbols" |})
      else sys.ret (sys.Ok l)
  end.

Definition basicPlan (createdAt : Z) : Plan :=
  {| Steps :=
       [ {| Name := "analysis";
            Why := "Analyze codebase for security issues and dead code";
            BudgetTokens := 1000;
            Tools := ["scanner"; "detector"];
            StopAfter := EmptyString |} ];
     Metadata_ :=
       {| CreatedAt := createdAt;
          SuccessCriteria := ["build passes"; "no high/critical findings"];
          TotalTokens := 1000 |} |}.

Definition Scan (h : sys.Host) (c : security.Codec)
    (src : deadcode.Source) (e : Engine) (opts : ScanOpts)
  : sys.M (sys.result ScanResult) :=
  do start <- sys.now h ;
  let l := {| sarifData := None; exitCode := 0;
              summary := "Scan completed successfully" |} in
  do r1 <- (if Security opts then scanSecurity h c e start l
            else sys.ret (sys.Ok l)) ;
  match r1 with
  | sys.Err err => sys.ret (sys.Err err)
  | sys.Ok l =>
      do r2 <- (if DeadCode opts then scanDeadCode h src e start l
                else sys.ret (sys.Ok l)) ;
      match r2 with
      | sys.Err err => sys.ret (sys.Err err)
      | sys.Ok l =>
          do createdAt <- sys.now h ;
          sys.ret (sys.Ok
            {| SARIF := default emptySARIF (sarifData l);
               Plan_ := basicPlan createdAt;
               ExitCode := exitCode l;
               Summary := summary l |})
      end
  end.

(** [Apply]: the body is a placeholder that reports success. *)
Definition Apply (e : Engine) (plan : Plan) (approveLevel : string)
  : sys.M (sys.result ApplyResult) :=
  sys.ret (sys.Ok {| Success := true; Error := EmptyString; Files := [] |}).

(** [CreatePR]: the body is a placeholder that reports a fixed URL. *)
Definition CreatePR (e : Engine) (opts : PROptions)
  : sys.M (sys.result PRResult) :=
  sys.ret (sys.Ok {| URL := "https://github.com/example/repo/pull/123" |}).

End engine.

(** ** Package [policy]: loading a policy file *)

Module policyLoad.

(** What [Load] needs from [os.ReadFile] and [yaml.Unmarshal]: the
    bytes of a file, and the policy a document decodes to. *)
Record Store := {
  readFile : string -> sys.result string;
  unmarshal : string -> sys.result policy.Policy;
}.

Definition Load (st : Store) (path : string) : sys.result policy.Policy :=
  if String.eqb path EmptyString then sys.Ok policy.DefaultPolicy
  else
    match readFile st path with
    | sys.Err err => sys.Err err
    | sys.Ok data =>
        match unmarshal st data with
        | sys.Err err => sys.Err err
        | sys.Ok pol =>
            match policy.Validate pol with
            | Some err => sys.Err err
            | None => sys.Ok pol
            end
        end
    end.

End policyLoad.

(** * Vocabulary of the specification and sample inputs *)

(** The positional reading of an allowlist tuple [[p0, a1..ak]] against
    an invocation: [p0] is the program, [k] is the number of arguments
    and the arguments agree index by index. *)
Definition tupleMatches (t : list string) (cmd : string) (args : list string)
  : Prop :=
  t !! 0 = Some cmd /\
  List.length t = S (List.length args) /\
  forall i, i < List.length args -> t !! S i = args !! i.

(** The named elements of a cleaned path. *)
Definition elements (path : string) : list string :=
  filter (fun e => negb (String.eqb e EmptyString)) (GoFilepath.splitSep path).

Fixpoint startsWith (l root : list string) : bool :=
  match root with
  | [] => true
  | r :: root' =>
      match l with
      | [] => false
      | e :: l' => String.eqb e r && startsWith l' root'
      end
  end.

(** Containment on the boundaries of path elements: the path is the
    directory [root] or lies below it. *)
Definition withinDir (absPath absRoot : string) : bool :=
  startsWith (elements absPath) (elements absRoot).

(** A computation that writes nothing to the audit sink. *)
Definition keepsAudit {A : Type} (m : sys.M A) : Prop :=
  forall w, sys.audit (snd (m w)) = sys.audit w.

(** A computation that leaves the whole world as it found it. *)
Definition pureM {A : Type} (m : sys.M A) : Prop :=
  forall w, snd (m w) = w.

(** The kind and the status of a record. *)
Definition kindStatus (entry : logging.LogEntry) : string * string :=
  (logging.Event entry, logging.Status entry).

(** The exit code the specification assigns to the two counts. *)
Definition exitCodeFor (findings symbols : nat) : Z :=
  if (0 <? findings)%nat then 10%Z
  else if (0 <? symbols)%nat then 11%Z
  else 0%Z.

(** The total number of findings over the results of the analyzers. *)
Definition totalFindings (results : list security.ScanResult) : nat :=
  sum_list_with (fun r => List.length (security.Findings r)) results.

(** The worlds in which a scan of [e] that starts in [w] calls its
    scanner and its detector: the scanner after the first clock
    reading and the [started] record of the security kind; the
    detector after the security block, if it is requested, and the
    [started] record of the dead-code kind. *)
Definition scannerWorld (h : sys.Host) (e : engine.Engine) (w : sys.World)
  : sys.World :=
  snd (AuditLogger.LogToolCall h (engine.auditLogger e) "security" "scanner"
         ["security"; "scan"] 0 "started" None (snd (sys.now h w))).

Definition detectorWorld (h : sys.Host) (c : security.Codec)
    (e : engine.Engine) (opts : engine.ScanOpts) (w : sys.World)
  : sys.World :=
  let (start, w0) := sys.now h w in
  let w1 :=
    if engine.Security opts
    then snd (engine.scanSecurity h c e start
                {| engine.sarifData := None; engine.exitCode := 0;
                   engine.summary := "Scan completed successfully" |} w0)
    else w0 in
  snd (AuditLogger.LogToolCall h (engine.auditLogger e) "deadcode" "detector"
         ["deadcode"; "detect"] 0 "started" None w1).

(** What the scanner and the detector return to that scan. *)
Definition scannerRun (h : sys.Host) (c : security.Codec)
    (e : engine.Engine) (w : sys.World)
  : sys.result (list security.ScanResult) :=
  fst (security.Scan h c (engine.scanner e) (scannerWorld h e w)).

Definition detectorRun (h : sys.Host) (c : security.Codec)
    (src : deadcode.Source) (e : engine.Engine) (opts : engine.ScanOpts)
    (w : sys.World) : sys.result deadcode.DeadCodeResult :=
  fst (deadcode.Detect h src (engine.detector e) (detectorWorld h c e opts w)).

(** The number of findings that scan counts: those of the results its
    scanner returns when security scanning is requested, none
    otherwise. *)
Definition countedFindings (h : sys.Host) (c : security.Codec)
    (e : engine.Engine) (opts : engine.ScanOpts) (w : sys.World) : nat :=
  if engine.Security opts then
    match scannerRun h c e w with
    | sys.Ok results => totalFindings results
    | sys.Err _ => 0
    end
  else 0.

(** The number of dead-code symbols that scan counts. *)
Definition countedSymbols (h : sys.Host) (c : security.Codec)
    (src : deadcode.Source) (e : engine.Engine) (opts : engine.ScanOpts)
    (w : sys.World) : nat :=
  if engine.DeadCode opts then
    match detectorRun h c src e opts w with
    | sys.Ok result => List.length (deadcode.Symbols result)
    | sys.Err _ => 0
    end
  else 0.

(** Equality of two strings up to case, as [strings.ToLower] folds
    it. *)
Definition eqFold (mapLower : string -> string) (a b : string) : Prop :=
  GoStrings.ToLower mapLower a = GoStrings.ToLower mapLower b.

(** The ASCII alphabet, each letter in lower and in upper case, and the
    digits. *)
Definition alphabet : list (ascii * ascii) :=
  combine (list_ascii_of_string "abcdefghijklmnopqrstuvwxyz")
          (list_ascii_of_string "ABCDEFGHIJKLMNOPQRSTUVWXYZ").

Definition isLetter (c : ascii) : bool :=
  existsb (fun lu => Ascii.eqb c lu.1 || Ascii.eqb c lu.2) alphabet.

Definition isDigit (c : ascii) : bool :=
  existsb (Ascii.eqb c) (list_ascii_of_string "0123456789").

(** A lower-case letter of the alphabet. *)
Definition lowerLetter (k : ascii) : Prop := exists u, In (k, u) alphabet.

(** A word of lower-case letters. *)
Definition lowerWord (kw : string) : Prop :=
  Forall lowerLetter (list_ascii_of_string kw).

(** The byte [c] is [k], or [k] is a letter and [c] is its upper-case
    form. *)
Definition foldsTo (c k : ascii) : Prop :=
  c = k \/ In (k, c) alphabet.

(** [s] spells the lower-case word [kw] up to the case of its
    letters. *)
Definition spells (s kw : string) : Prop :=
  Forall2 foldsTo (list_ascii_of_string s) (list_ascii_of_string kw).

(** Text made of ASCII bytes only. *)
Definition asciiText (s : string) : Prop :=
  Forall (fun c => nat_of_ascii c < 128) (list_ascii_of_string s).

(** [s] contains the lower-case word [kw] case-insensitively: ASCII
    text has a part that spells it; any other text contains it once
    lower-cased by the Unicode tables. *)
Definition containsFold (mapLower : string -> string) (s kw : string)
  : Prop :=
  (asciiText s /\
   exists pre mid post, s = pre +:+ mid +:+ post /\ spells mid kw)
  \/ (~ asciiText s /\ exists pre post, mapLower s = pre +:+ kw +:+ post).

(** [s] contains a character of the class [P]. *)
Definition hasChar (P : ascii -> bool) (s : string) : Prop :=
  exists pre c post, s = pre +:+ String c post /\ P c = true.

(** The condition under which an argument is replaced by the marker;
    the length is the number of bytes. *)
Definition Redactable (mapLower : string -> string) (arg : string) : Prop :=
  20 < String.length arg /\
  ((exists kw, In kw ["key"; "token"; "secret"; "password"; "auth"]
               /\ containsFold mapLower arg kw)
   \/ (20 <= String.length arg /\ hasChar isLetter arg /\ hasChar isDigit arg)).

(** Details that [json.Marshal] encodes: none of the values is one
    that it rejects. *)
Definition marshalable (details : gmap string logging.MetaValue) : Prop :=
  forall k, details !! k <> Some (logging.MOther false).

(** The number of characters of a UTF-8 text: the bytes that do not
    continue a character. *)
Definition continuation (c : ascii) : bool :=
  (128 <=? nat_of_ascii c)%nat && (nat_of_ascii c <? 192)%nat.

Definition characters (s : string) : nat :=
  List.length
    (List.filter (fun c => negb (continuation c)) (list_ascii_of_string s)).

Module Sample.

(** A host whose clock advances by a microsecond between readings,
    working in [/ws], where every program is installed and every
    process prints [ok], exits with 0 and leaves a build log; its case
    tables fold the ASCII letters of a text and leave the other bytes
    as they are. *)
Definition host : sys.Host :=
  {| sys.clock := fun n => (Z.of_nat n * 1000)%Z;
     sys.getwd := Some "/ws";
     sys.lookPath := fun _ => true;
     sys.run := fun _ _ _ _ =>
       {| sys.output := "ok"; sys.execErr := None;
          sys.processState := Some 0%Z;
          sys.effect := fun fs => <["/ws/build.log" := "ok"]> fs |};
     sys.openLog := fun _ => None;
     sys.mapLower := GoStrings.lowerASCII |}.

Definition world : sys.World :=
  {| sys.ticks := 0; sys.procs := []; sys.files := ∅; sys.audit := [] |}.

(** The allowlist of the package's tests. *)
Definition runner : tools.Runner :=
  tools.NewRunner
    [["go"; "build"]; ["go"; "test"; "-cover"]; ["echo"; "hello"]]
    5000000000.

(** An allowlist holding a tuple and the same tuple with one more
    argument. *)
Definition runner2 : tools.Runner :=
  tools.NewRunner [["go"; "build"]; ["go"; "build"; "./..."]] 5000000000.

Definition patcher : tools.Patcher := tools.NewPatcher "/ws" [] [].

Definition logger : logging.AuditLogger := {| logging.redact := true |}.

(** An analyzer output of [n] records, and sources with [n] unused
    unexported functions in one file. *)
Definition finding : security.Finding :=
  {| security.RuleID := "go.xss"; security.Message := "unescaped input";
     security.Severity := "HIGH"; security.File := "/ws/main.go";
     security.Line := 21; security.Column := 3;
     security.Description := EmptyString;
     security.Confidence := "MEDIUM" |}.

Definition codec (n : nat) : security.Codec :=
  {| security.unmarshalSemgrep := fun _ => sys.Ok (replicate n finding);
     security.rel := fun _ target => target;
     security.marshalSarif := fun _ => sys.Ok "{}" |}.

Definition symbol : deadcode.Symbol :=
  {| deadcode.Name := "unusedFunction"; deadcode.Kind := "func";
     deadcode.Package := "main"; deadcode.File := "main.go";
     deadcode.Line := 10; deadcode.Exported := false;
     deadcode.References := 0; deadcode.LastTouch := EmptyString;
     deadcode.Risk := "low";
     deadcode.Description := "Function unusedFunction in package main" |}.

Definition source (n : nat) : deadcode.Source :=
  {| deadcode.walk := fun _ => ([("/ws/main.go", false)], None);
     deadcode.analyzeFile := fun _ => sys.Ok (replicate n symbol) |}.

(** The default policy with the analyzer's actual command line on the
    allowlist. *)
Definition scanPolicy : policy.Policy :=
  {| policy.Version := policy.Version policy.DefaultPolicy;
     policy.Modes := policy.Modes policy.DefaultPolicy;
     policy.Models := policy.Models policy.DefaultPolicy;
     policy.Limits_ := policy.Limits_ policy.DefaultPolicy;
     policy.Allowlist_ :=
       {| policy.Commands :=
            [["semgrep"; "--config"; "auto"; "--json"; "/ws"]] |};
     policy.Patch := policy.Patch policy.DefaultPolicy;
     policy.Security := policy.Security policy.DefaultPolicy;
     policy.Logging := policy.Logging policy.DefaultPolicy |}.

Definition options (pol : policy.Policy) : engine.Options :=
  {| engine.Repo := "/ws"; engine.AgentPath := "./AGENT.md";
     engine.Policy := pol; engine.LogPath := EmptyString |}.

Definition both : engine.ScanOpts :=
  {| engine.Security := true; engine.DeadCode := true |}.

(** The outcome of [scan] on this host: the exit code and the kind
    and status of the audit records, or nothing if the scan failed. *)
Definition scan (pol : policy.Policy) (findings symbols : nat)
    (opts : engine.ScanOpts) : option (Z * list (string * string)) :=
  match engine.New host (options pol) with
  | sys.Err _ => None
  | sys.Ok e =>
      match engine.Scan host (codec findings) (source symbols) e opts world
      with
      | (sys.Ok r, w) => Some (engine.ExitCode r, map kindStatus (sys.audit w))
      | (sys.Err _, _) => None
      end
  end.

(** A host whose analyzer reports a finding on the first command it
    is given and none afterwards, with a codec that reads the report,
    and the outcome of a security scan that starts in [w] there: its
    exit code and the findings counted for it. *)
Definition varying : sys.Host :=
  {| sys.clock := sys.clock host; sys.getwd := sys.getwd host;
     sys.lookPath := sys.lookPath host;
     sys.run := fun n _ _ _ =>
       {| sys.output := if (n =? 0)%nat then "1" else "0";
          sys.execErr := None; sys.processState := Some 0%Z;
          sys.effect := fun fs => fs |};
     sys.openLog := sys.openLog host; sys.mapLower := sys.mapLower host |}.

Definition reading : security.Codec :=
  {| security.unmarshalSemgrep := fun out =>
       sys.Ok (if String.eqb out "1" then [finding] else []);
     security.rel := fun _ target => target;
     security.marshalSarif := fun _ => sys.Ok "{}" |}.

Definition securityOnly : engine.ScanOpts :=
  {| engine.Security := true; engine.DeadCode := false |}.

Definition exitCodeFrom (w : sys.World) : option (Z * nat) :=
  match engine.New varying (options scanPolicy) with
  | sys.Err _ => None
  | sys.Ok e =>
      match fst (engine.Scan varying reading (source 0) e securityOnly w) with
      | sys.Ok r =>
          Some (engine.ExitCode r,
                countedFindings varying reading e securityOnly w)
      | sys.Err _ => None
      end
  end.

(** A unified diff whose target lies outside the workspace. *)
Definition newline : string := String (ascii_of_nat 10) EmptyString.

Definition diff : string :=
  "--- /etc/passwd" +:+ newline +:+ "+++ /etc/passwd" +:+ newline
  +:+ "@@ -1 +1 @@" +:+ newline +:+ "-root:x:0:0" +:+ newline
  +:+ "+toor:x:0:0" +:+ newline.

(** An argument of 13 characters in 22 bytes: [pin1] and nine times
    the letter e with an acute accent (the bytes 195 and 169). *)
Definition eAcute : string :=
  String (ascii_of_nat 195) (String (ascii_of_nat 169) EmptyString).

Definition accented : string :=
  "pin1" +:+ eAcute +:+ eAcute +:+ eAcute +:+ eAcute +:+ eAcute
  +:+ eAcute +:+ eAcute +:+ eAcute +:+ eAcute.

End Sample.

(** ** Further vocabulary *)

(** A clock that never runs backwards. *)
Definition monotone (h : sys.Host) : Prop :=
  forall n, (sys.clock h n <= sys.clock h (S n))%Z.

(** The audit log is in temporal order: no record is stamped later
    than a record after it, nor later than the next clock reading. *)
Definition ordered (h : sys.Host) (w : sys.World) : Prop :=
  (forall i j ei ej,
      i <= j -> sys.audit w !! i = Some ei -> sys.audit w !! j = Some ej ->
      (logging.Timestamp ei <= logging.Timestamp ej)%Z) /\
  (forall e, In e (sys.audit w) ->
             (logging.Timestamp e <= sys.clock h (sys.ticks w))%Z).

(** A computation that keeps the audit log in temporal order. *)
Definition orderly {A : Type} (h : sys.Host) (m : sys.M A) : Prop :=
  forall w, ordered h w -> ordered h (snd (m w)).

(** The command line of the analyzer and of the coverage run. *)
Definition semgrepArgs (workspace : string) : list string :=
  ["--config"; "auto"; "--json"; workspace].

Definition coverageArgs : list string :=
  ["test"; "-coverprofile=coverage.out"; "./..."].

(** The commands a runner hands to [os/exec] for a command line: the
    command when the allowlist holds it, none otherwise. *)
Definition started (r : tools.Runner) (cmd : string) (args : list string)
  : list (string * list string) :=
  if tools.allowed r cmd args then [(cmd, args)] else [].

(** A computation that hands exactly the commands [cmds] to
    [os/exec], in that order, and leaves the files alone when it
    hands over none. *)
Definition starts {A : Type} (m : sys.M A) (cmds : list (string * list string))
  : Prop :=
  forall w,
    sys.procs (snd (m w)) = sys.procs w ++ cmds /\
    (cmds = [] -> sys.files (snd (m w)) = sys.files w).

(** The commands of a security scan and of a dead-code detection. *)
Definition semgrepRun (h : sys.Host) (s : security.Scanner)
  : list (string * list string) :=
  if sys.lookPath h "semgrep"
  then started (security.runner s) "semgrep"
         (semgrepArgs (security.workspace s))
  else [].

Definition coverageRun (d : deadcode.Detector) : list (string * list string) :=
  started (deadcode.runner d) "go" coverageArgs.

(** A scan result that did not fail. *)
Definition succeeded (result : security.ScanResult) : bool :=
  String.eqb (security.Error result) EmptyString.

(** The file filter of [findGoFiles] on a path that is not a
    directory. *)
Definition isGoSource (path : string) : bool :=
  GoStrings.HasSuffix path ".go"
  && negb (GoStrings.Contains path "_test.go")
  && negb (GoStrings.Contains path "/vendor/")
  && negb (GoStrings.Contains path "/.git/").

(** The test of [filterDeadSymbols]. *)
Definition isDead (symbol : deadcode.Symbol) : bool :=
  negb (deadcode.Exported symbol) && (deadcode.References symbol =? 0)%Z.

Module SampleIO.

(** A store with one policy file, whose document decodes to the
    default policy, and one file that decodes to a policy with an empty
    allowlist. *)
Definition emptyAllowlist : policy.Policy :=
  {| policy.Version := "1"; policy.Modes := ∅;
     policy.Models := policy.Models policy.DefaultPolicy;
     policy.Limits_ := policy.Limits_ policy.DefaultPolicy;
     policy.Allowlist_ := {| policy.Commands := [] |};
     policy.Patch := policy.Patch policy.DefaultPolicy;
     policy.Security := policy.Security policy.DefaultPolicy;
     policy.Logging := policy.Logging policy.DefaultPolicy |}.

Definition store : policyLoad.Store :=
  {| policyLoad.readFile := fun path =>
       if String.eqb path "policy.yaml" then sys.Ok "version: 1"
       else if String.eqb path "empty.yaml" then sys.Ok "allowlist: {}"
       else sys.Err "open: no such file or directory";
     policyLoad.unmarshal := fun data =>
       if String.eqb data "version: 1" then sys.Ok policy.DefaultPolicy
       else sys.Ok emptyAllowlist |}.

End SampleIO.

(** * Properties *)

(** ** Byte strings *)

Lemma append_cons (x : ascii) (a b : string) :
  String x a +:+ b = String x (a +:+ b).
Proof. reflexivity. Qed.

Lemma append_assoc (a b c : string) : (a +:+ b) +:+ c = a +:+ (b +:+ c).
Proof.
  induction a as [|x a IH]; [done|]. now rewrite !append_cons, IH.
Qed.

Lemma append_empty_r (a : string) : a +:+ EmptyString = a.
Proof. induction a as [|x a IH]; [done|]. now rewrite append_cons, IH. Qed.

Lemma length_append (a b : string) :
  String.length (a +:+ b) = String.length a + String.length b.
Proof.
  induction a as [|x a IH]; [done|]. rewrite append_cons. simpl.
  now rewrite IH.
Qed.

(** ** The models of [path/filepath] against Go's own tables *)

Section Filepath.

Import GoFilepath.

(** The fuel of the matcher is never exhausted: more fuel than the
    length of the pattern changes nothing. *)
Lemma cut_length c s s' : cut c s = Some s' -> String.length s = S (String.length s').
Proof.
  destruct s as [|d s0]; simpl; [discriminate|].
  destruct (Ascii.eqb d c); intros H; now simplify_eq.
Qed.

Lemma skip_length n : forall s,
  String.length (skip n s) = String.length s - n.
Proof.
  induction n as [|n IH]; intros [|c s]; simpl; try lia. apply IH.
Qed.

Lemma decodeRune_width s :
  s <> EmptyString -> 1 <= snd (decodeRune s) <= 4.
Proof.
  intros Hne. unfold decodeRune.
  destruct s as [|c s]; [done|]. simpl String.length.
  replace (S (String.length s) <? 1)%nat with false by reflexivity.
  destruct (byteAt (String c s) 0 <? 128)%N; [simpl; lia|].
  destruct (leading _) as [[[sz lo] hi]|]; [|simpl; lia].
  destruct (_ <? sz)%nat; [simpl; lia|].
  destruct (negb _); [simpl; lia|].
  destruct (sz <=? 2)%nat; [simpl; lia|].
  destruct (negb _); [simpl; lia|].
  destruct (sz <=? 3)%nat; [simpl; lia|].
  destruct (negb _); simpl; lia.
Qed.

Lemma getEsc_shorter chunk r nchunk :
  getEsc chunk = Some (r, nchunk) -> String.length nchunk < String.length chunk.
Proof.
  unfold getEsc. destruct chunk as [|c chunk']; [discriminate|].
  destruct (Ascii.eqb c "-" || Ascii.eqb c "]"); [discriminate|].
  set (unesc := if Ascii.eqb c "\" then chunk' else String c chunk').
  assert (Hle : String.length unesc <= String.length (String c chunk')).
  { unfold unesc. destruct (Ascii.eqb c "\"); simpl; lia. }
  destruct (String.eqb_spec unesc EmptyString) as [|Hne]; [discriminate|].
  pose proof (decodeRune_width unesc Hne) as Hw.
  destruct (decodeRune unesc) as [r' n]. simpl in Hw.
  destruct ((r' =? RuneError)%N && (n =? 1)%nat); [discriminate|].
  destruct (String.eqb (skip n unesc) EmptyString); [discriminate|].
  intros H. injection H as <- <-. rewrite skip_length.
  assert (0 < String.length unesc) by (destruct unesc; [done | simpl; lia]).
  lia.
Qed.

Lemma classRanges_fuel : forall fuel1 fuel2 chunk r matched nrange,
  String.length chunk <= fuel1 -> String.length chunk <= fuel2 ->
  classRanges fuel1 chunk r matched nrange
  = classRanges fuel2 chunk r matched nrange.
Proof.
  induction fuel1 as [|fuel1 IH]; intros [|fuel2] chunk r matched nrange H1 H2.
  - reflexivity.
  - destruct chunk; [reflexivity | simpl in H1; lia].
  - destruct chunk; [reflexivity | simpl in H2; lia].
  - simpl. destruct (cut "]" chunk); [reflexivity|].
    destruct (getEsc chunk) as [[lo chunk1]|] eqn:E1; [|reflexivity].
    apply getEsc_shorter in E1.
    destruct (cut "-" chunk1) as [chunk2|] eqn:E2.
    + apply cut_length in E2.
      destruct (getEsc chunk2) as [[hi chunk3]|] eqn:E3; [|reflexivity].
      apply getEsc_shorter in E3. apply IH; lia.
    + apply IH; lia.
Qed.

Lemma classRanges_shorter : forall fuel chunk r matched nrange b chunk',
  classRanges fuel chunk r matched nrange = Some (b, chunk') ->
  String.length chunk' < String.length chunk.
Proof.
  induction fuel as [|fuel IH]; intros chunk r matched nrange b chunk' H;
    [discriminate|].
  simpl in H. destruct (cut "]" chunk) as [c0|] eqn:E0.
  - apply cut_length in E0. destruct (0 <? nrange)%nat; simplify_eq. lia.
  - destruct (getEsc chunk) as [[lo chunk1]|] eqn:E1; [|discriminate].
    apply getEsc_shorter in E1.
    destruct (cut "-" chunk1) as [chunk2|] eqn:E2.
    + apply cut_length in E2.
      destruct (getEsc chunk2) as [[hi chunk3]|] eqn:E3; [|discriminate].
      apply getEsc_shorter in E3. apply IH in H. lia.
    + apply IH in H. lia.
Qed.

Lemma matchChunkLoop_fuel : forall fuel1 fuel2 chunk s failed,
  String.length chunk < fuel1 -> String.length chunk < fuel2 ->
  matchChunkLoop fuel1 chunk s failed = matchChunkLoop fuel2 chunk s failed.
Proof.
  induction fuel1 as [|fuel1 IH]; intros [|fuel2] chunk s failed H1 H2;
    [lia..|].
  simpl. destruct chunk as [|c chunk']; [reflexivity|]. simpl in H1, H2.
  destruct (Ascii.eqb c "[").
  - assert (Hcut : String.length
              (snd (match cut "^" chunk' with
                    | Some chunk1 => (true, chunk1)
                    | None => (false, chunk')
                    end)) <= String.length chunk').
    { destruct (cut "^" chunk') eqn:E; simpl; [|lia].
      apply cut_length in E. lia. }
    destruct (match cut "^" chunk' with
              | Some chunk1 => (true, chunk1)
              | None => (false, chunk')
              end) as [negated chunk1]. simpl in Hcut.
    rewrite (classRanges_fuel fuel1 fuel2) by lia.
    destruct (classRanges fuel2 chunk1 _ false 0) as [[matched chunk2]|] eqn:E;
      [|reflexivity].
    apply classRanges_shorter in E. apply IH; lia.
  - destruct (Ascii.eqb c "?"); [apply IH; lia|].
    destruct (Ascii.eqb c "\").
    + destruct chunk' as [|d chunk'']; [reflexivity|]. simpl in H1, H2.
      apply IH; lia.
    + apply IH; lia.
Qed.

Lemma stripStars_length pattern :
  String.length (snd (stripStars pattern)) <= String.length pattern /\
  (fst (stripStars pattern) = true ->
   String.length (snd (stripStars pattern)) < String.length pattern) /\
  (fst (stripStars pattern) = false ->
   snd (stripStars pattern) = pattern /\ cut "*" pattern = None).
Proof.
  induction pattern as [|c pattern IH]; simpl.
  { split; [lia|]. split; [discriminate|auto]. }
  destruct (Ascii.eqb c "*"); simpl.
  - destruct IH as (IH & _). split; [lia|]. split; [lia|discriminate].
  - split; [lia|]. split; [discriminate|auto].
Qed.

Lemma scanBody_length : forall n pattern inrange,
  String.length pattern <= n ->
  String.length (fst (scanBody pattern inrange))
  + String.length (snd (scanBody pattern inrange)) = String.length pattern.
Proof.
  induction n as [|n IH]; intros pattern inrange Hn.
  - destruct pattern; [reflexivity | simpl in Hn; lia].
  - destruct pattern as [|c pattern']; [reflexivity|]. simpl in Hn. simpl.
    destruct (Ascii.eqb c "\").
    + destruct pattern' as [|d pattern'']; [reflexivity|]. simpl in Hn.
      pose proof (IH pattern'' inrange ltac:(lia)). simpl. lia.
    + pose proof (IH pattern' true ltac:(lia)).
      pose proof (IH pattern' false ltac:(lia)).
      pose proof (IH pattern' inrange ltac:(lia)).
      destruct (Ascii.eqb c "["); [simpl; lia|].
      destruct (Ascii.eqb c "]"); [simpl; lia|].
      destruct (Ascii.eqb c "*"); [|simpl; lia].
      destruct inrange; simpl; lia.
Qed.

Lemma scanBody_progress pattern :
  pattern <> EmptyString -> cut "*" pattern = None ->
  String.length (snd (scanBody pattern false)) < String.length pattern.
Proof.
  intros Hne Hcut.
  pose proof (scanBody_length _ pattern false (le_n _)) as Hlen.
  destruct pattern as [|c pattern']; [done|]. simpl in Hcut.
  destruct (Ascii.eqb c "*") eqn:Hstar; [discriminate|].
  assert (0 < String.length (fst (scanBody (String c pattern') false))); [|lia].
  simpl. rewrite Hstar.
  destruct (Ascii.eqb c "\"); [destruct pattern'; simpl; lia|].
  destruct (Ascii.eqb c "["); [simpl; lia|].
  destruct (Ascii.eqb c "]"); simpl; lia.
Qed.

Lemma scanChunk_shorter pattern star chunk rest :
  pattern <> EmptyString ->
  scanChunk pattern = (star, chunk, rest) ->
  String.length rest < String.length pattern.
Proof.
  intros Hne. unfold scanChunk.
  pose proof (stripStars_length pattern) as (Hle & Hlt & Heq).
  destruct (stripStars pattern) as [st p]. simpl in *.
  pose proof (scanBody_length _ p false (le_n _)) as Hlen.
  destruct (scanBody p false) as [ch rs] eqn:E. simpl in Hlen.
  intros H. simplify_eq. destruct star.
  - specialize (Hlt eq_refl). lia.
  - destruct (Heq eq_refl) as [-> Hcut].
    pose proof (scanBody_progress pattern Hne Hcut) as Hp.
    rewrite E in Hp. simpl in Hp. lia.
Qed.

Lemma matchLoop_fuel : forall fuel1 fuel2 pattern name,
  String.length pattern < fuel1 -> String.length pattern < fuel2 ->
  matchLoop fuel1 pattern name = matchLoop fuel2 pattern name.
Proof.
  induction fuel1 as [|fuel1 IH]; intros [|fuel2] pattern name H1 H2; [lia..|].
  simpl. destruct (String.eqb_spec pattern EmptyString) as [->|Hne]; [reflexivity|].
  destruct (scanChunk pattern) as [[star chunk] rest] eqn:E.
  apply scanChunk_shorter in E; [|exact Hne].
  destruct (star && String.eqb chunk EmptyString); [reflexivity|].
  assert (Hrec : forall t, matchLoop fuel1 rest t = matchLoop fuel2 rest t).
  { intros t. apply IH; lia. }
  cbv zeta.
  destruct (matchChunk chunk name) as [| |t]; destruct star;
    try destruct (starSearch chunk (String.eqb rest EmptyString) name);
    try destruct (String.eqb t EmptyString || negb (String.eqb rest EmptyString));
    rewrite ?Hrec; reflexivity.
Qed.

Lemma Match_fuel fuel pattern name :
  String.length pattern < fuel -> matchLoop fuel pattern name = Match pattern name.
Proof. intros H. unfold Match. apply matchLoop_fuel; lia. Qed.

(** Rows of the table of [TestClean]. *)
Example Clean_table :
  map Clean
    ["abc//def//ghi"; "abc/./def"; "/./abc/def"; "abc/def/ghi/../jkl";
     "abc/def/../..";  "/abc/def/../.."; "abc/def/../../..";
     "/abc/def/../../.."; "abc/def/../../../ghi/jkl/../../../mno";
     "/../abc"; "abc/../../././../def"; EmptyString; "//abc//"; "../../"]
  = ["abc/def/ghi"; "abc/def"; "/abc/def"; "abc/def/jkl";
     "."; "/"; ".."; "/"; "../../mno"; "/abc"; "../../def"; "."; "/abc";
     "../.."].
Proof. reflexivity. Qed.

(** Rows of the table of [TestMatch], and the deny globs of the default
    policy. *)
Example Match_table :
  map (fun t => Match (fst t) (snd t))
    [("abc", "abc"); ("*", "abc"); ("*c", "abc"); ("a*", "ab/c");
     ("a*/b", "abc/b"); ("a*/b", "a/c/b");
     ("a*b*c*d*e*/f", "axbxcxdxexxx/f"); ("a*b*c*d*e*/f", "axbxcxdxe/xxx/f");
     ("a*b?c*x", "abxbbxdbxebxczzx"); ("a*b?c*x", "abxbbxdbxebxczzy");
     ("ab[b-d]", "abc"); ("ab[^b-d]", "abc"); ("ab[^e-g]", "abc");
     ("a\*b", "a*b"); ("a?b", "a/b"); ("[\]a]", "]"); ("[x\-]", "-");
     ("[]a]", "]"); ("[x-]", "x"); ("\", "a"); ("[a-b-c]", "a");
     ("a[", "ab"); ("*x", "xxx");
     ("a?b", "a☺b"); ("a[^a]b", "a☺b"); ("a???b", "a☺b");
     ("a[^a][^a][^a]b", "a☺b"); ("[a-ζ]*", "α"); ("*[a-ζ]", "A");
     ("**/.git/**", "src/.git/config"); ("**/.git/**", "src/main.go")]
  = [true; true; true; false;
     true; false;
     true; false;
     true; false;
     true; false; true;
     true; false; true; true;
     false; false; false; false;
     false; true;
     true; true; false;
     false; true; false;
     true; false].
Proof. vm_compute. reflexivity. Qed.

End Filepath.

(** ** The allowlist matcher *)

Section Allowlist.

Implicit Types (allowed args t : list string) (cmd : string).

Lemma tupleMatches_cons t cmd args :
  tupleMatches t cmd args <-> t = cmd :: args.
Proof.
  split.
  - intros (H0 & Hlen & Hi). destruct t as [|p0 rest]; [discriminate|].
    simpl in H0. injection H0 as ->. f_equal.
    apply list_eq. intros i.
    destruct (decide (i < List.length args)) as [Hlt|Hge].
    + apply (Hi i Hlt).
    + simpl in Hlen. rewrite !lookup_ge_None_2; [done|lia|lia].
  - intros ->. repeat split; simpl; auto.
Qed.

Lemma at_lookup (l : list string) i x : l !! i = Some x -> tools.at_ l i = x.
Proof. unfold tools.at_. now intros ->. Qed.

(** The inner loop compares [allowed[k]] with [args[k-1]] for the [n]
    indices from [i] on. *)
Lemma matchesLoop_spec allowed args n : forall i,
  tools.matchesLoop allowed args i n = true <->
  forall k, i <= k < i + n ->
            tools.at_ allowed k = tools.at_ args (k - 1).
Proof.
  induction n as [|n IH]; intros i; simpl.
  - split; [intros _ k Hk; lia | done].
  - destruct (String.eqb_spec (tools.at_ allowed i) (tools.at_ args (i - 1)))
      as [Heq|Hne]; simpl.
    + rewrite IH. split.
      * intros H k Hk. destruct (decide (k = i)) as [->|]; [done|].
        apply H. lia.
      * intros H k Hk. apply H. lia.
    + split; [discriminate|]. intros H. exfalso. apply Hne, H. lia.
Qed.

(** Under the guard on the lengths, every index the loop reads is
    inside its slice. *)
Lemma argsLoop_reads_in_range allowed args k :
  List.length allowed = List.length args + 1 ->
  1 <= k < 1 + (List.length allowed - 1) ->
  allowed !! k = Some (tools.at_ allowed k) /\
  args !! (k - 1) = Some (tools.at_ args (k - 1)) /\
  allowed !! 0 = Some (tools.at_ allowed 0).
Proof.
  intros Hlen Hk. unfold tools.at_.
  destruct (lookup_lt_is_Some_2 allowed k ltac:(lia)) as [x ->].
  destruct (lookup_lt_is_Some_2 args (k - 1) ltac:(lia)) as [y ->].
  destruct (lookup_lt_is_Some_2 allowed 0 ltac:(lia)) as [z ->].
  done.
Qed.

Lemma tuple_test allowed cmd args :
  (List.length allowed =? List.length args + 1)%nat
    && String.eqb (tools.at_ allowed 0) cmd
    && tools.matchesLoop allowed args 1 (List.length allowed - 1) = true
  <-> allowed = cmd :: args.
Proof.
  rewrite !andb_true_iff, Nat.eqb_eq, String.eqb_eq, matchesLoop_spec.
  split.
  - intros [[Hlen H0] Hi].
    destruct allowed as [|p0 rest]; simpl in *; [lia|].
    unfold tools.at_ in H0. simpl in H0. subst p0. f_equal.
    apply list_eq. intros i.
    destruct (decide (i < List.length args)) as [Hlt|Hge].
    + specialize (Hi (S i)). unfold tools.at_ in Hi. simpl in Hi.
      replace (i - 0) with i in Hi by lia.
      destruct (lookup_lt_is_Some_2 rest i ltac:(lia)) as [x Hx].
      destruct (lookup_lt_is_Some_2 args i Hlt) as [y Hy].
      rewrite Hx, Hy in Hi |- *. simpl in Hi. f_equal. apply Hi. lia.
    + rewrite !lookup_ge_None_2; [done|lia|lia].
  - intros ->. simpl. repeat split; [lia|].
    intros k Hk. destruct k as [|k]; [lia|].
    unfold tools.at_. simpl. now rewrite Nat.sub_0_r.
Qed.

Lemma allowLoop_In allow cmd args :
  tools.allowLoop allow cmd args = true <-> In (cmd :: args) allow.
Proof.
  induction allow as [|allowed rest IH]; simpl; [split; [discriminate|tauto]|].
  pose proof (tuple_test allowed cmd args) as Ht.
  destruct ((List.length allowed =? List.length args + 1)%nat
            && String.eqb (tools.at_ allowed 0) cmd) eqn:Hguard; simpl in Ht.
  - destruct (tools.matchesLoop allowed args 1 (List.length allowed - 1)).
    + split; [intros _; left; now apply Ht | done].
    + rewrite IH. split; [tauto|]. intros [Heq|Hin]; [|done].
      apply Ht in Heq. discriminate.
  - rewrite IH. split; [tauto|]. intros [Heq|Hin]; [|done].
    apply Ht in Heq. discriminate.
Qed.

(** The two copies of the matcher run the same loops. *)
Lemma argsLoop_matchesLoop allowed args n : forall i,
  policy.argsLoop allowed args i n = tools.matchesLoop allowed args i n.
Proof.
  induction n as [|n IH]; intros i; simpl; [done|]. now rewrite IH.
Qed.

Lemma commandsLoop_allowLoop commands cmd args :
  policy.commandsLoop commands cmd args = tools.allowLoop commands cmd args.
Proof.
  induction commands as [|allowed rest IH]; simpl; [done|].
  now rewrite IH, argsLoop_matchesLoop.
Qed.

End Allowlist.

(** C1 (amended). For every program and argument vector, both copies of
    the allowlist check answer true exactly when some allowlist tuple
    has that program first and the same arguments, in number and
    position by position.  A tuple that matches an invocation does not
    match it with one more argument, and the longer invocation is denied
    exactly when the allowlist does not hold it as a tuple of its own. *)
Theorem allowed_iff_exact_tuple (r : tools.Runner) (p : policy.Policy)
    (cmd : string) (args : list string) :
  (tools.allowed r cmd args = true <->
     exists t, In t (tools.Allow r) /\ tupleMatches t cmd args) /\
  (policy.IsCommandAllowed p cmd args = true <->
     exists t, In t (policy.Commands (policy.Allowlist_ p))
               /\ tupleMatches t cmd args) /\
  (forall t x, tupleMatches t cmd args -> ~ tupleMatches t cmd (args ++ [x])) /\
  (forall x, tools.allowed r cmd (args ++ [x]) = false <->
             ~ In (cmd :: args ++ [x]) (tools.Allow r)).
Proof.
  assert (Hex : forall allow a,
             In (cmd :: a) allow <->
             exists t, In t allow /\ tupleMatches t cmd a).
  { intros allow a. split.
    - intros Hin. exists (cmd :: a). split; [done|].
      now apply tupleMatches_cons.
    - intros (t & Hin & Ht). apply tupleMatches_cons in Ht. now subst. }
  repeat split.
  - unfold tools.allowed. rewrite allowLoop_In. apply Hex.
  - unfold tools.allowed. rewrite allowLoop_In. apply Hex.
  - unfold policy.IsCommandAllowed.
    rewrite commandsLoop_allowLoop, allowLoop_In. apply Hex.
  - unfold policy.IsCommandAllowed.
    rewrite commandsLoop_allowLoop, allowLoop_In. apply Hex.
  - intros t x (_ & Hlen & _) (_ & Hlen' & _).
    rewrite Hlen, length_app in Hlen'. simpl in Hlen'. lia.
  - unfold tools.allowed. intros Hf Hin.
    apply allowLoop_In in Hin. congruence.
  - unfold tools.allowed. intros Hn.
    destruct (tools.allowLoop (tools.Allow r) cmd (args ++ [x])) eqn:E; [|done].
    apply allowLoop_In in E. contradiction.
Qed.

(** An invocation that matched can still be allowed with one more
    argument: the allowlist may hold the longer tuple as well. *)
Lemma extra_argument_may_stay_allowed :
  tools.allowed Sample.runner2 "go" ["build"] = true /\
  tools.allowed Sample.runner2 "go" (["build"] ++ ["./..."]) = true.
Proof. split; reflexivity. Qed.

(** The invocations of the package's tests. *)
Example allowed_tests :
  tools.allowed Sample.runner "go" ["build"] = true /\
  tools.allowed Sample.runner "python" ["build"] = false /\
  tools.allowed Sample.runner "go" ["run"] = false /\
  tools.allowed Sample.runner "go" ["build"; "--unsafe"] = false /\
  policy.IsCommandAllowed policy.DefaultPolicy "go" ["build"] = true /\
  policy.IsCommandAllowed policy.DefaultPolicy "rm" ["-rf"; "/"] = false /\
  policy.IsCommandAllowed policy.DefaultPolicy "go" ["build"; "--unsafe"]
    = false.
Proof. repeat split; reflexivity. Qed.

(** C10. The matcher of a runner built from a policy's allowlist and the
    policy's own matcher give the same answer on every invocation. *)
Theorem allowed_eq_IsCommandAllowed (p : policy.Policy) (timeout : Z)
    (cmd : string) (args : list string) :
  tools.allowed
    (tools.NewRunner (policy.Commands (policy.Allowlist_ p)) timeout)
    cmd args
  = policy.IsCommandAllowed p cmd args.
Proof.
  unfold tools.allowed, policy.IsCommandAllowed, tools.NewRunner. simpl.
  symmetry. apply commandsLoop_allowLoop.
Qed.

(** The runner an engine is created with is such a runner. *)
Lemma engine_runner_agrees_with_policy (h : sys.Host) (opts : engine.Options)
    (e : engine.Engine) (cmd : string) (args : list string) :
  engine.New h opts = sys.Ok e ->
  tools.allowed (engine.runner e) cmd args
  = policy.IsCommandAllowed (engine.Policy opts) cmd args.
Proof.
  unfold engine.New. intros H.
  destruct (AuditLogger.NewAuditLogger _ _ _); [|discriminate].
  injection H as <-. simpl.
  unfold tools.allowed, policy.IsCommandAllowed. simpl.
  symmetry. apply commandsLoop_allowLoop.
Qed.

(** ** The path guard *)

Lemma denyPathsLoop_true cleanPath denyPaths :
  tools.denyPathsLoop cleanPath denyPaths = true <->
  exists denyPath, In denyPath denyPaths
                   /\ GoStrings.HasPrefix cleanPath denyPath = true.
Proof.
  induction denyPaths as [|d rest IH]; simpl.
  - split; [discriminate | intros (? & [] & _)].
  - destruct (GoStrings.HasPrefix cleanPath d) eqn:E.
    + split; [|done]. intros _. exists d. auto.
    + rewrite IH. split.
      * intros (x & Hin & Hx). exists x. auto.
      * intros (x & [->|Hin] & Hx); [congruence|]. exists x. auto.
Qed.

(** A path whose cleaned form starts with a deny-path prefix is denied,
    whatever the deny globs and the workspace are. *)
Lemma deny_prefix_denies (h : sys.Host) (p : tools.Patcher)
    (path denyPath : string) :
  In denyPath (tools.DenyPaths p) ->
  GoStrings.HasPrefix (GoFilepath.Clean path) denyPath = true ->
  tools.isPathAllowed h p path = false.
Proof.
  intros Hin Hpre. unfold tools.isPathAllowed.
  replace (tools.denyPathsLoop _ _) with true; [done|].
  symmetry. apply denyPathsLoop_true. eauto.
Qed.

(** The traversal of the specification's example is stopped by the
    containment step, with both deny lists empty. *)
Example traversal_denied :
  tools.isPathAllowed Sample.host Sample.patcher "../../etc/passwd" = false.
Proof. reflexivity. Qed.

(** C3 (the code departs from the claim). With the workspace [/ws] and
    both deny lists empty, the guard allows [/wsother/f], a path that
    is not inside the directory [/ws]: the containment step compares
    the two absolute forms as strings. *)
Theorem isPathAllowed_sibling_of_workspace (h : sys.Host) :
  GoFilepath.Abs (sys.getwd h) (GoFilepath.Clean "/wsother/f")
    = Some "/wsother/f" /\
  GoFilepath.Abs (sys.getwd h) "/ws" = Some "/ws" /\
  withinDir "/wsother/f" "/ws" = false /\
  tools.isPathAllowed h (tools.NewPatcher "/ws" [] []) "/wsother/f" = true.
Proof. repeat split; reflexivity. Qed.

(** C9. When no deny rule matches, the guard's answer is the string
    prefix test between the absolute form of the cleaned path and the
    absolute form of the workspace (and a refusal when an absolute form
    cannot be computed); and some path outside the workspace directory
    passes that test and is allowed. *)
Theorem containment_is_string_prefix :
  (forall (h : sys.Host) (p : tools.Patcher) (path : string),
      tools.denyPathsLoop (GoFilepath.Clean path) (tools.DenyPaths p) = false ->
      tools.denyGlobsLoop (GoFilepath.Clean path) (tools.DenyGlobs p) = false ->
      tools.isPathAllowed h p path =
        match GoFilepath.Abs (sys.getwd h) (GoFilepath.Clean path),
              GoFilepath.Abs (sys.getwd h) (tools.Workspace p) with
        | Some absPath, Some absWorkspace =>
            GoStrings.HasPrefix absPath absWorkspace
        | _, _ => false
        end) /\
  (exists (h : sys.Host) (p : tools.Patcher) (path absPath absWorkspace : string),
      tools.denyPathsLoop (GoFilepath.Clean path) (tools.DenyPaths p) = false /\
      tools.denyGlobsLoop (GoFilepath.Clean path) (tools.DenyGlobs p) = false /\
      GoFilepath.Abs (sys.getwd h) (GoFilepath.Clean path) = Some absPath /\
      GoFilepath.Abs (sys.getwd h) (tools.Workspace p) = Some absWorkspace /\
      withinDir absPath absWorkspace = false /\
      tools.isPathAllowed h p path = true).
Proof.
  split.
  - intros h p path Hp Hg.
    unfold tools.isPathAllowed. rewrite Hp, Hg.
    destruct (GoFilepath.Abs (sys.getwd h) (GoFilepath.Clean path));
      [|reflexivity].
    now destruct (GoFilepath.Abs (sys.getwd h) (tools.Workspace p)).
  - exists Sample.host, Sample.patcher, "/wsother/f", "/wsother/f", "/ws".
    repeat split; reflexivity.
Qed.

Lemma containment_is_string_prefix_witness :
  tools.isPathAllowed Sample.host Sample.patcher "/wsother/f"
  = GoStrings.HasPrefix "/wsother/f" "/ws".
Proof.
  apply (proj1 containment_is_string_prefix
           Sample.host Sample.patcher "/wsother/f"); reflexivity.
Defined.

(** Inside the workspace, and on its root, the guard allows. *)
Example inside_workspace_allowed :
  map (tools.isPathAllowed Sample.host Sample.patcher)
    ["/ws/a.go"; "a.go"; "./pkg/../a.go"; "/ws"; "/"; "/w"]
  = [true; true; true; true; false; false].
Proof. reflexivity. Qed.

(** ** The command runner *)

(** C4 (amended). A denied invocation returns the error
    [command not allowlisted], no output, exit code 0 and, as duration,
    the time that elapsed between the two readings of the clock; no
    process is started and neither the files nor the audit log change. *)
Theorem Run_denied (h : sys.Host) (r : tools.Runner) (cmd : string)
    (args : list string) (w : sys.World) :
  tools.allowed r cmd args = false ->
  tools.Run h r cmd args w =
    ({| tools.Stdout := EmptyString; tools.Stderr := EmptyString;
        tools.ExitCode := 0;
        tools.Duration :=
          sys.clock h (S (sys.ticks w)) - sys.clock h (sys.ticks w);
        tools.Error := Some "command not allowlisted" |},
     {| sys.ticks := S (S (sys.ticks w)); sys.procs := sys.procs w;
        sys.files := sys.files w; sys.audit := sys.audit w |}).
Proof.
  intros Hdenied. unfold tools.Run, sys.bind, sys.since, sys.now, sys.ret.
  simpl. now rewrite Hdenied.
Qed.

Lemma Run_denied_witness :
  tools.Run Sample.host Sample.runner "rm" ["-rf"; "/"] Sample.world =
    ({| tools.Stdout := EmptyString; tools.Stderr := EmptyString;
        tools.ExitCode := 0; tools.Duration := 1000 - 0;
        tools.Error := Some "command not allowlisted" |},
     {| sys.ticks := 2; sys.procs := []; sys.files := ∅; sys.audit := [] |}).
Proof.
  apply (Run_denied Sample.host Sample.runner "rm" ["-rf"; "/"] Sample.world).
  reflexivity.
Defined.

(** The duration of a denial is not zero when the clock has advanced. *)
Lemma Run_denied_duration_not_zero :
  tools.allowed Sample.runner "rm" ["-rf"; "/"] = false /\
  tools.Duration
    (fst (tools.Run Sample.host Sample.runner "rm" ["-rf"; "/"] Sample.world))
  <> 0%Z.
Proof. split; [reflexivity | vm_compute; discriminate]. Qed.

(** On a clock that does not run backwards the duration of a denial is
    not negative. *)
Lemma Run_denied_duration_nonneg (h : sys.Host) (r : tools.Runner)
    (cmd : string) (args : list string) (w : sys.World) :
  (forall n, (sys.clock h n <= sys.clock h (S n))%Z) ->
  tools.allowed r cmd args = false ->
  (0 <= tools.Duration (fst (tools.Run h r cmd args w)))%Z.
Proof.
  intros Hclock Hdenied. unfold tools.Run, sys.bind, sys.since, sys.now.
  simpl. rewrite Hdenied. simpl. specialize (Hclock (sys.ticks w)). lia.
Qed.

(** An allowed invocation on the sample host: the process is started
    and its effect on the files is there afterwards. *)
Example Run_echo_hello :
  tools.Run Sample.host Sample.runner "echo" ["hello"] Sample.world =
    ({| tools.Stdout := "ok"; tools.Stderr := EmptyString;
        tools.ExitCode := 0; tools.Duration := 1000;
        tools.Error := None |},
     {| sys.ticks := 2; sys.procs := [("echo", ["hello"])];
        sys.files := <["/ws/build.log" := "ok"]> ∅; sys.audit := [] |}).
Proof. reflexivity. Qed.

(** An allowed invocation hands exactly one command to [os/exec]. *)
Lemma Run_allowed (h : sys.Host) (r : tools.Runner) (cmd : string)
    (args : list string) (w : sys.World) :
  tools.allowed r cmd args = true ->
  sys.procs (snd (tools.Run h r cmd args w)) = sys.procs w ++ [(cmd, args)].
Proof.
  intros Hallowed. unfold tools.Run, sys.bind, sys.since, sys.now, sys.ret.
  simpl. now rewrite Hallowed.
Qed.

(** ** Who writes to the audit log *)

Lemma keepsAudit_ret {A} (a : A) : keepsAudit (sys.ret a).
Proof. now intros w. Qed.

Lemma keepsAudit_bind {A B} (m : sys.M A) (k : A -> sys.M B) :
  keepsAudit m -> (forall a, keepsAudit (k a)) -> keepsAudit (sys.bind m k).
Proof.
  intros Hm Hk w. unfold sys.bind. specialize (Hm w).
  destruct (m w) as [a w1]. simpl in Hm. now rewrite Hk.
Qed.

Lemma keepsAudit_now h : keepsAudit (sys.now h).
Proof. now intros w. Qed.

Lemma keepsAudit_since h start : keepsAudit (sys.since h start).
Proof. now intros w. Qed.

Lemma keepsAudit_combinedOutput h cmd args timeout :
  keepsAudit (sys.combinedOutput h cmd args timeout).
Proof. now intros w. Qed.

Create HintDb audit.
#[local] Hint Resolve keepsAudit_ret keepsAudit_now keepsAudit_since
  keepsAudit_combinedOutput : audit.

Ltac keeps_audit :=
  repeat first
    [ apply keepsAudit_bind; [|intros ?]
    | solve [auto with audit]
    | match goal with
      | |- keepsAudit (if ?b then _ else _) => destruct b
      | |- keepsAudit (match ?x with _ => _ end) => destruct x
      end ].

Lemma keepsAudit_Run h r cmd args : keepsAudit (tools.Run h r cmd args).
Proof. unfold tools.Run. keeps_audit. Qed.
#[local] Hint Resolve keepsAudit_Run : audit.

Lemma keepsAudit_Coverage h r : keepsAudit (tools.Coverage h r).
Proof. unfold tools.Coverage. auto with audit. Qed.
#[local] Hint Resolve keepsAudit_Coverage : audit.

Lemma keepsAudit_security_Scan h c s : keepsAudit (security.Scan h c s).
Proof.
  unfold security.Scan, security.runSemgrep, security.runCodeQL. keeps_audit.
Qed.

Lemma keepsAudit_Detect h src d : keepsAudit (deadcode.Detect h src d).
Proof.
  unfold deadcode.Detect, deadcode.getCoverage.
  destruct (deadcode.findGoFiles src d) as [goFiles err]. keeps_audit.
Qed.

(** [LogToolCall] appends one record of kind [tool.run] that carries the
    status it was given. *)
Lemma LogToolCall_appends h a step tool args duration status err w :
  exists entry,
    sys.audit (snd (AuditLogger.LogToolCall h a step tool args duration
                      status err w))
    = sys.audit w ++ [entry] /\
    kindStatus entry = ("tool.run", status) /\
    logging.Step entry = step /\ logging.Tool entry = tool.
Proof.
  unfold AuditLogger.LogToolCall, AuditLogger.writeEntry, sys.bind, sys.now,
    sys.append. simpl.
  destruct err; eexists; repeat split.
Qed.

Lemma LogScanResult_appends h a step findings duration w :
  exists entry,
    sys.audit (snd (AuditLogger.LogScanResult h a step findings duration w))
    = sys.audit w ++ [entry] /\
    kindStatus entry = ("scan.result", "ok") /\
    logging.Step entry = step.
Proof.
  unfold AuditLogger.LogScanResult, AuditLogger.writeEntry, sys.bind, sys.now,
    sys.append. simpl. eexists; repeat split.
Qed.

(** A denied command leaves no record at all. *)
Lemma denied_command_leaves_no_record :
  tools.allowed Sample.runner "rm" ["-rf"; "/"] = false /\
  sys.audit
    (snd (tools.Run Sample.host Sample.runner "rm" ["-rf"; "/"] Sample.world))
  = [].
Proof. split; reflexivity. Qed.

(** ** Patch application *)

(** A diff whose target the guard denies: the result names no file. *)
Lemma denied_target_is_not_reported :
  tools.isPathAllowed Sample.host Sample.patcher "/etc/passwd" = false /\
  GoStrings.Contains Sample.diff "/etc/passwd" = true /\
  tools.ApplyError
    (fst (tools.ApplyPatch Sample.host Sample.patcher Sample.diff
            Sample.world))
  = "failed to parse diff: diff parsing not implemented" /\
  GoStrings.Contains
    (tools.ApplyError
       (fst (tools.ApplyPatch Sample.host Sample.patcher Sample.diff
               Sample.world)))
    "/etc/passwd" = false.
Proof. repeat split; reflexivity. Qed.

(** C5 (amended). [ApplyPatch] changes no file and applies no part of
    a patch set, on any diff: it stops at the parsing of the diff,
    which is not implemented, and returns a failure with that error.
    The path guard is not reached, so the result never says that a
    path is not allowed, whatever the diff targets. *)
Theorem ApplyPatch_stops_at_parsing (h : sys.Host) (p : tools.Patcher)
    (diff : string) (w : sys.World) :
  tools.ApplyPatch h p diff w
  = ({| tools.Applied := false; tools.Files := [];
        tools.ApplyError :=
          "failed to parse diff: diff parsing not implemented" |}, w) /\
  GoStrings.Contains
    (tools.ApplyError (fst (tools.ApplyPatch h p diff w)))
    "path not allowed" = false.
Proof. split; reflexivity. Qed.

(** ** The placeholders *)

(** C7 (the code departs from the claim). [Engine.Apply] and
    [Engine.CreatePR] return a success and no error on every input,
    whereas the placeholders of the patcher return an error that says
    the work is not implemented. *)
Theorem placeholders_of_the_engine_succeed (e : engine.Engine)
    (plan : engine.Plan) (approveLevel : string) (opts : engine.PROptions)
    (w : sys.World) :
  engine.Apply e plan approveLevel w
  = (sys.Ok {| engine.Success := true; engine.Error := EmptyString;
               engine.Files := [] |}, w) /\
  engine.CreatePR e opts w
  = (sys.Ok {| engine.URL := "https://github.com/example/repo/pull/123" |},
     w).
Proof. split; reflexivity. Qed.

Lemma placeholders_of_the_patcher_fail (p : tools.Patcher)
    (patch : tools.FilePatch) (diff : string) (w : sys.World) :
  tools.applySinglePatch p patch w
  = (Some "patch application not implemented", w) /\
  tools.parseUnifiedDiff diff = ([], Some "diff parsing not implemented").
Proof. split; reflexivity. Qed.

(** ** The exit code of a scan *)

Lemma countFindings_total results : forall n,
  engine.countFindings results n = n + totalFindings results.
Proof.
  induction results as [|r rest IH]; intros n; simpl; [lia|].
  rewrite IH. unfold totalFindings. simpl. lia.
Qed.

(** The scanner and the detector always return a result. *)
Lemma security_Scan_ok h c s w :
  exists results, fst (security.Scan h c s w) = sys.Ok results.
Proof.
  unfold security.Scan, sys.bind.
  destruct (security.runSemgrep h c s w) as [r1 w1].
  destruct (security.runCodeQL h s w1) as [r2 w2]. simpl. eauto.
Qed.

Lemma Detect_ok h src d w :
  exists result, fst (deadcode.Detect h src d w) = sys.Ok result.
Proof.
  unfold deadcode.Detect, sys.bind.
  destruct (sys.now h w) as [start w1].
  destruct (deadcode.getCoverage h d w1) as [coverage w2].
  destruct (deadcode.findGoFiles src d) as [goFiles [err|]];
    destruct (sys.since h start w2) as [t w3]; simpl; eauto.
Qed.

Lemma scanSecurity_exitCode h c e start l w :
  match fst (engine.scanSecurity h c e start l w) with
  | sys.Ok l' =>
      exists w1 results,
        fst (security.Scan h c (engine.scanner e) w1) = sys.Ok results /\
        engine.exitCode l' =
          (if (0 <? totalFindings results)%nat then 10%Z
           else engine.exitCode l)
  | sys.Err err =>
      exists results,
        security.GenerateSARIF (sys.mapLower h) c results = sys.Err err
  end.
Proof.
  unfold engine.scanSecurity, sys.bind.
  destruct (AuditLogger.LogToolCall _ _ _ _ _ _ _ _ w) as [u w1].
  destruct (security_Scan_ok h c (engine.scanner e) w1) as [results Hok].
  destruct (security.Scan h c (engine.scanner e) w1) as [r w2] eqn:Hscan.
  simpl in Hok. subst r.
  destruct (security.GenerateSARIF (sys.mapLower h) c results)
    as [sarif|err] eqn:Hsarif.
  - destruct (sys.since h start w2) as [d w3].
    destruct (AuditLogger.LogScanResult _ _ _ _ _ w3) as [u' w4].
    rewrite countFindings_total. simpl.
    destruct (0 <? totalFindings results)%nat eqn:Hpos; simpl;
      exists w1, results; rewrite Hscan, Hpos; auto.
  - destruct (sys.since h start w2) as [d w3].
    destruct (AuditLogger.LogToolCall _ _ _ _ _ _ _ _ w3) as [u' w4].
    simpl. eauto.
Qed.

Lemma scanDeadCode_exitCode h src e start l w :
  exists l',
    fst (engine.scanDeadCode h src e start l w) = sys.Ok l' /\
    exists w1 result,
      fst (deadcode.Detect h src (engine.detector e) w1) = sys.Ok result /\
      engine.exitCode l' =
        (if (0 <? List.length (deadcode.Symbols result))%nat
         then (if (engine.exitCode l =? 0)%Z then 11%Z else engine.exitCode l)
         else engine.exitCode l).
Proof.
  unfold engine.scanDeadCode, sys.bind.
  destruct (AuditLogger.LogToolCall _ _ _ _ _ _ _ _ w) as [u w1].
  destruct (Detect_ok h src (engine.detector e) w1) as [result Hok].
  destruct (deadcode.Detect h src (engine.detector e) w1) as [r w2] eqn:Hdet.
  simpl in Hok. subst r.
  destruct (sys.since h start w2) as [d w3].
  destruct (AuditLogger.LogScanResult _ _ _ _ _ w3) as [u' w4].
  destruct (0 <? List.length (deadcode.Symbols result))%nat eqn:Hpos; simpl;
    eexists; (split; [reflexivity|]); exists w1, result;
    rewrite Hdet, Hpos; auto.
Qed.

(** The two blocks of [Scan], each with the run it makes. *)
Lemma scanSecurity_run h c e start l w :
  exists results,
    fst (security.Scan h c (engine.scanner e)
           (snd (AuditLogger.LogToolCall h (engine.auditLogger e) "security"
                   "scanner" ["security"; "scan"] 0 "started" None w)))
    = sys.Ok results /\
    match fst (engine.scanSecurity h c e start l w) with
    | sys.Ok l' =>
        security.GenerateSARIF (sys.mapLower h) c results
        = sys.Ok (default EmptyString (engine.sarifData l')) /\
        engine.sarifData l' <> None /\
        engine.exitCode l' =
          (if (0 <? totalFindings results)%nat then 10%Z
           else engine.exitCode l)
    | sys.Err err =>
        security.GenerateSARIF (sys.mapLower h) c results = sys.Err err
    end.
Proof.
  unfold engine.scanSecurity, sys.bind.
  destruct (AuditLogger.LogToolCall _ _ _ _ _ _ _ _ w) as [u w1].
  change (snd (u, w1)) with w1.
  destruct (security_Scan_ok h c (engine.scanner e) w1) as [results Hok].
  exists results. split; [exact Hok|].
  destruct (security.Scan h c (engine.scanner e) w1) as [r w2].
  simpl in Hok. subst r.
  destruct (security.GenerateSARIF (sys.mapLower h) c results)
    as [sarif|err].
  - destruct (sys.since h start w2) as [d w3].
    destruct (AuditLogger.LogScanResult _ _ _ _ _ w3) as [u' w4].
    rewrite countFindings_total. simpl.
    destruct (0 <? totalFindings results)%nat; simpl; auto.
  - destruct (sys.since h start w2) as [d w3].
    destruct (AuditLogger.LogToolCall _ _ _ _ _ _ _ _ w3) as [u' w4].
    reflexivity.
Qed.

Lemma scanDeadCode_run h src e start l w :
  exists result l',
    fst (deadcode.Detect h src (engine.detector e)
           (snd (AuditLogger.LogToolCall h (engine.auditLogger e) "deadcode"
                   "detector" ["deadcode"; "detect"] 0 "started" None w)))
    = sys.Ok result /\
    fst (engine.scanDeadCode h src e start l w) = sys.Ok l' /\
    engine.sarifData l' = engine.sarifData l /\
    engine.exitCode l' =
      (if (0 <? List.length (deadcode.Symbols result))%nat
       then (if (engine.exitCode l =? 0)%Z then 11%Z else engine.exitCode l)
       else engine.exitCode l).
Proof.
  unfold engine.scanDeadCode, sys.bind.
  destruct (AuditLogger.LogToolCall _ _ _ _ _ _ _ _ w) as [u w1].
  change (snd (u, w1)) with w1.
  destruct (Detect_ok h src (engine.detector e) w1) as [result Hok].
  exists result.
  destruct (deadcode.Detect h src (engine.detector e) w1) as [r w2].
  simpl in Hok. subst r.
  destruct (sys.since h start w2) as [d w3].
  destruct (AuditLogger.LogScanResult _ _ _ _ _ w3) as [u' w4].
  destruct (0 <? List.length (deadcode.Symbols result))%nat; simpl;
    eexists; repeat split.
Qed.

(** C2. Whatever kinds are requested, a scan that returns carries the
    exit code 10 if the findings its scanner returned to it are
    positive in number, otherwise 11 if the dead-code symbols its
    detector returned to it are, otherwise 0, a kind that was not
    requested counting for nothing; it fails only when the SARIF
    document of the results of a requested security scan cannot be
    produced.  So 1 finding and 3 symbols give 10, no finding and 3
    symbols give 11, and nothing gives 0. *)
Theorem Scan_exit_code (h : sys.Host) (c : security.Codec)
    (src : deadcode.Source) (e : engine.Engine) (opts : engine.ScanOpts)
    (w : sys.World) :
  match fst (engine.Scan h c src e opts w) with
  | sys.Ok r =>
      engine.ExitCode r
      = exitCodeFor (countedFindings h c e opts w)
                    (countedSymbols h c src e opts w) /\
      (0 < countedFindings h c e opts w -> engine.ExitCode r = 10%Z) /\
      (countedFindings h c e opts w = 0 ->
       0 < countedSymbols h c src e opts w -> engine.ExitCode r = 11%Z) /\
      (countedFindings h c e opts w = 0 ->
       countedSymbols h c src e opts w = 0 -> engine.ExitCode r = 0%Z)
  | sys.Err err =>
      engine.Security opts = true /\
      exists results,
        scannerRun h c e w = sys.Ok results /\
        security.GenerateSARIF (sys.mapLower h) c results = sys.Err err
  end /\
  exitCodeFor 1 3 = 10%Z /\ exitCodeFor 0 3 = 11%Z /\ exitCodeFor 0 0 = 0%Z.
Proof.
  split; [|repeat split].
  assert (Hcases : forall code f s,
            code = exitCodeFor f s ->
            code = exitCodeFor f s /\
            (0 < f -> code = 10%Z) /\
            (f = 0 -> 0 < s -> code = 11%Z) /\
            (f = 0 -> s = 0 -> code = 0%Z)).
  { intros code f s ->. unfold exitCodeFor. split; [reflexivity|].
    destruct (Nat.ltb_spec 0 f), (Nat.ltb_spec 0 s);
      repeat split; intros; try reflexivity; lia. }
  unfold countedFindings, countedSymbols, scannerRun, detectorRun,
    scannerWorld, detectorWorld, engine.Scan, sys.bind.
  destruct (sys.now h w) as [start w0]. simpl.
  set (l0 := {| engine.sarifData := None; engine.exitCode := 0;
                engine.summary := "Scan completed successfully" |}).
  destruct (engine.Security opts).
  - destruct (scanSecurity_run h c e start l0 w0) as (results & Hscan & Hsec).
    rewrite Hscan.
    destruct (engine.scanSecurity h c e start l0 w0) as [[l1|err] w1];
      simpl in Hsec |- *; [|eauto].
    destruct Hsec as (_ & _ & Hcode1).
    destruct (engine.DeadCode opts).
    + destruct (scanDeadCode_run h src e start l1 w1)
        as (result & l2 & Hdet & Hl2 & _ & Hcode2).
      rewrite Hdet.
      destruct (engine.scanDeadCode h src e start l1 w1) as [r2 w2].
      simpl in Hl2. subst r2.
      destruct (sys.now h w2) as [createdAt w3]. simpl.
      apply Hcases. rewrite Hcode2, Hcode1. unfold exitCodeFor. simpl.
      destruct (0 <? totalFindings results)%nat;
        destruct (0 <? List.length (deadcode.Symbols result))%nat;
        reflexivity.
    + simpl. destruct (sys.now h w1) as [createdAt w3]. simpl.
      apply Hcases. rewrite Hcode1. unfold exitCodeFor. simpl.
      destruct (0 <? totalFindings results)%nat; reflexivity.
  - simpl. destruct (engine.DeadCode opts).
    + destruct (scanDeadCode_run h src e start l0 w0)
        as (result & l2 & Hdet & Hl2 & _ & Hcode2).
      rewrite Hdet.
      destruct (engine.scanDeadCode h src e start l0 w0) as [r2 w2].
      simpl in Hl2. subst r2.
      destruct (sys.now h w2) as [createdAt w3]. simpl.
      apply Hcases. rewrite Hcode2. unfold exitCodeFor. simpl.
      destruct (0 <? List.length (deadcode.Symbols result))%nat; reflexivity.
    + simpl. destruct (sys.now h w0) as [createdAt w3]. simpl.
      apply Hcases. reflexivity.
Qed.


(** A scan writes two records for each kind it starts, a [started]
    record and a closing one, however many commands the kind attempted
    and whether they were allowed. *)
Ltac log_step :=
  match goal with
  | |- context [AuditLogger.LogToolCall ?h ?a ?s ?t ?ar ?d ?st ?er ?w] =>
      let e := fresh "entry" in
      let H := fresh "Hlog" in
      let K := fresh "Hkind" in
      destruct (LogToolCall_appends h a s t ar d st er w) as (e & H & K & _);
      destruct (AuditLogger.LogToolCall h a s t ar d st er w) as [? ?];
      simpl in H
  | |- context [AuditLogger.LogScanResult ?h ?a ?s ?n ?d ?w] =>
      let e := fresh "entry" in
      let H := fresh "Hlog" in
      let K := fresh "Hkind" in
      destruct (LogScanResult_appends h a s n d w) as (e & H & K & _);
      destruct (AuditLogger.LogScanResult h a s n d w) as [? ?];
      simpl in H
  | |- context [sys.since ?h ?start ?w] =>
      let H := fresh "Hkeep" in
      pose proof (keepsAudit_since h start w) as H;
      destruct (sys.since h start w) as [? ?]; simpl in H
  end.

Lemma scanSecurity_audit h c e start l w :
  exists new,
    sys.audit (snd (engine.scanSecurity h c e start l w)) = sys.audit w ++ new /\
    map kindStatus new =
      match fst (engine.scanSecurity h c e start l w) with
      | sys.Ok _ => [("tool.run", "started"); ("scan.result", "ok")]
      | sys.Err _ => [("tool.run", "started"); ("tool.run", "error")]
      end.
Proof.
  unfold engine.scanSecurity, sys.bind. log_step.
  pose proof (keepsAudit_security_Scan h c (engine.scanner e) w0) as Hscan.
  destruct (security.Scan h c (engine.scanner e) w0) as [[results|err] w1];
    simpl in Hscan.
  - destruct (security.GenerateSARIF (sys.mapLower h) c results) as [sarif|err].
    + log_step. log_step.
      exists [entry; entry0]. split.
      * destruct (0 <? _)%nat; simpl;
          now rewrite Hlog0, Hkeep, Hscan, Hlog, <- app_assoc.
      * destruct (0 <? _)%nat; simpl; now rewrite Hkind, Hkind0.
    + log_step. log_step. exists [entry; entry0]. simpl. split.
      * now rewrite Hlog0, Hkeep, Hscan, Hlog, <- app_assoc.
      * now rewrite Hkind, Hkind0.
  - log_step. log_step. exists [entry; entry0]. simpl. split.
    + now rewrite Hlog0, Hkeep, Hscan, Hlog, <- app_assoc.
    + now rewrite Hkind, Hkind0.
Qed.

Lemma scanDeadCode_audit h src e start l w :
  exists new,
    sys.audit (snd (engine.scanDeadCode h src e start l w))
    = sys.audit w ++ new /\
    map kindStatus new = [("tool.run", "started"); ("scan.result", "ok")].
Proof.
  unfold engine.scanDeadCode, sys.bind. log_step.
  pose proof (keepsAudit_Detect h src (engine.detector e) w0) as Hdet.
  destruct (Detect_ok h src (engine.detector e) w0) as [result Hok].
  destruct (deadcode.Detect h src (engine.detector e) w0) as [r w1].
  simpl in Hdet, Hok. subst r.
  log_step. log_step. exists [entry; entry0]. split.
  - destruct (0 <? _)%nat; simpl;
      now rewrite Hlog0, Hkeep, Hdet, Hlog, <- app_assoc.
  - simpl. now rewrite Hkind, Hkind0.
Qed.

Lemma Scan_audit h c src e opts w :
  exists new,
    sys.audit (snd (engine.Scan h c src e opts w)) = sys.audit w ++ new /\
    map kindStatus new =
      match fst (engine.Scan h c src e opts w) with
      | sys.Ok _ =>
          (if engine.Security opts
           then [("tool.run", "started"); ("scan.result", "ok")] else [])
          ++ (if engine.DeadCode opts
              then [("tool.run", "started"); ("scan.result", "ok")] else [])
      | sys.Err _ => [("tool.run", "started"); ("tool.run", "error")]
      end.
Proof.
  unfold engine.Scan, sys.bind.
  destruct (sys.now h w) as [start w0] eqn:Hnow.
  assert (Hw0 : sys.audit w0 = sys.audit w).
  { pose proof (keepsAudit_now h w) as H. now rewrite Hnow in H. }
  set (l0 := {| engine.sarifData := None; engine.exitCode := 0;
                engine.summary := "Scan completed successfully" |}).
  assert (H1 : exists new1,
    sys.audit (snd ((if engine.Security opts
                     then engine.scanSecurity h c e start l0
                     else sys.ret (sys.Ok l0)) w0)) = sys.audit w ++ new1 /\
    map kindStatus new1 =
      match fst ((if engine.Security opts
                  then engine.scanSecurity h c e start l0
                  else sys.ret (sys.Ok l0)) w0) with
      | sys.Ok _ => if engine.Security opts
                    then [("tool.run", "started"); ("scan.result", "ok")]
                    else []
      | sys.Err _ => [("tool.run", "started"); ("tool.run", "error")]
      end).
  { destruct (engine.Security opts).
    - destruct (scanSecurity_audit h c e start l0 w0) as (new1 & Ha & Hk).
      exists new1. rewrite Ha, Hw0. split; [done|].
      rewrite Hk. now destruct (fst _).
    - exists []. simpl. now rewrite Hw0, app_nil_r. }
  destruct H1 as (new1 & Ha1 & Hk1).
  destruct ((if engine.Security opts
             then engine.scanSecurity h c e start l0
             else sys.ret (sys.Ok l0)) w0) as [[l1|err] w1];
    simpl in Ha1, Hk1; [|exists new1; auto].
  assert (H2 : exists l2 new2,
    fst ((if engine.DeadCode opts
          then engine.scanDeadCode h src e start l1
          else sys.ret (sys.Ok l1)) w1) = sys.Ok l2 /\
    sys.audit (snd ((if engine.DeadCode opts
                     then engine.scanDeadCode h src e start l1
                     else sys.ret (sys.Ok l1)) w1)) = sys.audit w1 ++ new2 /\
    map kindStatus new2 =
      if engine.DeadCode opts
      then [("tool.run", "started"); ("scan.result", "ok")] else []).
  { destruct (engine.DeadCode opts).
    - destruct (scanDeadCode_exitCode h src e start l1 w1) as (l2 & Hl2 & _).
      destruct (scanDeadCode_audit h src e start l1 w1) as (new2 & Ha & Hk).
      eauto.
    - exists l1, []. simpl. now rewrite app_nil_r. }
  destruct H2 as (l2 & new2 & Hl2 & Ha2 & Hk2).
  destruct ((if engine.DeadCode opts
             then engine.scanDeadCode h src e start l1
             else sys.ret (sys.Ok l1)) w1) as [r2 w2].
  simpl in Hl2, Ha2. subst r2. simpl.
  exists (new1 ++ new2). split.
  - now rewrite Ha2, Ha1, app_assoc.
  - now rewrite map_app, Hk1, Hk2.
Qed.

(** The three cases of the specification, run on the sample host. *)
Example scan_1_finding_3_symbols :
  fst <$> Sample.scan Sample.scanPolicy 1 3 Sample.both = Some 10%Z.
Proof. vm_compute. reflexivity. Qed.

Example scan_0_findings_3_symbols :
  fst <$> Sample.scan Sample.scanPolicy 0 3 Sample.both = Some 11%Z.
Proof. vm_compute. reflexivity. Qed.

Example scan_0_findings_0_symbols :
  fst <$> Sample.scan Sample.scanPolicy 0 0 Sample.both = Some 0%Z.
Proof. vm_compute. reflexivity. Qed.

(** Where the analyzer's report depends on when it is run, the exit
    code is that of the run the scan makes: 10 from a world where the
    analyzer is the first command, 0 from one where it is the
    second. *)
Example exit_code_follows_the_run :
  Sample.exitCodeFrom Sample.world = Some (10%Z, 1) /\
  Sample.exitCodeFrom
    {| sys.ticks := 0; sys.procs := [("true", [])]; sys.files := ∅;
       sys.audit := [] |}
  = Some (0%Z, 0).
Proof. split; vm_compute; reflexivity. Qed.

(** Under the default policy the analyzer's command line and the
    coverage run are both denied, and the audit log of the scan shows
    two records per kind, none of them about a denial. *)
Example scan_with_denied_commands :
  tools.allowed
    (tools.NewRunner
       (policy.Commands (policy.Allowlist_ policy.DefaultPolicy)) 0)
    "semgrep" ["--config"; "auto"; "--json"; "/ws"] = false /\
  snd <$> Sample.scan policy.DefaultPolicy 1 3 Sample.both
  = Some [("tool.run", "started"); ("scan.result", "ok");
          ("tool.run", "started"); ("scan.result", "ok")].
Proof. split; vm_compute; reflexivity. Qed.

(** C6 (amended). The runner writes no audit record, for a denied
    invocation as for an allowed one; the records of kind [tool.run]
    are those of the logger's [LogToolCall], each call appending
    exactly one record with the status it was given.  A scan calls it
    once with the status [started] for each kind it is asked for, and
    once more with the status [error] if the kind fails; what it
    appends is fixed by the kinds and by the outcome, whatever
    commands the kinds attempted and whether they were allowed. *)
Theorem audit_records_come_from_logger :
  (forall h r cmd args w,
      sys.audit (snd (tools.Run h r cmd args w)) = sys.audit w) /\
  (forall h a step tool args duration status err w,
      exists entry,
        sys.audit (snd (AuditLogger.LogToolCall h a step tool args duration
                          status err w))
        = sys.audit w ++ [entry] /\
        kindStatus entry = ("tool.run", status)) /\
  (forall h c src e opts w,
      exists new,
        sys.audit (snd (engine.Scan h c src e opts w)) = sys.audit w ++ new /\
        map kindStatus new
        = match fst (engine.Scan h c src e opts w) with
          | sys.Ok _ =>
              (if engine.Security opts
               then [("tool.run", "started"); ("scan.result", "ok")]
               else [])
              ++ (if engine.DeadCode opts
                  then [("tool.run", "started"); ("scan.result", "ok")]
                  else [])
          | sys.Err _ => [("tool.run", "started"); ("tool.run", "error")]
          end).
Proof.
  split; [|split].
  - intros h r cmd args w. apply keepsAudit_Run.
  - intros h a step tool args duration status err w.
    destruct (LogToolCall_appends h a step tool args duration status err w)
      as (entry & H1 & H2 & _).
    eauto.
  - intros h c src e opts w. apply Scan_audit.
Qed.

(** ** Redaction *)

Lemma HasPrefix_spec s : forall prefix,
  GoStrings.HasPrefix s prefix = true <-> exists post, s = prefix +:+ post.
Proof.
  induction s as [|d s IH]; intros [|c prefix]; simpl.
  - split; [eexists; reflexivity | done].
  - split; [discriminate | intros [post H]; discriminate].
  - split; [eexists; reflexivity | done].
  - rewrite andb_true_iff, IH. split.
    + intros [Hc [post ->]]. apply Ascii.eqb_eq in Hc as ->. eauto.
    + intros [post H]. rewrite append_cons in H. injection H as -> ->.
      split; [apply Ascii.eqb_refl | eauto].
Qed.

Lemma Contains_empty substr :
  GoStrings.Contains EmptyString substr
  = GoStrings.HasPrefix EmptyString substr || false.
Proof. reflexivity. Qed.

Lemma Contains_cons d s substr :
  GoStrings.Contains (String d s) substr
  = GoStrings.HasPrefix (String d s) substr || GoStrings.Contains s substr.
Proof. reflexivity. Qed.

Lemma Contains_spec substr : forall s,
  GoStrings.Contains s substr = true <->
  exists pre post, s = pre +:+ substr +:+ post.
Proof.
  induction s as [|d s IH].
  - rewrite Contains_empty, orb_true_iff, HasPrefix_spec. split.
    + intros [[post H]|H]; [|discriminate]. exists EmptyString, post. exact H.
    + intros (pre & post & H). left.
      destruct pre; [eauto | discriminate].
  - rewrite Contains_cons, orb_true_iff, HasPrefix_spec, IH. split.
    + intros [[post H]|(pre & post & ->)].
      * exists EmptyString, post. exact H.
      * exists (String d pre), post. reflexivity.
    + intros (pre & post & H). destruct pre as [|x pre].
      * left. eauto.
      * rewrite append_cons in H. injection H as -> ->. right. eauto.
Qed.

(** Facts about single bytes are checked on all 256 of them. *)
Lemma all_bytes (P : ascii -> bool) :
  forallb P (map ascii_of_nat (seq 0 256)) = true -> forall c, P c = true.
Proof.
  intros H c. rewrite forallb_forall in H. apply H.
  apply in_map_iff. exists (nat_of_ascii c).
  split; [apply ascii_nat_embedding|].
  apply in_seq. pose proof (nat_ascii_bounded c). lia.
Qed.

Lemma isLetter_spec r :
  logging.between "a" "z" r || logging.between "A" "Z" r = isLetter r.
Proof.
  apply eqb_prop.
  revert r. apply all_bytes. vm_compute. reflexivity.
Qed.

Lemma isDigit_spec r : logging.between "0" "9" r = isDigit r.
Proof.
  apply eqb_prop.
  revert r. apply all_bytes. vm_compute. reflexivity.
Qed.

Lemma lowerByte_foldsTo c k :
  lowerLetter k -> (GoStrings.lowerByte c = k <-> foldsTo c k).
Proof.
  intros [u Hk]. unfold foldsTo.
  assert (Hcheck : forall lu, In lu alphabet ->
            forall c,
              Ascii.eqb (GoStrings.lowerByte c) lu.1
              = Ascii.eqb c lu.1 || Ascii.eqb c lu.2).
  { intros lu Hlu c'. apply eqb_prop. revert c'. apply all_bytes.
    revert lu Hlu. apply List.Forall_forall.
    repeat constructor; vm_compute; reflexivity. }
  assert (Hpairs : forall lu lu', In lu alphabet -> In lu' alphabet ->
            lu.1 = lu'.1 -> lu = lu').
  { assert (Hall : forallb (fun lu : ascii * ascii =>
                     forallb (fun lu' : ascii * ascii =>
                       implb (Ascii.eqb lu.1 lu'.1) (Ascii.eqb lu.2 lu'.2))
                       alphabet) alphabet = true)
      by (vm_compute; reflexivity).
    intros [l1 u1] [l2 u2] Hlu Hlu' Hl. simpl in Hl. subst l2.
    rewrite forallb_forall in Hall. specialize (Hall _ Hlu).
    rewrite forallb_forall in Hall. specialize (Hall _ Hlu').
    simpl in Hall. rewrite Ascii.eqb_refl in Hall. simpl in Hall.
    apply Ascii.eqb_eq in Hall. now subst. }
  specialize (Hcheck (k, u) Hk c). simpl in Hcheck.
  split.
  - intros H. apply Ascii.eqb_eq in H. rewrite Hcheck in H.
    apply orb_true_iff in H as [H|H]; apply Ascii.eqb_eq in H.
    + now left.
    + right. now subst u.
  - intros H. apply Ascii.eqb_eq. rewrite Hcheck. apply orb_true_iff.
    destruct H as [->|H].
    + left. apply Ascii.eqb_refl.
    + right. specialize (Hpairs (k, u) (k, c) Hk H eq_refl).
      injection Hpairs as ->. apply Ascii.eqb_refl.
Qed.

Lemma lowerASCII_append a b :
  GoStrings.lowerASCII (a +:+ b)
  = GoStrings.lowerASCII a +:+ GoStrings.lowerASCII b.
Proof.
  induction a as [|x a IH]; [done|].
  rewrite append_cons. simpl. now rewrite IH, append_cons.
Qed.

Lemma lowerASCII_split s : forall x y,
  GoStrings.lowerASCII s = x +:+ y ->
  exists a b, s = a +:+ b /\ GoStrings.lowerASCII a = x
              /\ GoStrings.lowerASCII b = y.
Proof.
  induction s as [|c s IH]; intros x y H.
  - destruct x; [|discriminate]. destruct y; [|discriminate].
    exists EmptyString, EmptyString. auto.
  - destruct x as [|c' x].
    + exists EmptyString, (String c s). auto.
    + simpl in H. rewrite append_cons in H. injection H as Hc Hs.
      destruct (IH _ _ Hs) as (a & b & -> & Ha & Hb).
      exists (String c a), b. simpl. rewrite Ha, Hc. auto.
Qed.

Lemma lowerASCII_spells mid : forall kw,
  lowerWord kw -> (GoStrings.lowerASCII mid = kw <-> spells mid kw).
Proof.
  unfold spells, lowerWord.
  induction mid as [|c mid IH]; intros [|k kw] Hkw; simpl.
  - split; [constructor | done].
  - split; [discriminate | intros H; inversion H].
  - split; [discriminate | intros H; inversion H].
  - inversion Hkw as [|? ? Hk Hrest]; subst. split.
    + intros H. injection H as Hc Hmid. constructor.
      * now apply lowerByte_foldsTo.
      * now apply IH.
    + intros H. inversion H as [|? ? ? ? Hc Hmid]; subst. f_equal.
      * now apply lowerByte_foldsTo.
      * now apply IH.
Qed.

Lemma Contains_lowerASCII s kw :
  lowerWord kw ->
  GoStrings.Contains (GoStrings.lowerASCII s) kw = true <->
  exists pre mid post, s = pre +:+ mid +:+ post /\ spells mid kw.
Proof.
  intros Hkw. rewrite Contains_spec. split.
  - intros (pre & post & H).
    destruct (lowerASCII_split _ _ _ H) as (a & rest & -> & Ha & Hrest).
    destruct (lowerASCII_split _ _ _ Hrest) as (mid & b & -> & Hmid & Hb).
    exists a, mid, b. split; [done|]. now apply lowerASCII_spells.
  - intros (pre & mid & post & -> & Hmid).
    exists (GoStrings.lowerASCII pre), (GoStrings.lowerASCII post).
    rewrite !lowerASCII_append. f_equal. f_equal.
    now apply lowerASCII_spells.
Qed.

Lemma isASCII_spec s : GoStrings.isASCII s = true <-> asciiText s.
Proof.
  unfold asciiText. induction s as [|c s IH]; simpl.
  - split; [constructor | done].
  - rewrite andb_true_iff, IH, Nat.ltb_lt. split.
    + intros [Hc Hs]. now constructor.
    + intros H. inversion H; subst. auto.
Qed.

Lemma sensitive_lowerWord kw : In kw logging.sensitive -> lowerWord kw.
Proof.
  revert kw. apply List.Forall_forall. unfold lowerWord, lowerLetter.
  repeat constructor;
    (eexists; unfold alphabet; simpl;
     repeat first [left; reflexivity | right]).
Qed.

Lemma anyContains_spec lower patterns :
  logging.anyContains lower patterns = true <->
  exists kw, In kw patterns /\ GoStrings.Contains lower kw = true.
Proof.
  induction patterns as [|k rest IH]; simpl.
  - split; [discriminate | intros (? & [] & _)].
  - destruct (GoStrings.Contains lower k) eqn:E.
    + split; [eauto | done].
    + rewrite IH. split.
      * intros (kw & Hin & H). eauto.
      * intros (kw & [->|Hin] & H); [congruence | eauto].
Qed.

Lemma containsSensitivePattern_spec mapLower s :
  logging.containsSensitivePattern mapLower s = true <->
  exists kw, In kw ["key"; "token"; "secret"; "password"; "auth"]
             /\ containsFold mapLower s kw.
Proof.
  unfold logging.containsSensitivePattern, GoStrings.ToLower, containsFold.
  rewrite anyContains_spec.
  pose proof (isASCII_spec s) as Hascii.
  destruct (GoStrings.isASCII s).
  - assert (Hs : asciiText s) by now apply Hascii.
    split; intros (kw & Hin & H); exists kw; (split; [exact Hin|]).
    + left. split; [exact Hs|].
      now apply Contains_lowerASCII; [apply sensitive_lowerWord|].
    + destruct H as [[_ H]|[Hn _]]; [|done].
      now apply Contains_lowerASCII; [apply sensitive_lowerWord|].
  - assert (Hs : ~ asciiText s).
    { intros H. apply Hascii in H. discriminate. }
    split; intros (kw & Hin & H); exists kw; (split; [exact Hin|]).
    + right. split; [exact Hs|]. now apply Contains_spec.
    + destruct H as [[H _]|[_ H]]; [done|]. now apply Contains_spec.
Qed.

Lemma hasChar_cons P c s :
  hasChar P (String c s) <-> P c = true \/ hasChar P s.
Proof.
  unfold hasChar. split.
  - intros (pre & x & post & H & Hx). destruct pre as [|y pre].
    + injection H as -> ->. auto.
    + rewrite append_cons in H. injection H as -> ->. right. eauto.
  - intros [Hc|(pre & x & post & -> & Hx)].
    + exists EmptyString, c, s. auto.
    + exists (String c pre), x, post. auto.
Qed.

Lemma hasChar_empty P : ~ hasChar P EmptyString.
Proof. intros (pre & x & post & H & _). destruct pre; discriminate. Qed.

Lemma runesLoop_spec s : forall hasAlpha hasNum,
  (fst (logging.runesLoop s hasAlpha hasNum) = true <->
     hasAlpha = true \/ hasChar isLetter s) /\
  (snd (logging.runesLoop s hasAlpha hasNum) = true <->
     hasNum = true \/ hasChar isDigit s).
Proof.
  induction s as [|r s IH]; intros hasAlpha hasNum; simpl.
  - pose proof (hasChar_empty isLetter). pose proof (hasChar_empty isDigit).
    tauto.
  - destruct (IH (if logging.between "a" "z" r || logging.between "A" "Z" r
                  then true else hasAlpha)
                 (if logging.between "0" "9" r then true else hasNum))
      as [Ha Hn].
    rewrite Ha, Hn, !hasChar_cons, <- isLetter_spec, <- isDigit_spec.
    destruct (logging.between "a" "z" r || logging.between "A" "Z" r);
      destruct (logging.between "0" "9" r); intuition congruence.
Qed.

Lemma looksLikeToken_spec s :
  logging.looksLikeToken s = true <->
  20 <= String.length s /\ hasChar isLetter s /\ hasChar isDigit s.
Proof.
  unfold logging.looksLikeToken.
  destruct (Nat.ltb_spec (String.length s) 20) as [Hlt|Hge].
  - split; [discriminate | lia].
  - destruct (runesLoop_spec s false false) as [Ha Hn].
    destruct (logging.runesLoop s false false) as [hasAlpha hasNum].
    simpl in Ha, Hn. rewrite andb_true_iff, Ha, Hn.
    intuition congruence.
Qed.

(** The test of [maybeRedactArgs] is the condition [Redactable]. *)
Lemma redactArg_spec mapLower arg :
  (Redactable mapLower arg -> logging.redactArg mapLower arg = "[REDACTED]") /\
  (~ Redactable mapLower arg -> logging.redactArg mapLower arg = arg).
Proof.
  unfold logging.redactArg, Redactable.
  destruct ((20 <? String.length arg)%nat
            && (logging.containsSensitivePattern mapLower arg
                || logging.looksLikeToken arg)) eqn:E.
  - split; [done|]. intros Hn. exfalso. apply Hn.
    apply andb_true_iff in E as [Hlen Hor]. apply Nat.ltb_lt in Hlen.
    split; [exact Hlen|]. apply orb_true_iff in Hor as [H|H].
    + left. now apply containsSensitivePattern_spec.
    + right. now apply looksLikeToken_spec.
  - split; [|done]. intros [Hlen Hor]. exfalso.
    apply andb_false_iff in E as [E|E].
    + apply Nat.ltb_ge in E. lia.
    + apply orb_false_iff in E as [E1 E2]. destruct Hor as [H|H].
      * apply containsSensitivePattern_spec in H. congruence.
      * apply looksLikeToken_spec in H. congruence.
Qed.

(** An argument of 13 characters is replaced by the marker, whatever
    the case tables: it has 22 bytes, a letter and a digit. *)
Lemma accented_is_redacted mapLower :
  logging.redactArg mapLower Sample.accented = "[REDACTED]".
Proof.
  unfold logging.redactArg.
  replace (logging.looksLikeToken Sample.accented) with true
    by (vm_compute; reflexivity).
  rewrite orb_true_r. reflexivity.
Qed.

Lemma short_argument_is_redacted :
  characters Sample.accented = 13 /\
  String.length Sample.accented = 22 /\
  logging.maybeRedactArgs (sys.mapLower Sample.host) Sample.logger
    ["scan"; Sample.accented]
  = ["scan"; "[REDACTED]"].
Proof.
  split; [reflexivity|]. split; [reflexivity|].
  unfold logging.maybeRedactArgs. simpl.
  now rewrite accented_is_redacted.
Qed.

(** C8 (amended). With redaction enabled, the argument at each
    position is replaced by the marker if and only if it is longer
    than 20 bytes and either contains one of [key], [token],
    [secret], [password], [auth] case-insensitively (up to the case of
    its letters if it is ASCII text, after Go's Unicode lower-casing
    otherwise) or has at least 20 bytes with an ASCII letter and an
    ASCII digit among them; otherwise it is kept.  An argument of at
    most 20 bytes is therefore kept, whatever it contains. *)
Theorem maybeRedactArgs_spec (mapLower : string -> string)
    (a : logging.AuditLogger) (args : list string) (i : nat)
    (arg : string) :
  logging.redact a = true ->
  args !! i = Some arg ->
  List.length (logging.maybeRedactArgs mapLower a args) = List.length args /\
  (Redactable mapLower arg ->
     logging.maybeRedactArgs mapLower a args !! i = Some "[REDACTED]") /\
  (~ Redactable mapLower arg ->
     logging.maybeRedactArgs mapLower a args !! i = Some arg) /\
  (String.length arg <= 20 ->
     logging.maybeRedactArgs mapLower a args !! i = Some arg).
Proof.
  intros Hredact Harg. unfold logging.maybeRedactArgs. rewrite Hredact. simpl.
  rewrite length_map, list_lookup_fmap, Harg. simpl.
  destruct (redactArg_spec mapLower arg) as [Hyes Hno].
  repeat split.
  - intros H. now rewrite Hyes.
  - intros H. now rewrite Hno.
  - intros Hshort. rewrite Hno; [done|]. intros [Hlong _]. lia.
Qed.

Lemma maybeRedactArgs_spec_witness :
  logging.maybeRedactArgs (sys.mapLower Sample.host) Sample.logger
    ["run"; "--API-Token=abcdefghijklm"; "my-token"] !! 1
  = Some "[REDACTED]" /\
  logging.maybeRedactArgs (sys.mapLower Sample.host) Sample.logger
    ["run"; "--API-Token=abcdefghijklm"; "my-token"] !! 2
  = Some "my-token".
Proof.
  split.
  - apply (maybeRedactArgs_spec (sys.mapLower Sample.host) Sample.logger
             ["run"; "--API-Token=abcdefghijklm"; "my-token"] 1
             "--API-Token=abcdefghijklm" eq_refl eq_refl).
    split; [simpl; lia|]. left. exists "token". split; [simpl; tauto|].
    left. split; [repeat constructor|].
    exists "--API-", "Token", "=abcdefghijklm". split; [reflexivity|].
    unfold spells. simpl.
    repeat (apply List.Forall2_cons;
            [first [left; reflexivity
                   | right; unfold alphabet; simpl;
                     repeat first [left; reflexivity | right]]|]).
    apply List.Forall2_nil.
  - apply (maybeRedactArgs_spec (sys.mapLower Sample.host) Sample.logger
             ["run"; "--API-Token=abcdefghijklm"; "my-token"] 2
             "my-token" eq_refl eq_refl).
    simpl. lia.
Defined.

(** Without redaction the arguments are logged as they are. *)
Lemma maybeRedactArgs_off mapLower (a : logging.AuditLogger)
    (args : list string) :
  logging.redact a = false -> logging.maybeRedactArgs mapLower a args = args.
Proof. intros H. unfold logging.maybeRedactArgs. now rewrite H. Qed.

(** The marker itself is short and is kept as it is. *)
Example marker_is_kept mapLower :
  logging.redactArg mapLower "[REDACTED]" = "[REDACTED]".
Proof. reflexivity. Qed.

(** * Further properties of the code *)

(** ** The policy *)

(** X1. A policy validates exactly when its allowlist is not empty and
    its limits on iterations and on files are positive; the empty
    allowlist is reported before a bad limit, and the iterations before
    the files. *)
Theorem Validate_spec (p : policy.Policy) :
  (policy.Validate p = None <->
     policy.Commands (policy.Allowlist_ p) <> [] /\
     (0 < policy.MaxIterations (policy.Limits_ p))%Z /\
     (0 < policy.MaxFiles (policy.Limits_ p))%Z) /\
  (policy.Commands (policy.Allowlist_ p) = [] ->
     policy.Validate p = Some "no allowlisted commands") /\
  (policy.Commands (policy.Allowlist_ p) <> [] ->
   (policy.MaxIterations (policy.Limits_ p) <= 0)%Z ->
     policy.Validate p = Some "max_iterations must be positive").
Proof.
  unfold policy.Validate.
  destruct (policy.Commands (policy.Allowlist_ p)) as [|c cs]; simpl.
  - repeat split; try done. intros (H & _). done.
  - destruct (Z.leb_spec (policy.MaxIterations (policy.Limits_ p)) 0);
      destruct (Z.leb_spec (policy.MaxFiles (policy.Limits_ p)) 0);
      repeat split; try done; try lia; intros (_ & ? & ?); lia.
Qed.

(** X2. A policy that [Load] returns always validates: the built-in
    default for the empty path, and a decoded file only after its
    validation; a file that cannot be read or decoded, or that fails
    validation, gives that error and no policy. *)
Theorem Load_returns_valid (st : policyLoad.Store) (path : string)
    (p : policy.Policy) :
  policyLoad.Load st path = sys.Ok p ->
  policy.Validate p = None /\
  (path = EmptyString -> p = policy.DefaultPolicy) /\
  (path <> EmptyString ->
     exists data, policyLoad.readFile st path = sys.Ok data
                  /\ policyLoad.unmarshal st data = sys.Ok p).
Proof.
  unfold policyLoad.Load.
  destruct (String.eqb_spec path EmptyString) as [->|Hne].
  - intros H. injection H as <-. repeat split; done.
  - destruct (policyLoad.readFile st path) as [data|err]; [|discriminate].
    destruct (policyLoad.unmarshal st data) as [pol|err] eqn:Hd;
      [|discriminate].
    destruct (policy.Validate pol) eqn:Hv; [discriminate|].
    intros H. injection H as <-. repeat split; [done|done|eauto].
Qed.

Lemma Load_returns_valid_witness :
  policy.Validate policy.DefaultPolicy = None /\
  policyLoad.Load SampleIO.store "empty.yaml"
  = sys.Err "no allowlisted commands".
Proof.
  split.
  - apply (Load_returns_valid SampleIO.store "policy.yaml"
             policy.DefaultPolicy eq_refl).
  - reflexivity.
Defined.

(** ** The path guard, continued *)

Lemma denyGlobsLoop_true cleanPath denyGlobs :
  tools.denyGlobsLoop cleanPath denyGlobs = true <->
  exists denyGlob, In denyGlob denyGlobs
                   /\ GoFilepath.Match denyGlob cleanPath = true.
Proof.
  induction denyGlobs as [|g rest IH]; simpl.
  - split; [discriminate | intros (? & [] & _)].
  - destruct (GoFilepath.Match g cleanPath) eqn:E.
    + split; [|done]. intros _. exists g. auto.
    + rewrite IH. split.
      * intros (x & Hin & Hx). exists x. auto.
      * intros (x & [->|Hin] & Hx); [congruence|]. exists x. auto.
Qed.

Lemma loop_false_iff (b : bool) (P : Prop) :
  (b = true <-> P) -> (b = false <-> ~ P).
Proof. destruct b; intuition congruence. Qed.

(** X3. A path that the guard allows has, in its cleaned form, no
    deny-path as a prefix and matches no deny glob, both absolute
    forms could be computed, and the absolute workspace is a prefix of
    the absolute path. *)
Theorem isPathAllowed_true (h : sys.Host) (p : tools.Patcher)
    (path : string) :
  tools.isPathAllowed h p path = true ->
  (forall denyPath, In denyPath (tools.DenyPaths p) ->
     GoStrings.HasPrefix (GoFilepath.Clean path) denyPath = false) /\
  (forall denyGlob, In denyGlob (tools.DenyGlobs p) ->
     GoFilepath.Match denyGlob (GoFilepath.Clean path) = false) /\
  exists absPath absWorkspace,
    GoFilepath.Abs (sys.getwd h) (GoFilepath.Clean path) = Some absPath /\
    GoFilepath.Abs (sys.getwd h) (tools.Workspace p) = Some absWorkspace /\
    GoStrings.HasPrefix absPath absWorkspace = true.
Proof.
  unfold tools.isPathAllowed. intros H.
  destruct (tools.denyPathsLoop _ _) eqn:Hp; [discriminate|].
  destruct (tools.denyGlobsLoop _ _) eqn:Hg; [discriminate|].
  destruct (GoFilepath.Abs (sys.getwd h) (GoFilepath.Clean path))
    as [absPath|]; [|discriminate].
  destruct (GoFilepath.Abs (sys.getwd h) (tools.Workspace p))
    as [absWorkspace|]; [|discriminate].
  repeat split.
  - intros d Hin.
    destruct (GoStrings.HasPrefix (GoFilepath.Clean path) d) eqn:E; [|done].
    apply (loop_false_iff _ _ (denyPathsLoop_true _ _)) in Hp.
    exfalso. apply Hp. eauto.
  - intros g Hin.
    destruct (GoFilepath.Match g (GoFilepath.Clean path)) eqn:E; [|done].
    apply (loop_false_iff _ _ (denyGlobsLoop_true _ _)) in Hg.
    exfalso. apply Hg. eauto.
  - eauto.
Qed.

Lemma isPathAllowed_true_witness :
  tools.isPathAllowed Sample.host Sample.patcher "pkg/a.go" = true /\
  forall denyGlob, In denyGlob (tools.DenyGlobs Sample.patcher) ->
    GoFilepath.Match denyGlob (GoFilepath.Clean "pkg/a.go") = false.
Proof.
  split; [reflexivity|].
  exact (proj1 (proj2 (isPathAllowed_true Sample.host Sample.patcher
                         "pkg/a.go" eq_refl))).
Defined.

Lemma HasPrefix_empty s : GoStrings.HasPrefix s EmptyString = true.
Proof. now destruct s. Qed.

(** X4. Two ways to deny everything: an empty string among the deny
    paths is a prefix of every path, and when the working directory
    cannot be read no relative path or relative workspace has an
    absolute form. *)
Theorem isPathAllowed_denies_all (h : sys.Host) (p : tools.Patcher)
    (path : string) :
  (In EmptyString (tools.DenyPaths p) ->
     tools.isPathAllowed h p path = false) /\
  (sys.getwd h = None ->
   GoFilepath.IsAbs (GoFilepath.Clean path) = false
   \/ GoFilepath.IsAbs (tools.Workspace p) = false ->
     tools.isPathAllowed h p path = false).
Proof.
  split.
  - intros Hin. unfold tools.isPathAllowed.
    replace (tools.denyPathsLoop _ _) with true; [done|].
    symmetry. apply denyPathsLoop_true. exists EmptyString.
    split; [done | apply HasPrefix_empty].
  - intros Hwd Hrel. unfold tools.isPathAllowed, GoFilepath.Abs.
    rewrite Hwd.
    destruct (tools.denyPathsLoop _ _); [done|].
    destruct (tools.denyGlobsLoop _ _); [done|].
    destruct Hrel as [-> | ->]; [done|].
    now destruct (GoFilepath.IsAbs (GoFilepath.Clean path)).
Qed.

Lemma isPathAllowed_denies_all_witness :
  tools.isPathAllowed Sample.host
    (tools.NewPatcher "/ws" [EmptyString] []) "/ws/a.go" = false.
Proof.
  refine (proj1 (isPathAllowed_denies_all Sample.host
                   (tools.NewPatcher "/ws" [EmptyString] []) "/ws/a.go") _).
  simpl. left. reflexivity.
Defined.

Lemma anyPrefix_denyPathsLoop path denyPaths :
  policy.anyPrefix path denyPaths = tools.denyPathsLoop path denyPaths.
Proof. induction denyPaths as [|d rest IH]; simpl; [done|]. now rewrite IH. Qed.

Lemma anyGlob_denyGlobsLoop path denyGlobs :
  policy.anyGlob path denyGlobs = tools.denyGlobsLoop path denyGlobs.
Proof. induction denyGlobs as [|g rest IH]; simpl; [done|]. now rewrite IH. Qed.

(** X5. The guard of a patcher built from a policy's deny lists is at
    least as strict as the policy's own path check: a path the patcher
    allows is allowed by [Policy.IsPathAllowed] in its cleaned form.
    The policy's check does not clean its argument, and a path it
    allows as written can be one the patcher denies. *)
Theorem patcher_guard_implies_policy_guard (h : sys.Host)
    (pol : policy.Policy) (workspace path : string) :
  (tools.isPathAllowed h
     (tools.NewPatcher workspace
        (policy.DenyPaths (policy.Security pol))
        (policy.DenyGlobs (policy.Security pol))) path = true ->
   policy.IsPathAllowed pol (GoFilepath.Clean path) = true) /\
  policy.IsPathAllowed policy.DefaultPolicy "/ws/../etc/passwd" = true /\
  tools.isPathAllowed h
    (tools.NewPatcher "/"
       (policy.DenyPaths (policy.Security policy.DefaultPolicy))
       (policy.DenyGlobs (policy.Security policy.DefaultPolicy)))
    "/ws/../etc/passwd" = false.
Proof.
  split; [|split; reflexivity].
  unfold tools.isPathAllowed, policy.IsPathAllowed, tools.NewPatcher.
  cbn [tools.DenyPaths tools.DenyGlobs tools.Workspace].
  intros H.
  destruct (tools.denyPathsLoop _ _) eqn:Hp; [discriminate|].
  destruct (tools.denyGlobsLoop _ _) eqn:Hg; [discriminate|].
  now rewrite anyPrefix_denyPathsLoop, Hp, anyGlob_denyGlobsLoop, Hg.
Qed.

Lemma patcher_guard_implies_policy_guard_witness :
  policy.IsPathAllowed policy.DefaultPolicy (GoFilepath.Clean "/ws//a.go")
  = true.
Proof.
  apply (proj1 (patcher_guard_implies_policy_guard Sample.host
                  policy.DefaultPolicy "/ws" "/ws//a.go")).
  reflexivity.
Defined.

(** ** The runner, continued *)

Lemma starts_ret {A} (a : A) : starts (sys.ret a) [].
Proof. intros w. simpl. now rewrite app_nil_r. Qed.

Lemma starts_now h : starts (sys.now h) [].
Proof. intros w. simpl. now rewrite app_nil_r. Qed.

Lemma starts_since h start : starts (sys.since h start) [].
Proof. intros w. simpl. now rewrite app_nil_r. Qed.

Lemma starts_append entry : starts (sys.append entry) [].
Proof. intros w. simpl. now rewrite app_nil_r. Qed.

Lemma starts_bind {A B} (m : sys.M A) (k : A -> sys.M B) c1 c2 :
  starts m c1 -> (forall a, starts (k a) c2) ->
  starts (sys.bind m k) (c1 ++ c2).
Proof.
  intros Hm Hk w. unfold sys.bind. destruct (Hm w) as [Hp Hf].
  destruct (m w) as [a w1]. simpl in Hp, Hf.
  destruct (Hk a w1) as [Hp2 Hf2]. split.
  - now rewrite Hp2, Hp, app_assoc.
  - intros Hnil. apply app_eq_nil in Hnil as [-> ->].
    now rewrite Hf2, Hf.
Qed.

Lemma starts_bind_l {A B} (m : sys.M A) (k : A -> sys.M B) c :
  starts m [] -> (forall a, starts (k a) c) -> starts (sys.bind m k) c.
Proof. intros Hm Hk. apply (starts_bind m k [] c Hm Hk). Qed.

Lemma starts_bind_r {A B} (m : sys.M A) (k : A -> sys.M B) c :
  starts m c -> (forall a, starts (k a) []) -> starts (sys.bind m k) c.
Proof.
  intros Hm Hk. rewrite <- (app_nil_r c). apply (starts_bind m k c [] Hm Hk).
Qed.

Create HintDb procs.
#[local] Hint Resolve starts_ret starts_now starts_since starts_append : procs.

(** Goals about code that starts nothing. *)
Ltac starts_nothing :=
  repeat first
    [ apply starts_bind_l; [|intros ?]
    | solve [auto with procs]
    | match goal with
      | |- starts (if ?b then _ else _) _ => destruct b
      | |- starts (match ?x with _ => _ end) _ => destruct x
      | |- starts (let (_, _) := ?x in _) _ => destruct x
      end ].

Lemma starts_Run h r cmd args :
  starts (tools.Run h r cmd args) (started r cmd args).
Proof.
  intros w. unfold tools.Run, started, sys.bind, sys.since, sys.now, sys.ret.
  simpl. destruct (tools.allowed r cmd args); simpl; [|now rewrite app_nil_r].
  split; [done | discriminate].
Qed.

Lemma started_allowlisted r cmd args c :
  In c (started r cmd args) -> In (c.1 :: c.2) (tools.Allow r).
Proof.
  unfold started. destruct (tools.allowed r cmd args) eqn:E; [|intros []].
  intros [<-|[]]. simpl. now apply allowLoop_In.
Qed.

(** X6. [Run] hands a command to [os/exec] exactly when the command
    line is on the allowlist, and then that command line and no other,
    so that no process is started and no file changes for a command
    that is not allowed; it reads the clock twice; its result has no
    error exactly when the command was allowed and [os/exec] reported
    none, whatever the exit code, which is the one of the process
    state and 0 when there is none. *)
Theorem Run_starts_iff_allowed (h : sys.Host) (r : tools.Runner)
    (cmd : string) (args : list string) (w : sys.World) :
  let o := sys.run h (List.length (sys.procs w)) cmd args (tools.Timeout r) in
  sys.procs (snd (tools.Run h r cmd args w))
  = sys.procs w ++ (if tools.allowed r cmd args then [(cmd, args)] else []) /\
  sys.files (snd (tools.Run h r cmd args w))
  = (if tools.allowed r cmd args then sys.effect o (sys.files w)
     else sys.files w) /\
  sys.ticks (snd (tools.Run h r cmd args w)) = S (S (sys.ticks w)) /\
  (tools.Error (fst (tools.Run h r cmd args w)) = None <->
     tools.allowed r cmd args = true /\ sys.execErr o = None) /\
  (tools.allowed r cmd args = true ->
     tools.ExitCode (fst (tools.Run h r cmd args w))
     = default 0%Z (sys.processState o)).
Proof.
  unfold tools.Run, sys.bind, sys.since, sys.now, sys.ret, sys.combinedOutput.
  simpl. destruct (tools.allowed r cmd args); simpl.
  - repeat split; try done. now intros [_ H].
  - rewrite app_nil_r. repeat split; try done. now intros [H _].
Qed.

Lemma starts_Build h r target :
  exists cmd args, starts (tools.Build h r target) (started r cmd args)
                   \/ starts (tools.Build h r target) [].
Proof.
  unfold tools.Build. destruct (String.eqb target EmptyString).
  - destruct (sys.lookPath h "go"); [eexists _, _; left; apply starts_Run|].
    destruct (sys.lookPath h "cargo"); [eexists _, _; left; apply starts_Run|].
    exists EmptyString, []. right. apply starts_ret.
  - eexists _, _. left. apply starts_Run.
Qed.

(** X7. The convenience wrappers add no bypass: [Build], [Test] and
    [Coverage] start at most one process each, and only a command line
    that the allowlist holds as a tuple. *)
Theorem wrappers_add_no_bypass (h : sys.Host) (r : tools.Runner)
    (target pattern : string) (w : sys.World) :
  forall w',
    w' = snd (tools.Build h r target w) \/
    w' = snd (tools.Test h r pattern w) \/
    w' = snd (tools.Coverage h r w) ->
  exists new,
    sys.procs w' = sys.procs w ++ new /\
    List.length new <= 1 /\
    forall c, In c new -> In (c.1 :: c.2) (tools.Allow r).
Proof.
  assert (Hstarted : forall (m : sys.M tools.RunResult) cmd args,
             starts m (started r cmd args) ->
             exists new,
               sys.procs (snd (m w)) = sys.procs w ++ new /\
               List.length new <= 1 /\
               forall c, In c new -> In (c.1 :: c.2) (tools.Allow r)).
  { intros m cmd args Hm. exists (started r cmd args).
    split; [apply Hm|]. split.
    - unfold started. destruct (tools.allowed r cmd args); simpl; lia.
    - apply started_allowlisted. }
  intros w' [->|[->| ->]].
  - destruct (starts_Build h r target) as (cmd & args & [H|H]).
    + eapply Hstarted, H.
    + exists []. split; [apply H|]. split; [simpl; lia | intros c []].
  - eapply Hstarted. unfold tools.Test. apply starts_Run.
  - eapply Hstarted. unfold tools.Coverage. apply starts_Run.
Qed.

Lemma wrappers_add_no_bypass_witness :
  exists new,
    sys.procs (snd (tools.Coverage Sample.host Sample.runner Sample.world))
    = sys.procs Sample.world ++ new /\
    List.length new <= 1 /\
    forall c, In c new -> In (c.1 :: c.2) (tools.Allow Sample.runner).
Proof.
  apply (wrappers_add_no_bypass Sample.host Sample.runner "./cmd" "TestRun"
           Sample.world).
  right. right. reflexivity.
Defined.

(** What the wrappers ask for: [Build] of a target asks for
    [go build target]; of no target, for [go build ./...] if [go] is
    installed, else for [cargo build] if [cargo] is, else it fails
    without touching anything; [Test] asks for [go test], the pattern
    after [-run] if there is one, then [-cover ./...]. *)
Lemma wrappers_command_lines (h : sys.Host) (r : tools.Runner)
    (target pattern : string) (w : sys.World) :
  (target <> EmptyString ->
     tools.Build h r target w = tools.Run h r "go" ["build"; target] w) /\
  (sys.lookPath h "go" = true ->
     tools.Build h r EmptyString w = tools.Run h r "go" ["build"; "./..."] w) /\
  (sys.lookPath h "go" = false -> sys.lookPath h "cargo" = true ->
     tools.Build h r EmptyString w = tools.Run h r "cargo" ["build"] w) /\
  (sys.lookPath h "go" = false -> sys.lookPath h "cargo" = false ->
     snd (tools.Build h r EmptyString w) = w /\
     tools.Error (fst (tools.Build h r EmptyString w))
     = Some "no supported build system found") /\
  (pattern <> EmptyString ->
     tools.Test h r pattern w
     = tools.Run h r "go" ["test"; "-run"; pattern; "-cover"; "./..."] w) /\
  tools.Test h r EmptyString w
  = tools.Run h r "go" ["test"; "-cover"; "./..."] w.
Proof.
  unfold tools.Build, tools.Test.
  split; [|split; [|split; [|split; [|split]]]].
  - intros Hne. now destruct (String.eqb_spec target EmptyString).
  - simpl. now intros ->.
  - simpl. now intros -> ->.
  - simpl. now intros -> ->.
  - intros Hne. now destruct (String.eqb_spec pattern EmptyString).
  - reflexivity.
Qed.

Lemma wrappers_command_lines_witness :
  tools.Build Sample.host Sample.runner "./cmd" Sample.world
  = tools.Run Sample.host Sample.runner "go" ["build"; "./cmd"] Sample.world.
Proof.
  refine (proj1 (wrappers_command_lines Sample.host Sample.runner "./cmd"
                   "TestRun" Sample.world) _).
  discriminate.
Defined.

(** ** The processes of a scan *)

Lemma starts_writeEntry a entry : starts (AuditLogger.writeEntry a entry) [].
Proof.
  unfold AuditLogger.writeEntry.
  destruct (AuditLogger.marshals entry); auto with procs.
Qed.
#[local] Hint Resolve starts_writeEntry : procs.

Lemma starts_LogToolCall h a step tool args duration status err :
  starts (AuditLogger.LogToolCall h a step tool args duration status err) [].
Proof.
  unfold AuditLogger.LogToolCall. starts_nothing.
Qed.

Lemma starts_LogScanResult h a step findings duration :
  starts (AuditLogger.LogScanResult h a step findings duration) [].
Proof.
  unfold AuditLogger.LogScanResult. starts_nothing.
Qed.
#[local] Hint Resolve starts_LogToolCall starts_LogScanResult : procs.

Lemma starts_runSemgrep h c s :
  starts (security.runSemgrep h c s) (semgrepRun h s).
Proof.
  unfold security.runSemgrep, semgrepRun.
  destruct (sys.lookPath h "semgrep"); simpl; [|starts_nothing].
  apply starts_bind_l; [auto with procs|]. intros start.
  apply starts_bind_r; [apply starts_Run|]. intros result. starts_nothing.
Qed.

Lemma starts_runCodeQL h s : starts (security.runCodeQL h s) [].
Proof. unfold security.runCodeQL. starts_nothing. Qed.

Lemma starts_security_Scan h c s :
  starts (security.Scan h c s) (semgrepRun h s).
Proof.
  unfold security.Scan. apply starts_bind_r; [apply starts_runSemgrep|].
  intros r1. apply starts_bind_l; [apply starts_runCodeQL|]. intros r2.
  apply starts_ret.
Qed.

Lemma starts_Detect h src d :
  starts (deadcode.Detect h src d) (coverageRun d).
Proof.
  unfold deadcode.Detect, deadcode.getCoverage, tools.Coverage, coverageRun.
  apply starts_bind_l; [auto with procs|]. intros start.
  apply starts_bind_r.
  - apply starts_bind_r; [apply starts_Run|]. intros result. starts_nothing.
  - intros coverage. starts_nothing.
Qed.

Lemma starts_scanSecurity h c e start l :
  starts (engine.scanSecurity h c e start l) (semgrepRun h (engine.scanner e)).
Proof.
  unfold engine.scanSecurity.
  apply starts_bind_l; [auto with procs|]. intros u.
  apply starts_bind_r; [apply starts_security_Scan|]. intros r.
  starts_nothing.
Qed.

Lemma starts_scanDeadCode h src e start l :
  starts (engine.scanDeadCode h src e start l)
         (coverageRun (engine.detector e)).
Proof.
  unfold engine.scanDeadCode.
  apply starts_bind_l; [auto with procs|]. intros u.
  apply starts_bind_r; [apply starts_Detect|]. intros r.
  starts_nothing.
Qed.

(** The processes of a scan: the analyzer when security scanning is
    requested, then the coverage run when dead-code detection is
    requested and the scan got that far. *)
Lemma Scan_procs h c src e opts w :
  let cmds :=
    (if engine.Security opts then semgrepRun h (engine.scanner e) else [])
    ++ match fst (engine.Scan h c src e opts w) with
       | sys.Ok _ =>
           if engine.DeadCode opts then coverageRun (engine.detector e)
           else []
       | sys.Err _ => []
       end in
  sys.procs (snd (engine.Scan h c src e opts w)) = sys.procs w ++ cmds /\
  (cmds = [] -> sys.files (snd (engine.Scan h c src e opts w)) = sys.files w).
Proof.
  unfold engine.Scan, sys.bind.
  destruct (starts_now h w) as [Hp0 Hf0].
  destruct (sys.now h w) as [start w0]. simpl in Hp0, Hf0.
  rewrite app_nil_r in Hp0. specialize (Hf0 eq_refl).
  set (l0 := {| engine.sarifData := None; engine.exitCode := 0;
                engine.summary := "Scan completed successfully" |}).
  assert (H1 : starts (if engine.Security opts
                       then engine.scanSecurity h c e start l0
                       else sys.ret (sys.Ok l0))
                 (if engine.Security opts
                  then semgrepRun h (engine.scanner e) else [])).
  { destruct (engine.Security opts);
      [apply starts_scanSecurity | apply starts_ret]. }
  destruct (H1 w0) as [Hp1 Hf1].
  destruct ((if engine.Security opts
             then engine.scanSecurity h c e start l0
             else sys.ret (sys.Ok l0)) w0) as [[l1|err] w1];
    simpl in Hp1, Hf1 |- *.
  - assert (H2 : starts (if engine.DeadCode opts
                         then engine.scanDeadCode h src e start l1
                         else sys.ret (sys.Ok l1))
                   (if engine.DeadCode opts
                    then coverageRun (engine.detector e) else [])).
    { destruct (engine.DeadCode opts);
        [apply starts_scanDeadCode | apply starts_ret]. }
    destruct (H2 w1) as [Hp2 Hf2].
    destruct (scanDeadCode_exitCode h src e start l1 w1) as (l2 & Hl2 & _).
    assert (Hok : exists l2', fst ((if engine.DeadCode opts
                         then engine.scanDeadCode h src e start l1
                         else sys.ret (sys.Ok l1)) w1) = sys.Ok l2').
    { destruct (engine.DeadCode opts); simpl; eauto. }
    destruct Hok as [l2' Hok].
    destruct ((if engine.DeadCode opts
               then engine.scanDeadCode h src e start l1
               else sys.ret (sys.Ok l1)) w1) as [r2 w2].
    simpl in Hp2, Hf2, Hok. subst r2. simpl. split.
    + now rewrite Hp2, Hp1, Hp0, app_assoc.
    + intros Hnil. apply app_eq_nil in Hnil as [Hn1 Hn2].
      now rewrite Hf2, Hf1, Hf0.
  - rewrite app_nil_r. split; [now rewrite Hp1, Hp0|].
    intros Hnil. now rewrite Hf1, Hf0.
Qed.

Lemma New_runner h opts e :
  engine.New h opts = sys.Ok e ->
  security.runner (engine.scanner e) = engine.runner e /\
  deadcode.runner (engine.detector e) = engine.runner e /\
  security.workspace (engine.scanner e) = engine.Repo opts /\
  deadcode.workspace (engine.detector e) = engine.Repo opts /\
  tools.Allow (engine.runner e)
  = policy.Commands (policy.Allowlist_ (engine.Policy opts)).
Proof.
  unfold engine.New. intros H.
  destruct (AuditLogger.NewAuditLogger _ _ _); [|discriminate].
  injection H as <-. repeat split.
Qed.

(** X8. A scan of an engine made by [New] starts at most two
    processes, the analyzer on the repository and then the coverage
    run; each one only if the policy's allowlist holds exactly that
    command line; and when it starts none, no file changes. *)
Theorem Scan_starts_only_allowlisted (h : sys.Host) (c : security.Codec)
    (src : deadcode.Source) (opts : engine.Options) (e : engine.Engine)
    (sopts : engine.ScanOpts) (w : sys.World) :
  engine.New h opts = sys.Ok e ->
  exists new,
    sys.procs (snd (engine.Scan h c src e sopts w)) = sys.procs w ++ new /\
    List.length new <= 2 /\
    (forall cmd, In cmd new ->
       policy.IsCommandAllowed (engine.Policy opts) cmd.1 cmd.2 = true /\
       (cmd = ("semgrep", semgrepArgs (engine.Repo opts))
        \/ cmd = ("go", coverageArgs))) /\
    (new = [] ->
       sys.files (snd (engine.Scan h c src e sopts w)) = sys.files w).
Proof.
  intros Hnew.
  destruct (New_runner h opts e Hnew) as (Hs & Hd & Hws & _ & Hallow).
  destruct (Scan_procs h c src e sopts w) as [Hp Hf].
  eexists. split; [exact Hp|]. split; [|split; [|exact Hf]].
  - rewrite length_app.
    assert (forall r cmd args, List.length (started r cmd args) <= 1).
    { intros r cmd args. unfold started.
      destruct (tools.allowed r cmd args); simpl; lia. }
    assert (List.length
              (if engine.Security sopts
               then semgrepRun h (engine.scanner e) else []) <= 1).
    { unfold semgrepRun. destruct (engine.Security sopts); [|simpl; lia].
      destruct (sys.lookPath h "semgrep"); [auto | simpl; lia]. }
    assert (List.length
              match fst (engine.Scan h c src e sopts w) with
              | sys.Ok _ =>
                  if engine.DeadCode sopts
                  then coverageRun (engine.detector e) else []
              | sys.Err _ => []
              end <= 1).
    { unfold coverageRun. destruct (fst _); [|simpl; lia].
      destruct (engine.DeadCode sopts); [auto | simpl; lia]. }
    lia.
  - assert (Hin : forall r cmd args x,
               tools.Allow r
               = policy.Commands (policy.Allowlist_ (engine.Policy opts)) ->
               In x (started r cmd args) ->
               policy.IsCommandAllowed (engine.Policy opts) x.1 x.2 = true
               /\ x = (cmd, args)).
    { intros r cmd args x Hr Hx. split.
      - apply started_allowlisted in Hx. rewrite Hr in Hx.
        unfold policy.IsCommandAllowed.
        rewrite commandsLoop_allowLoop. now apply allowLoop_In.
      - unfold started in Hx.
        destruct (tools.allowed r cmd args); [|destruct Hx].
        now destruct Hx as [<-|[]]. }
    intros cmd Hcmd. apply in_app_or in Hcmd as [Hcmd|Hcmd].
    + destruct (engine.Security sopts); [|destruct Hcmd].
      unfold semgrepRun in Hcmd.
      destruct (sys.lookPath h "semgrep"); [|destruct Hcmd].
      rewrite Hs, Hws in Hcmd.
      destruct (Hin _ _ _ _ Hallow Hcmd) as [Ha Hx]. auto.
    + destruct (fst _); [|destruct Hcmd].
      destruct (engine.DeadCode sopts); [|destruct Hcmd].
      unfold coverageRun in Hcmd. rewrite Hd in Hcmd.
      destruct (Hin _ _ _ _ Hallow Hcmd) as [Ha Hx]. auto.
Qed.

Lemma Scan_starts_only_allowlisted_witness :
  exists e new,
    engine.New Sample.host (Sample.options Sample.scanPolicy) = sys.Ok e /\
    sys.procs (snd (engine.Scan Sample.host (Sample.codec 1) (Sample.source 3)
                      e Sample.both Sample.world))
    = sys.procs Sample.world ++ new /\
    List.length new <= 2.
Proof.
  eexists.
  destruct (Scan_starts_only_allowlisted Sample.host (Sample.codec 1)
              (Sample.source 3) (Sample.options Sample.scanPolicy) _
              Sample.both Sample.world eq_refl)
    as (new & Hp & Hlen & _).
  exists new. split; [reflexivity|]. split; assumption.
Defined.

Lemma Run_denied_error h r cmd args w :
  tools.allowed r cmd args = false ->
  tools.Error (fst (tools.Run h r cmd args w))
  = Some "command not allowlisted".
Proof.
  intros Hd. unfold tools.Run, sys.bind, sys.since, sys.now. simpl.
  now rewrite Hd.
Qed.

(** The two results of the scanner. *)
Lemma security_Scan_shape h c s w :
  exists r1 r2,
    fst (security.Scan h c s w) = sys.Ok [r1; r2] /\
    security.Tool r1 = "semgrep" /\ security.Tool r2 = "codeql" /\
    security.Findings r2 = [] /\ security.Error r2 <> EmptyString /\
    (security.Findings r1 <> [] ->
       semgrepRun h s <> [] /\ security.Error r1 = EmptyString).
Proof.
  unfold security.Scan, sys.bind.
  assert (H1 : security.Tool (fst (security.runSemgrep h c s w)) = "semgrep" /\
               (security.Findings (fst (security.runSemgrep h c s w)) <> [] ->
                semgrepRun h s <> [] /\
                security.Error (fst (security.runSemgrep h c s w))
                = EmptyString)).
  { unfold security.runSemgrep, semgrepRun, sys.bind.
    destruct (sys.now h w) as [start w0].
    destruct (sys.lookPath h "semgrep"); simpl.
    - pose proof (Run_denied_error h (security.runner s) "semgrep"
                    (semgrepArgs (security.workspace s)) w0) as Hden.
      unfold semgrepArgs in *.
      destruct (tools.Run h (security.runner s) "semgrep" _ w0)
        as [result w1]. simpl in Hden.
      destruct (tools.Error result) as [err|] eqn:Herr.
      + destruct (sys.since h start w1). simpl. split; [done|]. done.
      + destruct (security.unmarshalSemgrep c (tools.Stdout result));
          destruct (sys.since h start w1); simpl; (split; [done|]);
          [|done].
        intros _. split; [|done]. unfold started.
        destruct (tools.allowed (security.runner s) "semgrep" _); [done|].
        now specialize (Hden eq_refl).
    - destruct (sys.since h start w0). simpl. split; done. }
  destruct (security.runSemgrep h c s w) as [r1 w1]. simpl in H1.
  assert (H2 : security.Tool (fst (security.runCodeQL h s w1)) = "codeql" /\
               security.Findings (fst (security.runCodeQL h s w1)) = [] /\
               security.Error (fst (security.runCodeQL h s w1))
               <> EmptyString).
  { unfold security.runCodeQL, sys.bind.
    destruct (sys.now h w1) as [start w2].
    destruct (sys.lookPath h "codeql"); simpl;
      destruct (sys.since h start w2); simpl; repeat split; done. }
  destruct (security.runCodeQL h s w1) as [r2 w2]. simpl in H2.
  exists r1, r2. simpl. intuition.
Qed.

(** X9. The scanner never fails and always returns two results, one
    of [semgrep] and one of [codeql]; the one of [codeql] has no
    finding and carries an error; the one of [semgrep] has findings
    only if the analyzer was found, its command line was allowed and
    nothing went wrong; and the only process is the analyzer. *)
Theorem security_Scan_results (h : sys.Host) (c : security.Codec)
    (s : security.Scanner) (w : sys.World) :
  (exists r1 r2,
     fst (security.Scan h c s w) = sys.Ok [r1; r2] /\
     security.Tool r1 = "semgrep" /\ security.Tool r2 = "codeql" /\
     security.Findings r2 = [] /\ security.Error r2 <> EmptyString /\
     (security.Findings r1 <> [] ->
        sys.lookPath h "semgrep" = true /\
        tools.allowed (security.runner s) "semgrep"
          (semgrepArgs (security.workspace s)) = true /\
        security.Error r1 = EmptyString)) /\
  sys.procs (snd (security.Scan h c s w))
  = sys.procs w ++ semgrepRun h s.
Proof.
  split; [|apply starts_security_Scan].
  destruct (security_Scan_shape h c s w)
    as (r1 & r2 & Hok & Ht1 & Ht2 & Hf2 & He2 & Hf1).
  exists r1, r2. repeat split; try done.
  - destruct (Hf1 H) as [Hrun _]. unfold semgrepRun in Hrun.
    now destruct (sys.lookPath h "semgrep").
  - destruct (Hf1 H) as [Hrun _]. unfold semgrepRun, started in Hrun.
    destruct (sys.lookPath h "semgrep"); [|done].
    now destruct (tools.allowed _ _ _).
  - now destruct (Hf1 H).
Qed.

Lemma exit10_needs_findings h c src e opts w r :
  fst (engine.Scan h c src e opts w) = sys.Ok r ->
  engine.ExitCode r = 10%Z ->
  engine.Security opts = true /\
  exists w1 results,
    fst (security.Scan h c (engine.scanner e) w1) = sys.Ok results /\
    0 < totalFindings results.
Proof.
  unfold engine.Scan, sys.bind.
  destruct (sys.now h w) as [start w0].
  set (l0 := {| engine.sarifData := None; engine.exitCode := 0;
                engine.summary := "Scan completed successfully" |}).
  assert (H1 : match fst ((if engine.Security opts
                           then engine.scanSecurity h c e start l0
                           else sys.ret (sys.Ok l0)) w0) with
               | sys.Ok l1 =>
                   engine.exitCode l1 = 0%Z \/
                   (engine.Security opts = true /\
                    exists w1 results,
                      fst (security.Scan h c (engine.scanner e) w1)
                      = sys.Ok results /\ 0 < totalFindings results)
               | sys.Err _ => True
               end).
  { destruct (engine.Security opts); [|now left].
    pose proof (scanSecurity_exitCode h c e start l0 w0) as H.
    destruct (fst (engine.scanSecurity h c e start l0 w0)); [|done].
    destruct H as (w1 & results & Hscan & Hcode).
    destruct (Nat.ltb_spec 0 (totalFindings results)); [right|left; done].
    split; [done|]. eauto. }
  destruct ((if engine.Security opts
             then engine.scanSecurity h c e start l0
             else sys.ret (sys.Ok l0)) w0) as [[l1|err] w1];
    simpl in H1 |- *; [|discriminate].
  assert (H2 : forall l2,
             fst ((if engine.DeadCode opts
                   then engine.scanDeadCode h src e start l1
                   else sys.ret (sys.Ok l1)) w1) = sys.Ok l2 ->
             engine.exitCode l2 = 10%Z -> engine.exitCode l1 = 10%Z).
  { destruct (engine.DeadCode opts).
    - destruct (scanDeadCode_exitCode h src e start l1 w1)
        as (l2' & Hl2 & _ & result & _ & Hcode).
      intros l2 Heq. rewrite Hl2 in Heq. injection Heq as <-.
      rewrite Hcode.
      destruct (0 <? _)%nat; [|done].
      destruct (engine.exitCode l1 =? 0)%Z; [discriminate | done].
    - simpl. intros l2 Heq. now injection Heq as <-. }
  destruct ((if engine.DeadCode opts
             then engine.scanDeadCode h src e start l1
             else sys.ret (sys.Ok l1)) w1) as [[l2|err] w2];
    simpl in H2 |- *; [|discriminate].
  destruct (sys.now h w2) as [createdAt w3]. simpl.
  intros Hr Hcode. injection Hr as <-. simpl in Hcode.
  specialize (H2 l2 eq_refl Hcode).
  destruct H1 as [H1|H1]; [congruence | exact H1].
Qed.

(** X10. Under the default policy a scan is inert: the analyzer's
    command line and the coverage run are longer than the tuples the
    allowlist holds for them, so no process starts, no file changes,
    no finding is ever counted and the exit code is never 10. *)
Theorem DefaultPolicy_scan_is_inert (h : sys.Host) (c : security.Codec)
    (src : deadcode.Source) (opts : engine.Options) (e : engine.Engine)
    (sopts : engine.ScanOpts) (w : sys.World) :
  engine.Policy opts = policy.DefaultPolicy ->
  engine.New h opts = sys.Ok e ->
  sys.procs (snd (engine.Scan h c src e sopts w)) = sys.procs w /\
  sys.files (snd (engine.Scan h c src e sopts w)) = sys.files w /\
  forall r, fst (engine.Scan h c src e sopts w) = sys.Ok r ->
            engine.ExitCode r <> 10%Z.
Proof.
  intros Hpol Hnew.
  destruct (New_runner h opts e Hnew) as (Hs & Hd & Hws & _ & Hallow).
  rewrite Hpol in Hallow.
  assert (Hsem : semgrepRun h (engine.scanner e) = []).
  { unfold semgrepRun, started, tools.allowed. rewrite Hs, Hallow.
    now destruct (sys.lookPath h "semgrep"). }
  assert (Hcov : coverageRun (engine.detector e) = []).
  { unfold coverageRun, started, tools.allowed. now rewrite Hd, Hallow. }
  destruct (Scan_procs h c src e sopts w) as [Hp Hf].
  rewrite Hsem, Hcov in Hp, Hf.
  assert (Hnil : (if engine.Security sopts then [] else [])
                 ++ match fst (engine.Scan h c src e sopts w) with
                    | sys.Ok _ => if engine.DeadCode sopts then [] else []
                    | sys.Err _ => []
                    end = ([] : list (string * list string))).
  { destruct (engine.Security sopts); destruct (fst _);
      destruct (engine.DeadCode sopts); reflexivity. }
  rewrite Hnil in Hp, Hf. rewrite app_nil_r in Hp.
  split; [exact Hp|]. split; [now apply Hf|].
  intros r Hr Hcode.
  destruct (exit10_needs_findings h c src e sopts w r Hr Hcode)
    as (_ & w1 & results & Hscan & Hpos).
  destruct (security_Scan_shape h c (engine.scanner e) w1)
    as (r1 & r2 & Hok & _ & _ & Hf2 & _ & Hf1).
  rewrite Hok in Hscan. injection Hscan as <-.
  unfold totalFindings in Hpos. simpl in Hpos. rewrite Hf2 in Hpos.
  destruct (security.Findings r1) as [|f fs] eqn:E; [simpl in Hpos; lia|].
  destruct (Hf1 ltac:(done)) as [Hrun _]. now apply Hrun.
Qed.

Lemma DefaultPolicy_scan_is_inert_witness :
  exists e,
    engine.New Sample.host (Sample.options policy.DefaultPolicy) = sys.Ok e /\
    sys.procs (snd (engine.Scan Sample.host (Sample.codec 1) (Sample.source 3)
                      e Sample.both Sample.world)) = [].
Proof.
  eexists. split; [reflexivity|].
  apply (DefaultPolicy_scan_is_inert Sample.host (Sample.codec 1)
           (Sample.source 3) (Sample.options policy.DefaultPolicy) _
           Sample.both Sample.world eq_refl eq_refl).
Defined.

(** ** The SARIF document *)

(** X11. The SARIF document has one run for each scan result that did
    not fail, in the order of the results and named after its tool; a
    failed result contributes nothing; each run has one result per
    finding, so the document holds as many results as the scans that
    did not fail have findings. *)
Theorem sarifRuns_spec (mapLower : string -> string)
    (results : list security.ScanResult) :
  map security.driverName (security.sarifRuns mapLower results)
  = map security.Tool (List.filter succeeded results) /\
  map (fun run => List.length (security.results run))
      (security.sarifRuns mapLower results)
  = map (fun r => List.length (security.Findings r))
        (List.filter succeeded results) /\
  List.length (security.sarifRuns mapLower results) <= List.length results /\
  (Forall (fun r => succeeded r = false) results ->
     security.sarifRuns mapLower results = []).
Proof.
  induction results as [|r rest (IH1 & IH2 & IH3 & IH4)]; simpl.
  - repeat split; done.
  - destruct (String.eqb (security.Error r) EmptyString) eqn:E;
      assert (Hs : succeeded r = String.eqb (security.Error r) EmptyString)
        by reflexivity;
      rewrite E in Hs; rewrite Hs; simpl.
    + rewrite IH1, IH2, length_map.
      split; [done|]. split; [done|]. split; [lia|].
      intros Hall. inversion Hall as [|? ? Hr _]; subst.
      unfold succeeded in Hr. congruence.
    + split; [done|]. split; [done|]. split; [lia|].
      intros Hall. inversion Hall; subst. auto.
Qed.

Lemma sarifRuns_spec_witness :
  security.sarifRuns (sys.mapLower Sample.host)
    [ {| security.Tool := "codeql"; security.Findings := [];
         security.Duration := 0;
         security.Error := "codeql not found in PATH" |} ] = [].
Proof.
  refine (proj2 (proj2 (proj2 (sarifRuns_spec (sys.mapLower Sample.host) _))) _). repeat constructor.
Defined.

(** X12. The SARIF level is one of [error], [warning] and [note]; it
    does not depend on the case of the severity; [error], [critical]
    and [high] give [error], [warning] and [medium] give [warning], and
    everything else, known or not, gives [note]. *)
Theorem severityToLevel_spec (mapLower : string -> string)
    (severity : string) :
  (security.severityToLevel mapLower severity = "error"
   \/ security.severityToLevel mapLower severity = "warning"
   \/ security.severityToLevel mapLower severity = "note") /\
  (forall other, eqFold mapLower severity other ->
     security.severityToLevel mapLower other = security.severityToLevel mapLower severity) /\
  (security.severityToLevel mapLower severity = "error" <->
     In (GoStrings.ToLower mapLower severity) ["error"; "critical"; "high"]) /\
  (security.severityToLevel mapLower severity = "warning" <->
     In (GoStrings.ToLower mapLower severity) ["warning"; "medium"]).
Proof.
  unfold security.severityToLevel, eqFold.
  split; [|split; [|split]].
  - repeat (destruct (String.eqb _ _); simpl; auto).
  - intros other <-. reflexivity.
  - destruct (String.eqb_spec (GoStrings.ToLower mapLower severity) "error") as [->|H1];
      [simpl; split; [intros _; auto 10 | reflexivity]|].
    destruct (String.eqb_spec (GoStrings.ToLower mapLower severity) "critical")
      as [->|H2]; [simpl; split; [intros _; auto 10 | reflexivity]|].
    destruct (String.eqb_spec (GoStrings.ToLower mapLower severity) "high") as [->|H3];
      [simpl; split; [intros _; auto 10 | reflexivity]|].
    simpl. split.
    + repeat (destruct (String.eqb _ _); simpl); discriminate.
    + intros [?|[?|[?|[]]]]; congruence.
  - destruct (String.eqb_spec (GoStrings.ToLower mapLower severity) "error") as [->|H1];
      [simpl; split; [discriminate | intros [?|[?|[]]]; discriminate]|].
    destruct (String.eqb_spec (GoStrings.ToLower mapLower severity) "critical")
      as [->|H2];
      [simpl; split; [discriminate | intros [?|[?|[]]]; discriminate]|].
    destruct (String.eqb_spec (GoStrings.ToLower mapLower severity) "high") as [->|H3];
      [simpl; split; [discriminate | intros [?|[?|[]]]; discriminate]|].
    destruct (String.eqb_spec (GoStrings.ToLower mapLower severity) "warning")
      as [->|H4]; [simpl; split; [intros _; auto 10 | reflexivity]|].
    destruct (String.eqb_spec (GoStrings.ToLower mapLower severity) "medium")
      as [->|H5]; [simpl; split; [intros _; auto 10 | reflexivity]|].
    simpl. split.
    + repeat (destruct (String.eqb _ _); simpl); discriminate.
    + intros [?|[?|[]]]; congruence.
Qed.

Lemma severityToLevel_spec_witness :
  security.severityToLevel (sys.mapLower Sample.host) "HIGH"
  = security.severityToLevel (sys.mapLower Sample.host) "high".
Proof.
  exact (proj1 (proj2 (severityToLevel_spec (sys.mapLower Sample.host) "high")) "HIGH" eq_refl).
Defined.

(** Findings reach the document with the level of their severity. *)
Example sarifResult_levels (mapLower : string -> string) :
  map (fun sev => security.severityToLevel mapLower sev)
    ["high"; "HIGH"; "Critical"; "medium"; "WARNING"; "low"; "info";
     "unknown"; EmptyString]
  = ["error"; "error"; "error"; "warning"; "warning"; "note"; "note";
     "note"; "note"].
Proof. reflexivity. Qed.

(** ** The dead-code detector *)

Lemma filterDeadSymbols_filter symbols :
  deadcode.filterDeadSymbols symbols = List.filter isDead symbols.
Proof.
  induction symbols as [|x rest IH]; simpl; [done|].
  unfold isDead at 1. now rewrite IH.
Qed.

Lemma filter_twice {A} (f : A -> bool) (l : list A) :
  List.filter f (List.filter f l) = List.filter f l.
Proof.
  induction l as [|x l IH]; simpl; [done|].
  destruct (f x) eqn:E; simpl; now rewrite ?E, IH.
Qed.

(** X13. [filterDeadSymbols] keeps, in their order, exactly the symbols
    that are not exported and have no reference; filtering again
    changes nothing. *)
Theorem filterDeadSymbols_spec (symbols : list deadcode.Symbol) :
  deadcode.filterDeadSymbols symbols = List.filter isDead symbols /\
  (forall x, In x (deadcode.filterDeadSymbols symbols) <->
     In x symbols /\ deadcode.Exported x = false
     /\ deadcode.References x = 0%Z) /\
  deadcode.filterDeadSymbols (deadcode.filterDeadSymbols symbols)
  = deadcode.filterDeadSymbols symbols /\
  List.length (deadcode.filterDeadSymbols symbols) <= List.length symbols.
Proof.
  rewrite !filterDeadSymbols_filter. split; [done|]. split; [|split].
  - intros x. rewrite List.filter_In. unfold isDead.
    rewrite andb_true_iff, negb_true_iff, Z.eqb_eq. tauto.
  - apply filter_twice.
  - apply List.filter_length_le.
Qed.

Lemma keepGoFile_spec path isDir :
  deadcode.keepGoFile (path, isDir) = negb isDir && isGoSource path.
Proof.
  unfold deadcode.keepGoFile, isGoSource.
  now rewrite !andb_assoc.
Qed.

(** X14. [findGoFiles] returns, in the order of the walk, the paths of
    the entries that are not directories, end in [.go] and contain
    none of [_test.go], [/vendor/] and [/.git/]; the error of the walk
    is returned with them, unchanged. *)
Theorem findGoFiles_spec (src : deadcode.Source) (d : deadcode.Detector) :
  (forall path,
      In path (fst (deadcode.findGoFiles src d)) <->
      In (path, false) (fst (deadcode.walk src (deadcode.workspace d)))
      /\ isGoSource path = true) /\
  sublist (fst (deadcode.findGoFiles src d))
          (map fst (fst (deadcode.walk src (deadcode.workspace d)))) /\
  snd (deadcode.findGoFiles src d)
  = snd (deadcode.walk src (deadcode.workspace d)).
Proof.
  unfold deadcode.findGoFiles.
  destruct (deadcode.walk src (deadcode.workspace d)) as [entries err].
  simpl. split; [|split; [|done]].
  - intros path. rewrite in_map_iff. split.
    + intros ([p isDir] & <- & Hin). simpl.
      apply list_elem_of_In, list_elem_of_filter in Hin as [Hkeep Hin].
      apply list_elem_of_In in Hin. apply Is_true_true in Hkeep.
      rewrite keepGoFile_spec in Hkeep.
      apply andb_true_iff in Hkeep as [Hdir Hgo].
      destruct isDir; [discriminate|]. auto.
    + intros [Hin Hgo]. exists (path, false). split; [done|].
      apply list_elem_of_In, list_elem_of_filter. split.
      * apply Is_true_true. rewrite keepGoFile_spec. now rewrite Hgo.
      * now apply list_elem_of_In.
  - apply fmap_sublist, sublist_filter.
Qed.

(** The walk of the example program's tree. *)
Example findGoFiles_example :
  fst (deadcode.findGoFiles
         {| deadcode.walk := fun _ =>
              ([("/ws", true); ("/ws/main.go", false);
                ("/ws/main_test.go", false); ("/ws/vendor/x/x.go", false);
                ("/ws/.git/hooks/h.go", false); ("/ws/README.md", false);
                ("/ws/pkg.go", true); ("/ws/internal/a.go", false)], None);
            deadcode.analyzeFile := fun _ => sys.Ok [] |}
         (deadcode.NewDetector Sample.runner "/ws"))
  = ["/ws/main.go"; "/ws/internal/a.go"].
Proof. reflexivity. Qed.

Lemma analyzeAll_In src goFiles x :
  In x (deadcode.analyzeAll src goFiles) <->
  exists file fileSymbols,
    In file goFiles /\ deadcode.analyzeFile src file = sys.Ok fileSymbols
    /\ In x fileSymbols.
Proof.
  induction goFiles as [|file rest IH]; simpl.
  - split; [intros [] | intros (? & ? & [] & _)].
  - destruct (deadcode.analyzeFile src file) as [fileSymbols|err] eqn:E.
    + rewrite in_app_iff, IH. split.
      * intros [Hin|(f & fs & Hf & Ha & Hx)]; [eauto 6|eauto 7].
      * intros (f & fs & [<-|Hf] & Ha & Hx).
        -- left. congruence.
        -- right. eauto.
    + rewrite IH. split.
      * intros (f & fs & Hf & Ha & Hx). eauto 7.
      * intros (f & fs & [<-|Hf] & Ha & Hx); [congruence|eauto].
Qed.

(** X15. [Detect] never fails.  When the walk fails it returns no
    symbol and the error of the walk after [failed to find Go files: ];
    otherwise every symbol it returns is unexported, without
    reference, and was read from a file of [findGoFiles] whose
    analysis succeeded; a file whose analysis fails is skipped, and
    the outcome of the coverage run changes nothing. *)
Theorem Detect_spec (h : sys.Host) (src : deadcode.Source)
    (d : deadcode.Detector) (w : sys.World) :
  exists result,
    fst (deadcode.Detect h src d w) = sys.Ok result /\
    match snd (deadcode.findGoFiles src d) with
    | Some err =>
        deadcode.Symbols result = [] /\
        deadcode.Error result = "failed to find Go files: " +:+ err
    | None =>
        deadcode.Error result = EmptyString /\
        deadcode.Symbols result
        = deadcode.filterDeadSymbols
            (deadcode.analyzeAll src (fst (deadcode.findGoFiles src d))) /\
        forall x, In x (deadcode.Symbols result) ->
          isDead x = true /\
          exists file fileSymbols,
            In file (fst (deadcode.findGoFiles src d)) /\
            deadcode.analyzeFile src file = sys.Ok fileSymbols /\
            In x fileSymbols
    end.
Proof.
  unfold deadcode.Detect, sys.bind.
  destruct (sys.now h w) as [start w1].
  destruct (deadcode.getCoverage h d w1) as [coverage w2].
  destruct (deadcode.findGoFiles src d) as [goFiles [err|]];
    destruct (sys.since h start w2) as [t w3]; simpl;
    eexists; (split; [reflexivity|]); simpl; [done|].
  split; [done|]. split; [done|].
  intros x Hx. rewrite filterDeadSymbols_filter in Hx.
  apply List.filter_In in Hx as [Hin Hdead]. split; [done|].
  now apply analyzeAll_In.
Qed.

(** ** Redaction, continued *)

(** X16. With redaction on, an error text of more than 100 bytes is
    replaced by the marker and a shorter one is kept, so the logged
    text never exceeds 100 bytes; with redaction off the text is kept
    whatever its length; redacting twice is redacting once. *)
Theorem maybeRedactError_spec (a : logging.AuditLogger) (err : string) :
  (logging.redact a = true ->
     String.length (logging.maybeRedactError a err) <= 100 /\
     (100 < String.length err ->
        logging.maybeRedactError a err = "[REDACTED ERROR]")) /\
  (logging.redact a = false \/ String.length err <= 100 ->
     logging.maybeRedactError a err = err) /\
  logging.maybeRedactError a (logging.maybeRedactError a err)
  = logging.maybeRedactError a err.
Proof.
  unfold logging.maybeRedactError.
  destruct (logging.redact a); simpl.
  - destruct (Nat.ltb_spec 100 (String.length err)) as [Hlong|Hshort].
    + split; [intros _; split; [simpl; lia | done]|].
      split; [intros [H|H]; [discriminate | lia] | reflexivity].
    + split; [intros _; split; [lia | intros; lia]|]. split; [done|].
      destruct (Nat.ltb_spec 100 (String.length err)); [lia | done].
  - split; [discriminate|]. split; done.
Qed.

Lemma maybeRedactError_spec_witness :
  logging.maybeRedactError Sample.logger "exit status 1" = "exit status 1".
Proof.
  refine (proj1 (proj2 (maybeRedactError_spec Sample.logger
                          "exit status 1")) _).
  right. simpl. lia.
Defined.

Lemma marker_not_redactable mapLower : ~ Redactable mapLower "[REDACTED]".
Proof. intros [Hlen _]. simpl in Hlen. lia. Qed.

Lemma redactArg_not_redactable mapLower arg :
  ~ Redactable mapLower (logging.redactArg mapLower arg).
Proof.
  destruct (redactArg_spec mapLower arg) as [Hyes Hno]. intros Hred.
  unfold logging.redactArg in *.
  destruct ((20 <? String.length arg)%nat
            && (logging.containsSensitivePattern mapLower arg
                || logging.looksLikeToken arg)).
  - now apply (marker_not_redactable mapLower).
  - specialize (Hyes Hred). rewrite Hyes in Hred.
    now apply (marker_not_redactable mapLower).
Qed.

Lemma redactArg_idempotent mapLower arg :
  logging.redactArg mapLower (logging.redactArg mapLower arg)
  = logging.redactArg mapLower arg.
Proof. apply redactArg_spec, redactArg_not_redactable. Qed.

(** X17. Whatever the mode and the case tables, [maybeRedactArgs]
    keeps the number of arguments and applying it twice is applying it
    once; with redaction on, no argument of its result meets the
    condition for redaction any more. *)
Theorem maybeRedactArgs_idempotent (mapLower : string -> string)
    (a : logging.AuditLogger) (args : list string) :
  List.length (logging.maybeRedactArgs mapLower a args) = List.length args /\
  logging.maybeRedactArgs mapLower a (logging.maybeRedactArgs mapLower a args)
  = logging.maybeRedactArgs mapLower a args /\
  (logging.redact a = true ->
     Forall (fun arg => ~ Redactable mapLower arg)
       (logging.maybeRedactArgs mapLower a args)).
Proof.
  unfold logging.maybeRedactArgs.
  destruct (logging.redact a); simpl.
  - rewrite length_map. split; [done|]. split.
    + rewrite map_map. apply map_ext. intros arg.
      apply redactArg_idempotent.
    + intros _. apply List.Forall_forall. intros x Hx.
      apply in_map_iff in Hx as (arg & <- & _).
      apply redactArg_not_redactable.
  - repeat split; done.
Qed.

Lemma maybeRedactArgs_idempotent_witness :
  Forall (fun arg => ~ Redactable (sys.mapLower Sample.host) arg)
    (logging.maybeRedactArgs (sys.mapLower Sample.host) Sample.logger
       ["--API-Token=abcdefghijklm"; "run"]).
Proof.
  refine (proj2 (proj2 (maybeRedactArgs_idempotent
                          (sys.mapLower Sample.host) Sample.logger
                          ["--API-Token=abcdefghijklm"; "run"])) _).
  reflexivity.
Defined.

Lemma list_ascii_of_string_append a b :
  list_ascii_of_string (a +:+ b)
  = list_ascii_of_string a ++ list_ascii_of_string b.
Proof.
  induction a as [|x a IH]; [done|]. rewrite append_cons. simpl.
  now rewrite IH.
Qed.

Lemma asciiText_append a b :
  asciiText (a +:+ b) <-> asciiText a /\ asciiText b.
Proof.
  unfold asciiText. rewrite list_ascii_of_string_append.
  apply List.Forall_app.
Qed.

Lemma containsFold_extend mapLower pre s post kw :
  asciiText (pre +:+ s +:+ post) ->
  containsFold mapLower s kw ->
  containsFold mapLower (pre +:+ s +:+ post) kw.
Proof.
  intros Hall Hc. left. split; [exact Hall|].
  apply asciiText_append in Hall as [_ Hall].
  apply asciiText_append in Hall as [Hs _].
  destruct Hc as [[_ (a & mid & b & -> & Hmid)]|[Hn _]]; [|done].
  exists (pre +:+ a), mid, (b +:+ post). split; [|done].
  now rewrite !append_assoc.
Qed.

Lemma hasChar_extend P pre s post :
  hasChar P s -> hasChar P (pre +:+ s +:+ post).
Proof.
  intros (a & c & b & -> & Hc).
  exists (pre +:+ a), c, (b +:+ post). split; [|done].
  now rewrite !append_assoc, append_cons.
Qed.

Lemma Redactable_extend mapLower pre arg post :
  asciiText (pre +:+ arg +:+ post) ->
  Redactable mapLower arg -> Redactable mapLower (pre +:+ arg +:+ post).
Proof.
  intros Hall [Hlen Hor].
  assert (Hlen' : String.length arg
                  <= String.length (pre +:+ arg +:+ post)).
  { rewrite !length_append. lia. }
  split; [lia|]. destruct Hor as [(kw & Hin & Hc)|(Hl & Ha & Hn)].
  - left. exists kw. split; [done|]. now apply containsFold_extend.
  - right. split; [lia|]. split; now apply hasChar_extend.
Qed.

(** X18. On ASCII text redaction is monotone: an argument that is
    replaced by the marker is still replaced when text is put before
    and after it. *)
Theorem redactArg_monotone (mapLower : string -> string)
    (pre arg post : string) :
  asciiText (pre +:+ arg +:+ post) ->
  arg <> "[REDACTED]" ->
  logging.redactArg mapLower arg = "[REDACTED]" ->
  logging.redactArg mapLower (pre +:+ arg +:+ post) = "[REDACTED]".
Proof.
  intros Hall Hne Hred. apply redactArg_spec, Redactable_extend; [done|].
  destruct (redactArg_spec mapLower arg) as [Hyes Hno].
  unfold logging.redactArg in Hred.
  destruct ((20 <? String.length arg)%nat
            && (logging.containsSensitivePattern mapLower arg
                || logging.looksLikeToken arg)) eqn:E; [|congruence].
  apply andb_true_iff in E as [Hlen Hor]. apply Nat.ltb_lt in Hlen.
  split; [exact Hlen|]. apply orb_true_iff in Hor as [H|H].
  - left. now apply containsSensitivePattern_spec.
  - right. now apply looksLikeToken_spec.
Qed.

Lemma redactArg_monotone_witness :
  logging.redactArg (sys.mapLower Sample.host)
    ("curl -H " +:+ "X-Auth-Token:ABCDEFGHIJKLM" +:+ " # ci")
  = "[REDACTED]".
Proof.
  apply (redactArg_monotone (sys.mapLower Sample.host) "curl -H "
           "X-Auth-Token:ABCDEFGHIJKLM" " # ci");
    [|discriminate | reflexivity].
  apply isASCII_spec. reflexivity.
Defined.

(** ** The audit log, continued *)

Lemma LogToolCall_world h a step tool args duration status err w :
  snd (AuditLogger.LogToolCall h a step tool args duration status err w)
  = {| sys.ticks := S (sys.ticks w); sys.procs := sys.procs w;
       sys.files := sys.files w;
       sys.audit := sys.audit w ++
         [ {| logging.Timestamp := sys.clock h (sys.ticks w);
              logging.Step := step; logging.Event := "tool.run";
              logging.Tool := tool;
              logging.Args :=
                logging.maybeRedactArgs (sys.mapLower h) a args;
              logging.Duration := AuditLogger.Milliseconds duration;
              logging.Status := status;
              logging.Error :=
                match err with
                | Some e => logging.maybeRedactError a e
                | None => EmptyString
                end;
              logging.Metadata := ∅ |} ] |}.
Proof. now destruct err. Qed.

(** X19. With redaction on, the record that [LogToolCall] writes holds
    as many arguments as the call, none of which meets the condition
    for redaction, and an error text of at most 100 bytes; it is
    stamped with the clock reading taken by the call. *)
Theorem LogToolCall_record_is_redacted (h : sys.Host)
    (a : logging.AuditLogger) (step tool : string) (args : list string)
    (duration : Z) (status : string) (err : option string) (w : sys.World) :
  logging.redact a = true ->
  exists entry,
    sys.audit (snd (AuditLogger.LogToolCall h a step tool args duration
                      status err w)) = sys.audit w ++ [entry] /\
    List.length (logging.Args entry) = List.length args /\
    Forall (fun arg => ~ Redactable (sys.mapLower h) arg)
      (logging.Args entry) /\
    String.length (logging.Error entry) <= 100 /\
    logging.Timestamp entry = sys.clock h (sys.ticks w).
Proof.
  intros Hredact. rewrite LogToolCall_world. simpl. eexists.
  split; [reflexivity|]. simpl.
  unfold logging.maybeRedactArgs, logging.maybeRedactError.
  rewrite Hredact. simpl. rewrite length_map. split; [done|]. split.
  - apply List.Forall_forall. intros x Hx.
    apply in_map_iff in Hx as (arg & <- & _).
    apply redactArg_not_redactable.
  - split; [|done]. destruct err as [e|]; [|simpl; lia].
    destruct (Nat.ltb_spec 100 (String.length e)); simpl; lia.
Qed.

Lemma LogToolCall_record_is_redacted_witness :
  exists entry,
    sys.audit (snd (AuditLogger.LogToolCall Sample.host Sample.logger "build"
                      "runner" ["--API-Token=abcdefghijklm"] 0 "error"
                      (Some "exit status 1") Sample.world))
    = sys.audit Sample.world ++ [entry] /\
    Forall (fun arg => ~ Redactable (sys.mapLower Sample.host) arg)
      (logging.Args entry).
Proof.
  destruct (LogToolCall_record_is_redacted Sample.host Sample.logger "build"
              "runner" ["--API-Token=abcdefghijklm"] 0 "error"
              (Some "exit status 1") Sample.world eq_refl)
    as (entry & Haudit & _ & Hargs & _).
  exists entry. split; assumption.
Defined.

Lemma marshals_spec entry :
  AuditLogger.marshals entry = true <-> marshalable (logging.Metadata entry).
Proof.
  unfold AuditLogger.marshals, marshalable. rewrite forallb_forall. split.
  - intros H k Hk.
    assert (Hin : In (logging.MOther false)
                    (map snd (map_to_list (logging.Metadata entry)))).
    { apply in_map_iff. exists (k, logging.MOther false). split; [done|].
      apply list_elem_of_In. now apply elem_of_map_to_list. }
    specialize (H _ Hin). discriminate.
  - intros H v Hv. apply in_map_iff in Hv as ([k v'] & <- & Hin).
    apply list_elem_of_In, elem_of_map_to_list in Hin. simpl.
    destruct v' as [| | | |[|]]; try reflexivity.
    exfalso. exact (H k Hin).
Qed.

Lemma LogPolicyViolation_world h a step violation details w :
  snd (AuditLogger.LogPolicyViolation h a step violation details w)
  = {| sys.ticks := S (sys.ticks w); sys.procs := sys.procs w;
       sys.files := sys.files w;
       sys.audit :=
         sys.audit w ++
         (if AuditLogger.marshals
               {| logging.Timestamp := sys.clock h (sys.ticks w);
                  logging.Step := step;
                  logging.Event := "policy.violation";
                  logging.Tool := EmptyString; logging.Args := [];
                  logging.Duration := 0; logging.Status := "error";
                  logging.Error := violation;
                  logging.Metadata := details |}
          then [ {| logging.Timestamp := sys.clock h (sys.ticks w);
                    logging.Step := step;
                    logging.Event := "policy.violation";
                    logging.Tool := EmptyString; logging.Args := [];
                    logging.Duration := 0; logging.Status := "error";
                    logging.Error := violation;
                    logging.Metadata := details |} ]
          else []) |}.
Proof.
  unfold AuditLogger.LogPolicyViolation, AuditLogger.writeEntry, sys.bind,
    sys.now.
  destruct (AuditLogger.marshals _); simpl; [reflexivity|].
  now rewrite app_nil_r.
Qed.

(** X20. Each logging method reads the clock once, writes at most one
    record and changes nothing else in the world.  [LogToolCall],
    [LogLLMCall], [LogScanResult] and [LogPatchApplication] append
    exactly one record, of their own kind, for the given step and
    stamped with the clock reading they take; [LogPolicyViolation]
    does so when the details it is given can be marshalled, and
    writes nothing when they cannot. *)
Theorem logger_methods_append_one (h : sys.Host) (a : logging.AuditLogger)
    (step name status violation : string) (args files : list string)
    (n : Z) (findings : nat) (duration : Z) (success : bool)
    (err : option string) (details : gmap string logging.MetaValue)
    (w : sys.World) :
  Forall
    (fun mk : sys.M unit * string =>
       exists entry,
         snd (mk.1 w)
         = {| sys.ticks := S (sys.ticks w); sys.procs := sys.procs w;
              sys.files := sys.files w;
              sys.audit := sys.audit w ++ [entry] |} /\
         logging.Event entry = mk.2 /\
         logging.Step entry = step /\
         logging.Timestamp entry = sys.clock h (sys.ticks w))
    [ (AuditLogger.LogToolCall h a step name args duration status err,
       "tool.run");
      (AuditLogger.LogLLMCall h a step name n duration status err,
       "llm.call");
      (AuditLogger.LogScanResult h a step findings duration, "scan.result");
      (AuditLogger.LogPatchApplication h a step files success err,
       "patch.apply") ] /\
  (marshalable details ->
     exists entry,
       snd (AuditLogger.LogPolicyViolation h a step violation details w)
       = {| sys.ticks := S (sys.ticks w); sys.procs := sys.procs w;
            sys.files := sys.files w;
            sys.audit := sys.audit w ++ [entry] |} /\
       logging.Event entry = "policy.violation" /\
       logging.Step entry = step /\
       logging.Timestamp entry = sys.clock h (sys.ticks w)) /\
  (~ marshalable details ->
     snd (AuditLogger.LogPolicyViolation h a step violation details w)
     = {| sys.ticks := S (sys.ticks w); sys.procs := sys.procs w;
          sys.files := sys.files w; sys.audit := sys.audit w |}).
Proof.
  split; [|split].
  - repeat constructor; simpl; destruct err; eexists; repeat split.
  - intros Hd. rewrite LogPolicyViolation_world.
    replace (AuditLogger.marshals _) with true
      by (symmetry; now apply marshals_spec).
    eexists. repeat split.
  - intros Hd. rewrite LogPolicyViolation_world.
    destruct (AuditLogger.marshals _) eqn:E.
    + apply marshals_spec in E. done.
    + now rewrite app_nil_r.
Qed.

(** Details that hold a channel are not written. *)
Example unencodable_details_are_dropped :
  sys.audit
    (snd (AuditLogger.LogPolicyViolation Sample.host Sample.logger "apply"
            "path not allowed"
            (<["done" := logging.MOther false]> ∅) Sample.world))
  = [] /\
  List.length
    (sys.audit
       (snd (AuditLogger.LogPolicyViolation Sample.host Sample.logger "apply"
               "path not allowed"
               (<["path" := logging.MString "/etc/passwd"]> ∅)
               Sample.world)))
  = 1.
Proof. split; reflexivity. Qed.

(** X21. What the records of a patch application and of a policy
    violation say: a patch application is logged with the status
    [error] exactly when it is given an error, whose text is redacted
    like any other; a policy violation whose details can be marshalled
    is logged with the status [error], its text and its details
    written as given, redaction or not and however long the text; one
    whose details cannot be marshalled leaves the log as it was. *)
Theorem patch_and_violation_records (h : sys.Host) (a : logging.AuditLogger)
    (step violation : string) (files : list string) (success : bool)
    (err : option string) (details : gmap string logging.MetaValue)
    (w : sys.World) :
  (exists entry,
     sys.audit (snd (AuditLogger.LogPatchApplication h a step files success
                       err w)) = sys.audit w ++ [entry] /\
     (logging.Status entry = "error" <-> err <> None) /\
     (logging.Status entry = "ok" <-> err = None) /\
     logging.Error entry
     = match err with
       | Some e => logging.maybeRedactError a e
       | None => EmptyString
       end /\
     logging.Metadata entry !! "files" = Some (logging.MStrings files) /\
     logging.Metadata entry !! "success" = Some (logging.MBool success)) /\
  (marshalable details ->
   exists entry,
     sys.audit (snd (AuditLogger.LogPolicyViolation h a step violation
                       details w)) = sys.audit w ++ [entry] /\
     logging.Status entry = "error" /\
     logging.Error entry = violation /\
     logging.Metadata entry = details) /\
  (~ marshalable details ->
   sys.audit (snd (AuditLogger.LogPolicyViolation h a step violation
                     details w)) = sys.audit w).
Proof.
  split; [|split].
  - destruct err as [e|]; eexists; (split; [reflexivity|]); simpl;
      repeat split; try done; try discriminate.
  - intros Hd. rewrite LogPolicyViolation_world.
    replace (AuditLogger.marshals _) with true
      by (symmetry; now apply marshals_spec).
    eexists. repeat split.
  - intros Hd. rewrite LogPolicyViolation_world.
    destruct (AuditLogger.marshals _) eqn:E.
    + apply marshals_spec in E. done.
    + simpl. now rewrite app_nil_r.
Qed.

(** ** The temporal order of the audit log *)

Section Order.

Variable h : sys.Host.
Hypothesis Hclock : monotone h.

#[local] Set Default Proof Using "All".

Lemma ordered_tick w :
  ordered h w ->
  ordered h {| sys.ticks := S (sys.ticks w); sys.procs := sys.procs w;
               sys.files := sys.files w; sys.audit := sys.audit w |}.
Proof.
  intros [Hsorted Hnow]. split; simpl; [exact Hsorted|].
  intros e He. specialize (Hnow e He). specialize (Hclock (sys.ticks w)). lia.
Qed.

Lemma ordered_append w entry :
  ordered h w ->
  logging.Timestamp entry = sys.clock h (sys.ticks w) ->
  ordered h {| sys.ticks := S (sys.ticks w); sys.procs := sys.procs w;
               sys.files := sys.files w;
               sys.audit := sys.audit w ++ [entry] |}.
Proof.
  intros [Hsorted Hnow] Hts. pose proof (Hclock (sys.ticks w)) as Hstep.
  split; simpl.
  - intros i j ei ej Hij Hi Hj.
    destruct (decide (j < List.length (sys.audit w))) as [Hlt|Hge].
    + rewrite lookup_app_l in Hi, Hj by lia. eauto.
    + rewrite lookup_app_r in Hj by lia.
      destruct (j - List.length (sys.audit w)) as [|k] eqn:Hk;
        [|destruct k; discriminate].
      simpl in Hj. injection Hj as <-.
      destruct (decide (i < List.length (sys.audit w))) as [Hlt|Hge'].
      * rewrite lookup_app_l in Hi by lia.
        apply list_elem_of_lookup_2, list_elem_of_In in Hi.
        specialize (Hnow ei Hi). lia.
      * rewrite lookup_app_r in Hi by lia.
        replace (i - List.length (sys.audit w)) with 0 in Hi by lia.
        simpl in Hi. injection Hi as <-. lia.
  - intros e He. apply in_app_or in He as [He|[<-|[]]].
    + specialize (Hnow e He). lia.
    + lia.
Qed.

Lemma orderly_ret {A} (a : A) : orderly h (sys.ret a).
Proof. now intros w. Qed.

Lemma orderly_bind {A B} (m : sys.M A) (k : A -> sys.M B) :
  orderly h m -> (forall a, orderly h (k a)) -> orderly h (sys.bind m k).
Proof.
  intros Hm Hk w Hw. unfold sys.bind. specialize (Hm w Hw).
  destruct (m w) as [a w1]. now apply Hk.
Qed.

Lemma orderly_now : orderly h (sys.now h).
Proof. intros w Hw. now apply ordered_tick. Qed.

Lemma orderly_since start : orderly h (sys.since h start).
Proof. intros w Hw. now apply ordered_tick. Qed.

Lemma orderly_combinedOutput cmd args timeout :
  orderly h (sys.combinedOutput h cmd args timeout).
Proof. intros w [Hsorted Hnow]. split; simpl; assumption. Qed.

Lemma orderly_LogToolCall a step tool args duration status err :
  orderly h (AuditLogger.LogToolCall h a step tool args duration status err).
Proof.
  intros w Hw. rewrite LogToolCall_world. now apply ordered_append.
Qed.

Lemma orderly_LogScanResult a step findings duration :
  orderly h (AuditLogger.LogScanResult h a step findings duration).
Proof. intros w Hw. now apply (ordered_append w). Qed.

Lemma orderly_LogLLMCall a step model tokens duration status err :
  orderly h (AuditLogger.LogLLMCall h a step model tokens duration status err).
Proof. intros w Hw. destruct err; now apply (ordered_append w). Qed.

Lemma orderly_LogPatchApplication a step files success err :
  orderly h (AuditLogger.LogPatchApplication h a step files success err).
Proof. intros w Hw. destruct err; now apply (ordered_append w). Qed.

Lemma orderly_LogPolicyViolation a step violation details :
  orderly h (AuditLogger.LogPolicyViolation h a step violation details).
Proof.
  intros w Hw. rewrite LogPolicyViolation_world.
  destruct (AuditLogger.marshals _).
  - now apply ordered_append.
  - rewrite app_nil_r. now apply ordered_tick.
Qed.

Create HintDb order.
Hint Resolve orderly_ret orderly_now orderly_since orderly_combinedOutput
  orderly_LogToolCall orderly_LogScanResult : order.

Ltac keeps_order :=
  repeat first
    [ solve [auto with order]
    | apply orderly_bind; [|intros ?]
    | match goal with
      | |- orderly _ (if ?b then _ else _) => destruct b
      | |- orderly _ (match ?x with _ => _ end) => destruct x
      | |- orderly _ (let (_, _) := ?x in _) => destruct x
      end ].

Lemma orderly_Run r cmd args : orderly h (tools.Run h r cmd args).
Proof. unfold tools.Run. keeps_order. Qed.

Lemma orderly_security_Scan c s : orderly h (security.Scan h c s).
Proof.
  pose proof orderly_Run.
  unfold security.Scan, security.runSemgrep, security.runCodeQL.
  keeps_order.
Qed.

Lemma orderly_Detect src d : orderly h (deadcode.Detect h src d).
Proof.
  pose proof orderly_Run.
  unfold deadcode.Detect, deadcode.getCoverage, tools.Coverage.
  keeps_order.
Qed.

Lemma orderly_Scan c src e opts : orderly h (engine.Scan h c src e opts).
Proof.
  pose proof orderly_security_Scan. pose proof orderly_Detect.
  unfold engine.Scan, engine.scanSecurity, engine.scanDeadCode.
  keeps_order.
Qed.

End Order.

#[global] Set Default Proof Using "Type".

(** X22. On a clock that never runs backwards the audit log stays in
    temporal order: a whole scan, like each call of the logger, takes a
    log whose records are stamped in non-decreasing order, none later
    than the present, to a log of the same kind. *)
Theorem audit_log_stays_ordered (h : sys.Host) (c : security.Codec)
    (src : deadcode.Source) (e : engine.Engine) (opts : engine.ScanOpts)
    (a : logging.AuditLogger) (step name status : string)
    (args : list string) (duration : Z) (err : option string)
    (w : sys.World) :
  monotone h ->
  ordered h w ->
  ordered h (snd (engine.Scan h c src e opts w)) /\
  ordered h (snd (AuditLogger.LogToolCall h a step name args duration status
                    err w)).
Proof.
  intros Hclock Hw. split.
  - now apply orderly_Scan.
  - now apply orderly_LogToolCall.
Qed.

Lemma audit_log_stays_ordered_witness :
  exists e,
    engine.New Sample.host (Sample.options Sample.scanPolicy) = sys.Ok e /\
    ordered Sample.host
      (snd (engine.Scan Sample.host (Sample.codec 1) (Sample.source 3) e
              Sample.both Sample.world)).
Proof.
  eexists. split; [reflexivity|].
  refine (proj1 (audit_log_stays_ordered Sample.host (Sample.codec 1)
                   (Sample.source 3) _ Sample.both Sample.logger
                   "s" "t" "ok" [] 0 None Sample.world _ _)).
  - intros n. simpl. lia.
  - split; simpl; [intros i j ei ej _ Hi; discriminate | intros e' []].
Defined.

(** ** The engine, continued *)

(** X23. [New] fails exactly when a log path is given and the log file
    cannot be opened, with that error.  The engine it returns holds the
    policy's allowlist in its runner, which the scanner and the
    detector share, and redacts as the policy says; the timeout of the
    runner is the [max_runtime_sec] of the mode [default] in seconds,
    and zero when the policy has no such mode. *)
Theorem New_spec (h : sys.Host) (opts : engine.Options) :
  (forall err,
      engine.New h opts = sys.Err err <->
      engine.LogPath opts <> EmptyString /\
      sys.openLog h (engine.LogPath opts) = Some err) /\
  (forall e,
      engine.New h opts = sys.Ok e ->
      tools.Allow (engine.runner e)
      = policy.Commands (policy.Allowlist_ (engine.Policy opts)) /\
      security.runner (engine.scanner e) = engine.runner e /\
      deadcode.runner (engine.detector e) = engine.runner e /\
      security.workspace (engine.scanner e) = engine.Repo opts /\
      deadcode.workspace (engine.detector e) = engine.Repo opts /\
      logging.redact (engine.auditLogger e)
      = policy.PIIRedaction (policy.Logging (engine.Policy opts)) /\
      (policy.Modes (engine.Policy opts) !! "default" = None ->
         tools.Timeout (engine.runner e) = 0%Z) /\
      (forall mode,
         policy.Modes (engine.Policy opts) !! "default" = Some mode ->
         (0 <= policy.MaxRuntimeSec mode < 9223372036)%Z ->
         tools.Timeout (engine.runner e)
         = (policy.MaxRuntimeSec mode * 1000000000)%Z)).
Proof.
  unfold engine.New, AuditLogger.NewAuditLogger. split.
  - intros err.
    destruct (String.eqb_spec (engine.LogPath opts) EmptyString) as [Hp|Hp];
      simpl.
    + split; [discriminate | intros [H _]; done].
    + destruct (sys.openLog h (engine.LogPath opts)) as [e'|]; simpl.
      * split; [intros H; injection H as ->; done|].
        intros [_ H]. now injection H as ->.
      * split; [discriminate | intros [_ H]; discriminate].
  - intros e He.
    assert (Hok : exists a,
      sys.Ok e
      = sys.Ok
          {| engine.options := opts;
             engine.policy_ := engine.Policy opts;
             engine.runner :=
               tools.NewRunner
                 (policy.Commands (policy.Allowlist_ (engine.Policy opts)))
                 (engine.wrap64
                    (policy.MaxRuntimeSec
                       (default policy.zeroMode
                          (policy.Modes (engine.Policy opts) !! "default"))
                     * engine.Second));
             engine.scanner :=
               security.NewScanner
                 (tools.NewRunner
                    (policy.Commands (policy.Allowlist_ (engine.Policy opts)))
                    (engine.wrap64
                       (policy.MaxRuntimeSec
                          (default policy.zeroMode
                             (policy.Modes (engine.Policy opts) !! "default"))
                        * engine.Second)))
                 (engine.Repo opts);
             engine.detector :=
               deadcode.NewDetector
                 (tools.NewRunner
                    (policy.Commands (policy.Allowlist_ (engine.Policy opts)))
                    (engine.wrap64
                       (policy.MaxRuntimeSec
                          (default policy.zeroMode
                             (policy.Modes (engine.Policy opts) !! "default"))
                        * engine.Second)))
                 (engine.Repo opts);
             engine.auditLogger := a |}
      /\ logging.redact a
         = policy.PIIRedaction (policy.Logging (engine.Policy opts))).
    { rewrite <- He.
      destruct (negb (String.eqb (engine.LogPath opts) EmptyString));
        [destruct (sys.openLog h (engine.LogPath opts)); [discriminate|]|];
        eexists; split; reflexivity. }
    destruct Hok as (a & Hok & Ha). injection Hok as ->. simpl.
    split; [reflexivity|]. split; [reflexivity|]. split; [reflexivity|].
    split; [reflexivity|]. split; [reflexivity|]. split; [exact Ha|].
    split.
    + intros ->. reflexivity.
    + intros mode -> Hrange. simpl.
      unfold engine.wrap64, engine.Second.
      rewrite Z.mod_small; lia.
Qed.

Lemma New_spec_witness :
  exists e,
    engine.New Sample.host (Sample.options policy.DefaultPolicy) = sys.Ok e /\
    tools.Timeout (engine.runner e) = 300000000000%Z.
Proof.
  eexists. split; [reflexivity|].
  refine (proj2 (proj2 (proj2 (proj2 (proj2 (proj2 (proj2
            (proj2 (New_spec Sample.host
                      (Sample.options policy.DefaultPolicy)) _ eq_refl)))))))
            _ eq_refl _).
  simpl. lia.
Defined.

(** A scan with no kind requested does nothing but read the clock
    twice: it writes no audit record, starts no process, and returns
    the exit code 0, the summary of a successful scan, the SARIF
    skeleton without runs and the plan of one step. *)
Lemma Scan_nothing_requested (h : sys.Host) (c : security.Codec)
    (src : deadcode.Source) (e : engine.Engine) (w : sys.World) :
  engine.Scan h c src e
    {| engine.Security := false; engine.DeadCode := false |} w
  = (sys.Ok {| engine.SARIF := engine.emptySARIF;
               engine.Plan_ :=
                 engine.basicPlan (sys.clock h (S (sys.ticks w)));
               engine.ExitCode := 0;
               engine.Summary := "Scan completed successfully" |},
     {| sys.ticks := S (S (sys.ticks w)); sys.procs := sys.procs w;
        sys.files := sys.files w; sys.audit := sys.audit w |}).
Proof. reflexivity. Qed.

(** X24. A scan that returns always carries a SARIF document and the
    same plan of one step: the document is the skeleton without runs
    when security scanning was not requested, and otherwise the
    encoding of the runs of the results its scanner returned to it;
    dead-code detection never changes it. *)
Theorem Scan_sarif_and_plan (h : sys.Host) (c : security.Codec)
    (src : deadcode.Source) (e : engine.Engine) (opts : engine.ScanOpts)
    (w : sys.World) (r : engine.ScanResult) :
  fst (engine.Scan h c src e opts w) = sys.Ok r ->
  (engine.Security opts = false -> engine.SARIF r = engine.emptySARIF) /\
  (engine.Security opts = true ->
     exists results,
       scannerRun h c e w = sys.Ok results /\
       security.marshalSarif c (security.sarifRuns (sys.mapLower h) results)
       = sys.Ok (engine.SARIF r)) /\
  (exists createdAt, engine.Plan_ r = engine.basicPlan createdAt) /\
  List.length (engine.Steps (engine.Plan_ r)) = 1.
Proof.
  unfold scannerRun, scannerWorld, engine.Scan, sys.bind.
  destruct (sys.now h w) as [start w0].
  change (snd (start, w0)) with w0.
  set (l0 := {| engine.sarifData := None; engine.exitCode := 0;
                engine.summary := "Scan completed successfully" |}).
  assert (H1 : forall l1,
    fst ((if engine.Security opts
          then engine.scanSecurity h c e start l0
          else sys.ret (sys.Ok l0)) w0) = sys.Ok l1 ->
    (engine.Security opts = false -> engine.sarifData l1 = None) /\
    (engine.Security opts = true ->
       exists results,
         fst (security.Scan h c (engine.scanner e)
                (snd (AuditLogger.LogToolCall h (engine.auditLogger e)
                        "security" "scanner" ["security"; "scan"] 0
                        "started" None w0))) = sys.Ok results /\
         security.GenerateSARIF (sys.mapLower h) c results
         = sys.Ok (default engine.emptySARIF (engine.sarifData l1)))).
  { intros l1. destruct (engine.Security opts).
    - intros H. split; [discriminate|]. intros _.
      destruct (scanSecurity_run h c e start l0 w0) as (results & Hs & Hl).
      rewrite H in Hl. destruct Hl as (Hg & Hsome & _).
      exists results. split; [exact Hs|].
      destruct (engine.sarifData l1); [exact Hg | done].
    - simpl. intros H. injection H as <-. split; [done|discriminate]. }
  destruct ((if engine.Security opts
             then engine.scanSecurity h c e start l0
             else sys.ret (sys.Ok l0)) w0) as [[l1|err] w1];
    simpl in H1 |- *; [|discriminate].
  specialize (H1 l1 eq_refl).
  assert (H2 : forall l2,
    fst ((if engine.DeadCode opts
          then engine.scanDeadCode h src e start l1
          else sys.ret (sys.Ok l1)) w1) = sys.Ok l2 ->
    engine.sarifData l2 = engine.sarifData l1).
  { intros l2. destruct (engine.DeadCode opts).
    - destruct (scanDeadCode_run h src e start l1 w1)
        as (result & l' & _ & Hl' & Hsarif & _).
      intros H. rewrite Hl' in H. now injection H as <-.
    - simpl. intros H. now injection H as <-. }
  destruct ((if engine.DeadCode opts
             then engine.scanDeadCode h src e start l1
             else sys.ret (sys.Ok l1)) w1) as [[l2|err] w2];
    simpl in H2 |- *; [|discriminate].
  specialize (H2 l2 eq_refl).
  destruct (sys.now h w2) as [createdAt w3]. simpl.
  intros H. injection H as <-. simpl. rewrite H2.
  destruct H1 as [Hoff Hon]. split; [|split; [|split]].
  - intros Hsec. now rewrite (Hoff Hsec).
  - intros Hsec. destruct (Hon Hsec) as (results & Hs & Hg).
    exists results. split; [exact Hs | exact Hg].
  - eauto.
  - reflexivity.
Qed.

Lemma Scan_sarif_and_plan_witness :
  exists e r,
    engine.New Sample.host (Sample.options Sample.scanPolicy) = sys.Ok e /\
    fst (engine.Scan Sample.host (Sample.codec 1) (Sample.source 3) e
           Sample.both Sample.world) = sys.Ok r /\
    exists results,
      scannerRun Sample.host (Sample.codec 1) e Sample.world
      = sys.Ok results /\
      security.marshalSarif (Sample.codec 1)
        (security.sarifRuns (sys.mapLower Sample.host) results)
      = sys.Ok (engine.SARIF r).
Proof.
  eexists. eexists. split; [reflexivity|].
  match goal with
  | |- fst (engine.Scan _ _ _ ?e _ _) = _ /\ _ => set (E := e)
  end.
  split; [vm_compute; reflexivity|].
  refine (proj1 (proj2 (Scan_sarif_and_plan Sample.host (Sample.codec 1)
                          (Sample.source 3) E Sample.both Sample.world _ _))
            eq_refl).
  vm_compute. reflexivity.
Defined.

(** X25. Whatever commands its kinds attempt, a scan keeps the audit
    log it finds and appends to it: on success a [tool.run] record
    with the status [started] and a closing [scan.result] record for
    each requested kind, security before dead code; on failure the
    [started] record and one [tool.run] record with the status
    [error].  No record of another kind is written, so a denied
    command never shows as a [policy.violation]. *)
Theorem Scan_audit_trail (h : sys.Host) (c : security.Codec)
    (src : deadcode.Source) (e : engine.Engine) (opts : engine.ScanOpts)
    (w : sys.World) :
  exists new,
    sys.audit (snd (engine.Scan h c src e opts w)) = sys.audit w ++ new /\
    map kindStatus new
    = match fst (engine.Scan h c src e opts w) with
      | sys.Ok _ =>
          (if engine.Security opts
           then [("tool.run", "started"); ("scan.result", "ok")] else [])
          ++ (if engine.DeadCode opts
              then [("tool.run", "started"); ("scan.result", "ok")] else [])
      | sys.Err _ => [("tool.run", "started"); ("tool.run", "error")]
      end /\
    Forall (fun entry => logging.Event entry <> "policy.violation") new.
Proof.
  destruct (Scan_audit h c src e opts w) as (new & Ha & Hk).
  exists new. split; [exact Ha|]. split; [exact Hk|].
  assert (Hev : Forall (fun ks => fst ks <> "policy.violation")
                  (map kindStatus new)).
  { rewrite Hk. destruct (fst _).
    - destruct (engine.Security opts), (engine.DeadCode opts); simpl;
        repeat constructor; discriminate.
    - repeat constructor; discriminate. }
  clear -Hev. induction new as [|entry new IH]; [constructor|].
  inversion Hev; subst. constructor; auto.
Qed.

(** ** The risk of removing a symbol *)

Lemma patternsLoop_spec name patterns :
  deadcode.patternsLoop name patterns = true <->
  exists pattern pre post,
    In pattern patterns /\ name = pre +:+ pattern +:+ post.
Proof.
  induction patterns as [|k rest IH]; simpl.
  - split; [discriminate | intros (? & ? & ? & [] & _)].
  - destruct (GoStrings.Contains name k) eqn:E.
    + split; [intros _ | done].
      apply Contains_spec in E. destruct E as (pre & post & E). eauto 6.
    + rewrite IH. split.
      * intros (pattern & pre & post & Hin & H). eauto 7.
      * intros (pattern & pre & post & [->|Hin] & H); [|eauto 6].
        assert (GoStrings.Contains name pattern = true) as Hc
          by (apply Contains_spec; eauto).
        congruence.
Qed.

(** X26. The risk of removing a symbol is one of [high], [medium] and
    [low] and does not depend on the symbol's kind: it is [high]
    exactly for an exported symbol, and [medium] exactly for an
    unexported one whose name contains, in this spelling, one of
    [init], [main], [New], [Create] and [Build]; a longer name around a
    risky one is no less risky. *)
Theorem calculateRisk_spec (name kind : string) (exported : bool) :
  (deadcode.calculateRisk name kind exported = "high"
   \/ deadcode.calculateRisk name kind exported = "medium"
   \/ deadcode.calculateRisk name kind exported = "low") /\
  (forall kind',
     deadcode.calculateRisk name kind' exported
     = deadcode.calculateRisk name kind exported) /\
  (deadcode.calculateRisk name kind exported = "high" <-> exported = true) /\
  (deadcode.calculateRisk name kind exported = "medium" <->
     exported = false /\
     exists pattern pre post,
       In pattern ["init"; "main"; "New"; "Create"; "Build"] /\
       name = pre +:+ pattern +:+ post) /\
  (forall pre post,
     deadcode.calculateRisk name kind exported <> "low" ->
     deadcode.calculateRisk (pre +:+ name +:+ post) kind exported
     = deadcode.calculateRisk name kind exported).
Proof.
  unfold deadcode.calculateRisk.
  pose proof (patternsLoop_spec name deadcode.commonPatterns) as Hname.
  split; [|split; [|split; [|split]]].
  - destruct exported; [auto|].
    destruct (deadcode.patternsLoop name _); auto.
  - reflexivity.
  - destruct exported; [done|].
    destruct (deadcode.patternsLoop name _); split; discriminate.
  - destruct exported; [split; [discriminate | intros [? _]; discriminate]|].
    destruct (deadcode.patternsLoop name _).
    + split; [intros _; split; [done|]; now apply Hname | done].
    + split; [discriminate|]. intros [_ H]. apply Hname in H. discriminate.
  - intros pre post. destruct exported; [done|].
    destruct (deadcode.patternsLoop name _); [intros _ | done].
    destruct (proj1 Hname eq_refl) as (pattern & pre' & post' & Hin & ->).
    assert (H : deadcode.patternsLoop
                  (pre +:+ (pre' +:+ pattern +:+ post') +:+ post)
                  deadcode.commonPatterns = true).
    { apply patternsLoop_spec.
      exists pattern, (pre +:+ pre'), (post' +:+ post).
      split; [exact Hin|]. now rewrite !append_assoc. }
    now rewrite H.
Qed.

Lemma calculateRisk_spec_witness :
  deadcode.calculateRisk "mustBuildIndex" "func" false = "medium".
Proof.
  refine (eq_trans
            (proj2 (proj2 (proj2 (proj2
               (calculateRisk_spec "Build" "func" false)))) "must" "Index" _)
            eq_refl).
  discriminate.
Defined.
